(** * slink: URL classification, retry and strategy chains of the
      Instagram / Facebook scraper, embedded from the TypeScript sources.

    Conventions of the embedding.
    - A JavaScript string is a [string] of character codes.  Case folding
      ([toLowerCase]) and the character classes of the regular expressions
      are modelled on ASCII; codes above 127 are carried unchanged.
    - A JavaScript number is an integer of [Z] (no fractions, no NaN).
    - A dynamically typed value (a response body, a caught exception) is a
      [jsval]; exceptions are values of [thrown], which like JavaScript
      allows [undefined] to be thrown.
    - Asynchronous code is sequential code in a state-and-exception monad
      whose state is the chronological trace of collaborator events (HTTP
      requests, timer sleeps, invocations of a test double). *)

From Stdlib Require Import String Ascii List ZArith Bool Lia.
Import ListNotations.

Local Open Scope string_scope.
Local Open Scope Z_scope.

Set Warnings "-register-all".

(* ===================================================================== *)
(** * String primitives of the runtime *)
(* ===================================================================== *)

Module Str.

Definition code (c : ascii) : nat := nat_of_ascii c.

Definition is_upper (c : ascii) : bool :=
  (Nat.leb 65 (code c) && Nat.leb (code c) 90)%bool.
Definition is_lower (c : ascii) : bool :=
  (Nat.leb 97 (code c) && Nat.leb (code c) 122)%bool.
Definition is_alpha (c : ascii) : bool := (is_upper c || is_lower c)%bool.
Definition is_digit (c : ascii) : bool :=
  (Nat.leb 48 (code c) && Nat.leb (code c) 57)%bool.
Definition is_alnum (c : ascii) : bool := (is_alpha c || is_digit c)%bool.

Definition lower_char (c : ascii) : ascii :=
  if is_upper c then ascii_of_nat (code c + 32) else c.

(** [s.toLowerCase()] *)
Fixpoint toLowerCase (s : string) : string :=
  match s with
  | EmptyString => EmptyString
  | String c t => String (lower_char c) (toLowerCase t)
  end.

(** [s.startsWith(p)] *)
Fixpoint startsWith (p s : string) : bool :=
  match p, s with
  | EmptyString, _ => true
  | String _ _, EmptyString => false
  | String a p', String b s' => (Ascii.eqb a b && startsWith p' s')%bool
  end.

(** [s.includes(needle)] *)
Fixpoint includes (needle s : string) : bool :=
  (startsWith needle s ||
   match s with
   | EmptyString => false
   | String _ t => includes needle t
   end)%bool.

(** [s.split(c)[0]]: the text before the first [c], all of [s] if none. *)
Fixpoint split_head (c : ascii) (s : string) : string :=
  match s with
  | EmptyString => EmptyString
  | String a t => if Ascii.eqb a c then EmptyString else String a (split_head c t)
  end.

(** The text after the first [c], if [c] occurs. *)
Fixpoint split_tail (c : ascii) (s : string) : option string :=
  match s with
  | EmptyString => None
  | String a t => if Ascii.eqb a c then Some t else split_tail c t
  end.

(** [s.endsWith(String c "")] *)
Fixpoint endsWithChar (c : ascii) (s : string) : bool :=
  match s with
  | EmptyString => false
  | String a EmptyString => Ascii.eqb a c
  | String _ t => endsWithChar c t
  end.

Fixpoint drop (n : nat) (s : string) : string :=
  match n, s with
  | O, _ => s
  | S n', String _ t => drop n' t
  | S _, EmptyString => EmptyString
  end.

(** [s.replace(pat, by)] with a string pattern: first occurrence only. *)
Fixpoint replace_first (pat by_ s : string) : string :=
  if startsWith pat s then by_ ++ drop (String.length pat) s
  else match s with
       | EmptyString => EmptyString
       | String a t => String a (replace_first pat by_ t)
       end.

(** Longest prefix whose characters satisfy [p], and the rest. *)
Fixpoint span (p : ascii -> bool) (s : string) : string * string :=
  match s with
  | EmptyString => (EmptyString, EmptyString)
  | String a t =>
      if p a then let (x, y) := span p t in (String a x, y)
      else (EmptyString, s)
  end.

Fixpoint all (p : ascii -> bool) (s : string) : bool :=
  match s with
  | EmptyString => true
  | String a t => (p a && all p t)%bool
  end.

Definition is_empty (s : string) : bool :=
  match s with EmptyString => true | _ => false end.

End Str.

(* ===================================================================== *)
(** * Dynamic values and exceptions *)
(* ===================================================================== *)

(** types.ts: [Platform] *)
Inductive Platform := instagram | facebook.

(** types.ts: [MediaType] *)
Inductive MediaType := video | reel | story | post.

(** The classes of [Error] the program can meet: the three subclasses of
    [ScraperError] of types.ts, the runtime's [TypeError] and [RangeError],
    the HTTP client's own error class, and plain [Error]. *)
Inductive ErrorClass :=
  URLError | NetworkError | ParseError | TypeError | RangeError | AxiosError | PlainError.

Record Error := mkError {
  err_name : ErrorClass;
  err_message : string;
  err_platform : option Platform
}.

(** types.ts: the [code] each [ScraperError] subclass passes to [super]. *)
Definition err_code (e : Error) : option string :=
  match err_name e with
  | URLError => Some "INVALID_URL"
  | NetworkError => Some "NETWORK_ERROR"
  | ParseError => Some "PARSE_ERROR"
  | _ => None
  end.

(** What a [throw] carries.  [retry] can throw its never-assigned
    [lastError], which is [undefined]. *)
Inductive thrown :=
| ThrownUndefined
| ThrownError (e : Error).

Definition new_URLError (msg : string) : thrown :=
  ThrownError (mkError URLError msg None).
Definition new_ParseError (msg : string) (p : Platform) : thrown :=
  ThrownError (mkError ParseError msg (Some p)).
Definition new_NetworkError (msg : string) (p : Platform) : thrown :=
  ThrownError (mkError NetworkError msg (Some p)).
Definition new_TypeError (msg : string) : thrown :=
  ThrownError (mkError TypeError msg None).

(** A JSON-like dynamic value. *)
Inductive jsval :=
| JUndefined
| JNull
| JBool (b : bool)
| JNum (z : Z)
| JStr (s : string)
| JArr (l : list jsval)
| JObj (fields : list (string * jsval)).

Module Js.

(** ToBoolean *)
Definition truthy (v : jsval) : bool :=
  match v with
  | JUndefined | JNull => false
  | JBool b => b
  | JNum z => negb (z =? 0)
  | JStr s => negb (Str.is_empty s)
  | JArr _ | JObj _ => true
  end.

(** [a || b] *)
Definition or (a b : jsval) : jsval := if truthy a then a else b.

Fixpoint assoc (k : string) (l : list (string * jsval)) : jsval :=
  match l with
  | [] => JUndefined
  | (k', v) :: t => if String.eqb k k' then v else assoc k t
  end.

(** [v?.k]; also [v.k] when [v] is known not to be null or undefined.
    A property of a primitive that has none is [undefined]. *)
Definition oget (v : jsval) (k : string) : jsval :=
  match v with
  | JObj fields => assoc k fields
  | _ => JUndefined
  end.

(** [v?.[0]] *)
Definition oidx0 (v : jsval) : jsval :=
  match v with
  | JArr (x :: _) => x
  | JObj fields => assoc "0" fields
  | JStr (String c _) => JStr (String c EmptyString)
  | _ => JUndefined
  end.

(** [a === b] against a string or number literal. *)
Definition seq_str (v : jsval) (s : string) : bool :=
  match v with JStr t => String.eqb t s | _ => false end.
Definition seq_num (v : jsval) (n : Z) : bool :=
  match v with JNum z => z =? n | _ => false end.

End Js.

(* ===================================================================== *)
(** * The runtime's [URL] class *)
(* ===================================================================== *)

(** A model of [new URL(input)] (no base) of the WHATWG URL standard, as
    far as normalizeFacebookURL observes it: the input is trimmed of
    leading and trailing C0-control-or-space characters and of every tab
    and newline; it must then start with a scheme ([alpha] followed by
    alphanumerics, [+], [-] or [.], then [:]), the constructor throwing a
    [TypeError] otherwise; the fragment starts at the first [#] and the
    query at the first [?] before it.  Validation of the host, port and
    path is not modelled: every input with a scheme is accepted.
    [searchParams] is the application/x-www-form-urlencoded parse of the
    query.  (The percent-encoding the parser applies to the stored query is
    undone by that parse and is left out.) *)
Module WhatwgURL.
Import Str.

Definition is_c0_or_space (c : ascii) : bool := Nat.leb (code c) 32.
Definition is_tab_or_newline (c : ascii) : bool :=
  (Nat.eqb (code c) 9 || Nat.eqb (code c) 10 || Nat.eqb (code c) 13)%bool.

Fixpoint trim_start (s : string) : string :=
  match s with
  | EmptyString => EmptyString
  | String a t => if is_c0_or_space a then trim_start t else s
  end.

Fixpoint trim_end (s : string) : string :=
  match s with
  | EmptyString => EmptyString
  | String a t =>
      let t' := trim_end t in
      if (is_c0_or_space a && is_empty t')%bool then EmptyString
      else String a t'
  end.

Fixpoint remove_tab_newline (s : string) : string :=
  match s with
  | EmptyString => EmptyString
  | String a t =>
      if is_tab_or_newline a then remove_tab_newline t
      else String a (remove_tab_newline t)
  end.

Definition is_scheme_char (c : ascii) : bool :=
  (is_alnum c || Ascii.eqb c "+" || Ascii.eqb c "-" || Ascii.eqb c ".")%bool.

(** Scheme state: scheme characters up to the first [:]. *)
Fixpoint scheme_state (s : string) : option (string * string) :=
  match s with
  | EmptyString => None
  | String a t =>
      if Ascii.eqb a ":" then Some (EmptyString, t)
      else if is_scheme_char a then
        match scheme_state t with
        | Some (sc, rest) => Some (String (lower_char a) sc, rest)
        | None => None
        end
      else None
  end.

(** Scheme start state. *)
Definition scheme_start_state (s : string) : option (string * string) :=
  match s with
  | EmptyString => None
  | String a _ => if is_alpha a then scheme_state s else None
  end.

Record URL := mkURL {
  scheme : string;
  hier : string;          (* authority and path, unparsed *)
  query : string;         (* without the leading [?]; empty if absent *)
  fragment : option string
}.

(** [new URL(input)]; [None] stands for the thrown [TypeError]. *)
Definition parse (input : string) : option URL :=
  let cleaned := remove_tab_newline (trim_end (trim_start input)) in
  match scheme_start_state cleaned with
  | None => None
  | Some (sc, rest) =>
      let before_fragment := split_head "#" rest in
      Some (mkURL sc
                  (split_head "?" before_fragment)
                  (match split_tail "?" before_fragment with
                   | Some q => q
                   | None => EmptyString
                   end)
                  (split_tail "#" rest))
  end.

Definition hex_value (c : ascii) : option nat :=
  if is_digit c then Some (code c - 48)%nat
  else if (Nat.leb 65 (code c) && Nat.leb (code c) 70)%bool then Some (code c - 55)%nat
  else if (Nat.leb 97 (code c) && Nat.leb (code c) 102)%bool then Some (code c - 87)%nat
  else None.

Fixpoint percent_decode (s : string) : string :=
  match s with
  | EmptyString => EmptyString
  | String a tl =>
      if Ascii.eqb a "%" then
        match tl with
        | String h1 (String h2 t) =>
            match hex_value h1, hex_value h2 with
            | Some x, Some y => String (ascii_of_nat (16 * x + y)) (percent_decode t)
            | _, _ => String a (percent_decode tl)
            end
        | _ => String a (percent_decode tl)
        end
      else String a (percent_decode tl)
  end.

Fixpoint plus_to_space (s : string) : string :=
  match s with
  | EmptyString => EmptyString
  | String a t => String (if Ascii.eqb a "+" then " "%char else a) (plus_to_space t)
  end.

Definition decode (s : string) : string := percent_decode (plus_to_space s).

(** The pieces of [s] between occurrences of [c]. *)
Fixpoint split_on (c : ascii) (s : string) : list string :=
  match s with
  | EmptyString => [EmptyString]
  | String a t =>
      if Ascii.eqb a c then EmptyString :: split_on c t
      else match split_on c t with
           | x :: r => String a x :: r
           | [] => [String a EmptyString]
           end
  end.

Definition parse_pair (piece : string) : string * string :=
  (decode (split_head "=" piece),
   decode (match split_tail "=" piece with Some v => v | None => EmptyString end)).

(** The urlencoded parser: empty pieces are skipped. *)
Definition urlencoded_parse (q : string) : list (string * string) :=
  map parse_pair (filter (fun piece => negb (is_empty piece)) (split_on "&" q)).

Fixpoint first_value (name : string) (l : list (string * string)) : option string :=
  match l with
  | [] => None
  | (k, v) :: t => if String.eqb k name then Some v else first_value name t
  end.

(** [url.searchParams.get(name)]; [None] is [null]. *)
Definition searchParams_get (u : URL) (name : string) : option string :=
  first_value name (urlencoded_parse (query u)).

End WhatwgURL.

(* ===================================================================== *)
(** * utils.ts *)
(* ===================================================================== *)

(** [normalizeInstagramURL] *)
Definition normalizeInstagramURL (url : string) : string :=
  let cleanUrl := Str.split_head "?" url in
  if Str.endsWithChar "/" cleanUrl then cleanUrl else cleanUrl ++ "/".

(** [normalizeFacebookURL]; the only throw is the [URL] constructor's. *)
Definition normalizeFacebookURL (url : string) : thrown + string :=
  if Str.includes "fb.watch" url then inr url
  else
    match WhatwgURL.parse url with
    | None => inl (new_TypeError "Invalid URL")
    | Some urlObj =>
        match WhatwgURL.searchParams_get urlObj "v" with
        | Some videoId =>
            if negb (Str.is_empty videoId)
            then inr ("https://www.facebook.com/watch/?v=" ++ videoId)
            else inr (Str.split_head "?" url)
        | None => inr (Str.split_head "?" url)
        end
    end.

Record Classified := mkClassified {
  platform : Platform;
  normalizedUrl : string
}.

(** [validateURL].  The argument is typed [string] in the source but the
    function tests [typeof url] itself, so it is taken as a dynamic value. *)
Definition validateURL (url : jsval) : thrown + Classified :=
  match url with
  | JStr s =>
      if Str.is_empty s then inl (new_URLError "URL must be a non-empty string")
      else
        let urlLower := Str.toLowerCase s in
        if Str.includes "instagram.com" urlLower then
          inr (mkClassified instagram (normalizeInstagramURL s))
        else if (Str.includes "facebook.com" urlLower
                 || Str.includes "fb.com" urlLower
                 || Str.includes "fb.watch" urlLower)%bool then
          match normalizeFacebookURL s with
          | inl e => inl e
          | inr n => inr (mkClassified facebook n)
          end
        else
          inl (new_URLError "Unsupported platform. Only Instagram and Facebook are supported")
  | _ => inl (new_URLError "URL must be a non-empty string")
  end.

(** Regular-expression search: the match is tried at every start index,
    leftmost first. *)
Fixpoint re_search {A} (at_start : string -> option A) (s : string) : option A :=
  match at_start s with
  | Some r => Some r
  | None =>
      match s with
      | EmptyString => None
      | String _ t => re_search at_start t
      end
  end.

(** A literal followed by a captured [cls+]. *)
Definition lit_then_run (lit : string) (cls : ascii -> bool) (s : string) : option string :=
  if Str.startsWith lit s then
    let run := fst (Str.span cls (Str.drop (String.length lit) s)) in
    if Str.is_empty run then None else Some run
  else None.

(** The class [[^/?]]. *)
Definition not_slash_query (c : ascii) : bool :=
  negb (Ascii.eqb c "/" || Ascii.eqb c "?").

Definition is_line_terminator (c : ascii) : bool :=
  (Nat.eqb (Str.code c) 10 || Nat.eqb (Str.code c) 13)%bool.

(** Greedy [.*] followed by [k]: the longest run of non-terminators after
    which [k] matches. *)
Fixpoint dot_star_then {A} (k : string -> option A) (s : string) : option A :=
  match s with
  | EmptyString => k s
  | String a t =>
      if is_line_terminator a then k s
      else match dot_star_then k t with
           | Some r => Some r
           | None => k s
           end
  end.

Fixpoint first_match {A} (patterns : list (string -> option A)) (s : string) : option A :=
  match patterns with
  | [] => None
  | p :: rest =>
      match p s with
      | Some r => Some r
      | None => first_match rest s
      end
  end.

(** [extractInstagramShortcode] *)
Definition extractInstagramShortcode (url : string) : option string :=
  first_match
    [ re_search (lit_then_run "instagram.com/p/" not_slash_query);
      re_search (lit_then_run "instagram.com/reel/" not_slash_query);
      re_search (lit_then_run "instagram.com/tv/" not_slash_query) ]
    url.

(** [/facebook\.com\/watch\/?\?v=(\d+)/] at one start index. *)
Definition fb_watch_at (s : string) : option string :=
  if Str.startsWith "facebook.com/watch" s then
    let after := Str.drop 18 s in
    match lit_then_run "/?v=" Str.is_digit after with
    | Some r => Some r
    | None => lit_then_run "?v=" Str.is_digit after
    end
  else None.

(** [/facebook\.com\/.*\/videos\/(\d+)/] at one start index. *)
Definition fb_videos_at (s : string) : option string :=
  if Str.startsWith "facebook.com/" s then
    dot_star_then (lit_then_run "/videos/" Str.is_digit) (Str.drop 13 s)
  else None.

(** [extractFacebookVideoId] *)
Definition extractFacebookVideoId (url : string) : option string :=
  first_match
    [ re_search fb_watch_at;
      re_search fb_videos_at;
      re_search (lit_then_run "fb.watch/" not_slash_query);
      re_search (lit_then_run "facebook.com/video.php?v=" Str.is_digit) ]
    url.

(* ===================================================================== *)
(** * Asynchronous code: a trace-state and exception monad *)
(* ===================================================================== *)

(** An HTTP request as the client issues it: the per-instance defaults
    merged with the per-call options. *)
Record Request := mkRequest {
  req_url : string;
  req_headers : list (string * string);
  req_responseType : option string;
  req_timeout : Z
}.

Inductive Event :=
| EvGet (r : Request)     (* [client.get] was issued *)
| EvSleep (ms : Z)        (* [sleep(ms)] elapsed *)
| EvCall.                 (* a test double was invoked *)

Definition Trace := list Event.

(** A computation reads the trace so far and returns a value or a thrown
    exception, with the extended trace. *)
Definition M (A : Type) : Type := Trace -> (thrown + A) * Trace.

Definition ret {A} (a : A) : M A := fun tr => (inr a, tr).
Definition throw {A} (e : thrown) : M A := fun tr => (inl e, tr).
Definition bind {A B} (m : M A) (k : A -> M B) : M B :=
  fun tr =>
    match m tr with
    | (inl e, tr') => (inl e, tr')
    | (inr a, tr') => k a tr'
    end.
(** [try { m } catch (error) { h error }] *)
Definition try_catch {A} (m : M A) (h : thrown -> M A) : M A :=
  fun tr =>
    match m tr with
    | (inl e, tr') => h e tr'
    | (inr a, tr') => (inr a, tr')
    end.
(** A synchronous call that may throw. *)
Definition lift {A} (r : thrown + A) : M A := fun tr => (r, tr).
Definition emit (ev : Event) : M unit := fun tr => (inr tt, (tr ++ [ev])%list).

Declare Scope js_scope.
Delimit Scope js_scope with js.
Notation "x <- m ;; k" := (bind m (fun x => k))
  (at level 61, m at next level, right associativity) : js_scope.
Notation "m ;;; k" := (bind m (fun _ => k))
  (at level 61, right associativity) : js_scope.
Local Open Scope js_scope.

(** [sleep(ms)] *)
Definition sleep (ms : Z) : M unit := emit (EvSleep ms).

Section Retry.
Context {T : Type}.
Variable fn : M T.
Variables retries delay : Z.

(** The [for] loop of [retry] with [n] iterations left, loop index [i]
    and the current [lastError].  The loop test [i < retries] holds
    exactly while iterations are left, see [retry]. *)
Fixpoint retry_loop (n : nat) (i : Z) (lastError : thrown) : M T :=
  match n with
  | O => throw lastError
  | S n' =>
      try_catch fn
        (fun error =>
           (if i <? retries - 1 then sleep (delay * (i + 1)) else ret tt) ;;;
           retry_loop n' (i + 1) error)
  end.

(** [retry(fn, retries, delay)]: the loop runs for [i = 0 .. retries-1],
    that is [Z.to_nat retries] times (none if [retries <= 0]), and
    [lastError] starts out [undefined]. *)
Definition retry : M T := retry_loop (Z.to_nat retries) 0 ThrownUndefined.
End Retry.

(** Counting invocations: a spy around an operation records each
    invocation in the trace before running the operation. *)
Definition count_calls (tr : Trace) : nat :=
  List.length (filter (fun ev => match ev with EvCall => true | _ => false end) tr).

Definition spy {T} (fn : M T) : M T := emit EvCall ;;; fn.

(** A scripted operation: run under a spy, its invocation number [j]
    (from 0) has the outcome [script j]. *)
Definition scripted {T} (script : nat -> thrown + T) : M T :=
  fun tr => (script (count_calls tr - 1)%nat, tr).

(* ===================================================================== *)
(** * utils.ts: text helpers *)
(* ===================================================================== *)

(** [\w] *)
Definition is_word (c : ascii) : bool := (Str.is_alnum c || Ascii.eqb c "_")%bool.
(** [\s], the ASCII part. *)
Definition is_space (c : ascii) : bool :=
  (Ascii.eqb c " " || (Nat.leb 9 (Str.code c) && Nat.leb (Str.code c) 13))%bool.

(** All matches of [mark] followed by [\w+], without the mark: [cur] is
    the tag being read, if the scan is inside one. *)
Fixpoint tags_from (mark : ascii) (cur : option string) (s : string) : list string :=
  let flush := match cur with
               | Some (String a t) => [String a t]
               | _ => []
               end in
  match s with
  | EmptyString => flush
  | String a t =>
      if is_word a then
        match cur with
        | Some acc => tags_from mark (Some (acc ++ String a EmptyString)) t
        | None => tags_from mark None t
        end
      else (flush ++ tags_from mark (if Ascii.eqb a mark then Some EmptyString else None) t)%list
  end.

Definition not_a_function (method : string) : thrown :=
  new_TypeError ("text." ++ method ++ " is not a function").

(** [extractHashtags]; a truthy argument that is not a string has no
    [match] method. *)
Definition extractHashtags (text : jsval) : thrown + list string :=
  if negb (Js.truthy text) then inr []
  else match text with
       | JStr s => inr (tags_from "#" None s)
       | _ => inl (not_a_function "match")
       end.

(** [extractMentions] *)
Definition extractMentions (text : jsval) : thrown + list string :=
  if negb (Js.truthy text) then inr []
  else match text with
       | JStr s => inr (tags_from "@" None s)
       | _ => inl (not_a_function "match")
       end.

(** [text.replace(/\s+/g, ' ')] *)
Fixpoint collapse_spaces (in_run : bool) (s : string) : string :=
  match s with
  | EmptyString => EmptyString
  | String a t =>
      if is_space a then
        if in_run then collapse_spaces true t
        else String " " (collapse_spaces true t)
      else String a (collapse_spaces false t)
  end.

Fixpoint trim_left (s : string) : string :=
  match s with
  | EmptyString => EmptyString
  | String a t => if is_space a then trim_left t else s
  end.

Fixpoint trim_right (s : string) : string :=
  match s with
  | EmptyString => EmptyString
  | String a t =>
      let t' := trim_right t in
      if (is_space a && Str.is_empty t')%bool then EmptyString else String a t'
  end.

(** [cleanText] *)
Definition cleanText (text : jsval) : thrown + string :=
  if negb (Js.truthy text) then inr EmptyString
  else match text with
       | JStr s => inr (trim_right (trim_left (collapse_spaces false s)))
       | _ => inl (not_a_function "replace")
       end.

(* ===================================================================== *)
(** * Collaborators: HTTP client, regular expressions on pages, JSON,
      DOM queries, dates, buffers *)
(* ===================================================================== *)

Inductive HttpResult :=
| HttpFail (e : Error)      (* the request rejected: transport failure *)
| HttpOk (data : jsval).    (* [response.data] *)

(** The regular-expression literals the scrapers run on a page. *)
Inductive PagePattern :=
| ReJsonLd            (* <script type=application/ld+json>({.*?})</script> *)
| ReSharedData        (* window._sharedData = ({.+?});</script> *)
| ReAdditionalData    (* window.__additionalDataLoaded('extra',({.+?})); *)
| ReHdSrc             (* hd_src or playable_url *)
| ReSdSrc             (* sd_src *)
| RePlayableUrl       (* playable_url, playable_url_quality_hd *)
| ReEngagement        (* engagement count *)
| ReDurationMs.       (* playable_duration_in_ms *)

Inductive Selector :=
| MetaProperty (name : string)   (* meta[property=name] *)
| MetaName (name : string)       (* meta[name=name] *)
| Tag (name : string).

Definition Buffer := string.

Record Runtime := mkRuntime {
  (** The HTTP client and the servers behind it: the outcome of a request
      issued after the given history. *)
  net : Trace -> Request -> HttpResult;
  (** [s.match(re)]: capture group 1 of the first match, if any. *)
  re_capture : PagePattern -> string -> option string;
  (** [JSON.parse]; [None] is its [SyntaxError]. *)
  JSON_parse : string -> option jsval;
  (** cheerio: [load], [$(sel).attr(name)] and [$.html()]. *)
  Dom : Type;
  cheerio_load : jsval -> thrown + Dom;
  dom_attr : Dom -> Selector -> string -> jsval;
  dom_html : Dom -> string;
  (** [v => new Date(v * 1000).toISOString()] *)
  date_iso : jsval -> thrown + string;
  (** [Buffer.from] *)
  Buffer_from : jsval -> thrown + Buffer
}.

(** types.ts: [ScraperConfig], every field optional. *)
Record ScraperConfig := mkScraperConfig {
  userAgent : option string;
  timeout : option Z;
  retries : option Z;
  retryDelay : option Z;
  proxy : option string;
  cookies : option string
}.

Definition empty_config : ScraperConfig :=
  mkScraperConfig None None None None None None.

(** [Required<ScraperConfig>] *)
Record EffectiveConfig := mkEffectiveConfig {
  eff_userAgent : string;
  eff_timeout : Z;
  eff_retries : Z;
  eff_retryDelay : Z;
  eff_proxy : string;
  eff_cookies : string
}.

(** [field || dflt] on an optional string / number field. *)
Definition or_string (field : option string) (dflt : string) : string :=
  match field with
  | Some s => if Str.is_empty s then dflt else s
  | None => dflt
  end.
Definition or_number (field : option Z) (dflt : Z) : Z :=
  match field with
  | Some n => if n =? 0 then dflt else n
  | None => dflt
  end.

Definition default_userAgent : string :=
  "Mozilla/5.0 (Windows NT 10.0; Win64; x64) AppleWebKit/537.36 (KHTML, like Gecko) Chrome/120.0.0.0 Safari/537.36".

(** The body of both scraper constructors' [this.config = {...}]. *)
Definition effective_config (config : ScraperConfig) : EffectiveConfig :=
  mkEffectiveConfig
    (or_string (userAgent config) default_userAgent)
    (or_number (timeout config) 10000)
    (or_number (retries config) 3)
    (or_number (retryDelay config) 1000)
    (or_string (proxy config) EmptyString)
    (or_string (cookies config) EmptyString).

(** [axios.create({timeout, headers})] *)
Record Client := mkClient {
  client_timeout : Z;
  client_headers : list (string * string)
}.

Fixpoint header_lookup (k : string) (h : list (string * string)) : option string :=
  match h with
  | [] => None
  | (k', v) :: t => if String.eqb k k' then Some v else header_lookup k t
  end.

(** Per-call headers override the instance defaults. *)
Definition merge_headers (defaults call : list (string * string)) : list (string * string) :=
  (map (fun kv => match header_lookup (fst kv) call with
                  | Some v => (fst kv, v)
                  | None => kv
                  end) defaults
   ++ filter (fun kv => match header_lookup (fst kv) defaults with
                        | Some _ => false
                        | None => true
                        end) call)%list.

Record RequestOptions := mkRequestOptions {
  opt_headers : list (string * string);
  opt_responseType : option string;
  opt_timeout : option Z
}.

Definition no_options : RequestOptions := mkRequestOptions [] None None.

(** types.ts: [InstagramMetadata] ([platform] is ['instagram']).  Fields
    copied from a response keep their dynamic type; an absent field is
    [JUndefined]. *)
Record InstagramMetadata := mkInstagramMetadata {
  ig_type : MediaType;
  ig_url : string;
  ig_videoUrl : jsval;
  ig_thumbnail : jsval;
  ig_username : jsval;
  ig_caption : string;
  ig_timestamp : jsval;
  ig_duration : jsval;
  ig_likes : jsval;
  ig_comments : jsval;
  ig_views : jsval;
  ig_isVerified : jsval;
  ig_hashtags : list string;
  ig_mentions : list string;
  ig_location : jsval
}.

(** types.ts: [FacebookMetadata] as the Facebook strategies fill it. *)
Record FacebookMetadata := mkFacebookMetadata {
  fb_type : MediaType;
  fb_url : string;
  fb_videoUrl : jsval;
  fb_thumbnail : jsval;
  fb_caption : string;
  fb_pageName : jsval;
  fb_likes : option Z;
  fb_duration_ms : option Z;      (* [duration] is this over 1000 *)
  fb_isLive : bool
}.

(** Sequencing of synchronous code that may throw. *)
Definition bind_sum {A B} (r : thrown + A) (k : A -> thrown + B) : thrown + B :=
  match r with
  | inl e => inl e
  | inr a => k a
  end.
Notation "x <-! r ;; k" := (bind_sum r (fun x => k))
  (at level 61, r at next level, right associativity) : js_scope.

(** [try { body } catch { return null }] around synchronous code. *)
Definition null_on_throw {A} (body : thrown + option A) : option A :=
  match body with
  | inl _ => None
  | inr r => r
  end.

(** [html.match(re)] on a response body: only a string has [match]. *)
Definition page_match (rt : Runtime) (re : PagePattern) (html : jsval) : thrown + option string :=
  match html with
  | JStr s => inr (re_capture rt re s)
  | _ => inl (new_TypeError "html.match is not a function")
  end.

(** [safeJSONParse] *)
Definition safeJSONParse (rt : Runtime) (text : string) : jsval :=
  match JSON_parse rt text with
  | Some v => v
  | None => JNull
  end.

(** [this.client.get(url, options)] *)
Definition request_of (c : Client) (url : string) (o : RequestOptions) : Request :=
  mkRequest url
    (merge_headers (client_headers c) (opt_headers o))
    (opt_responseType o)
    (match opt_timeout o with Some t => t | None => client_timeout c end).

Definition client_get (rt : Runtime) (c : Client) (url : string) (o : RequestOptions) : M jsval :=
  fun tr =>
    let req := request_of c url o in
    match net rt tr req with
    | HttpFail e => (inl (ThrownError e), (tr ++ [EvGet req])%list)
    | HttpOk data => (inr data, (tr ++ [EvGet req])%list)
    end.

(** [(error as Error).message]: reading a property of [undefined] throws. *)
Definition message_of (error : thrown) : thrown + string :=
  match error with
  | ThrownError e => inr (err_message e)
  | ThrownUndefined =>
      inl (new_TypeError "Cannot read properties of undefined (reading 'message')")
  end.

(* ===================================================================== *)
(** * scrapers/instagram.ts *)
(* ===================================================================== *)

Module InstagramScraper.
Section WithRuntime.
Variable rt : Runtime.

Record t := mk {
  client : Client;
  config : EffectiveConfig
}.

(** [constructor] *)
Definition new (cfg : ScraperConfig) : t :=
  let config := effective_config cfg in
  mk (mkClient (eff_timeout config)
        [ ("User-Agent", eff_userAgent config);
          ("Accept", "text/html,application/xhtml+xml,application/xml;q=0.9,image/webp,*/*;q=0.8");
          ("Accept-Language", "en-US,en;q=0.9");
          ("Accept-Encoding", "gzip, deflate, br");
          ("Cache-Control", "no-cache");
          ("Pragma", "no-cache") ])
     config.

Definition not_a_video : thrown :=
  new_ParseError "Post does not contain a video" instagram.

(** [parseAPIResponse] *)
Definition parseAPIResponse (item : jsval) (url : string) : thrown + InstagramMetadata :=
  let isVideo := (Js.seq_num (Js.oget item "media_type") 2
                  || Js.seq_str (Js.oget item "product_type") "clips")%bool in
  if negb isVideo then inl not_a_video
  else
    let type := if Js.seq_str (Js.oget item "product_type") "clips" then reel else video in
    let captionText := Js.or (Js.oget (Js.oget item "caption") "text") (JStr "") in
    caption <-! cleanText captionText ;;
    timestamp <-! (if Js.truthy (Js.oget item "taken_at")
                   then (iso <-! date_iso rt (Js.oget item "taken_at") ;; inr (JStr iso))
                   else inr JUndefined) ;;
    hashtags <-! extractHashtags captionText ;;
    mentions <-! extractMentions captionText ;;
    inr (mkInstagramMetadata
           type url
           (Js.or (Js.oget (Js.oidx0 (Js.oget item "video_versions")) "url")
                  (Js.oget item "video_url"))
           (Js.or (Js.oget (Js.oidx0 (Js.oget (Js.oget item "image_versions2") "candidates")) "url")
                  (Js.oget item "thumbnail_url"))
           (Js.or (Js.oget (Js.oget item "user") "username") (JStr "unknown"))
           caption
           timestamp
           (Js.or (Js.oget item "video_duration") (JNum 0))
           (Js.or (Js.oget item "like_count") (JNum 0))
           (Js.or (Js.oget item "comment_count") (JNum 0))
           (Js.or (Js.or (Js.oget item "play_count") (Js.oget item "view_count")) (JNum 0))
           (Js.or (Js.oget (Js.oget item "user") "is_verified") (JBool false))
           hashtags mentions
           JUndefined).

(** [parseGraphQLResponse] *)
Definition parseGraphQLResponse (media : jsval) (url : string) : thrown + InstagramMetadata :=
  if negb (Js.truthy (Js.oget media "is_video")) then inl not_a_video
  else
    let type := if Js.seq_str (Js.oget media "__typename") "GraphVideo" then video else reel in
    let caption :=
      Js.or (Js.oget (Js.oget (Js.oidx0 (Js.oget (Js.oget media "edge_media_to_caption") "edges"))
                              "node") "text")
            (JStr "") in
    cleaned <-! cleanText caption ;;
    timestamp <-! (if Js.truthy (Js.oget media "taken_at_timestamp")
                   then (iso <-! date_iso rt (Js.oget media "taken_at_timestamp") ;; inr (JStr iso))
                   else inr JUndefined) ;;
    hashtags <-! extractHashtags caption ;;
    mentions <-! extractMentions caption ;;
    inr (mkInstagramMetadata
           type url
           (Js.oget media "video_url")
           (Js.oget media "display_url")
           (Js.or (Js.oget (Js.oget media "owner") "username") (JStr "unknown"))
           cleaned
           timestamp
           (Js.or (Js.oget media "video_duration") (JNum 0))
           (Js.or (Js.oget (Js.oget media "edge_media_preview_like") "count") (JNum 0))
           (Js.or (Js.oget (Js.oget media "edge_media_to_comment") "count") (JNum 0))
           (Js.or (Js.oget media "video_view_count") (JNum 0))
           (Js.or (Js.oget (Js.oget media "owner") "is_verified") (JBool false))
           hashtags mentions
           (Js.oget (Js.oget media "location") "name")).

(** [extractFromJSONLD] *)
Definition extractFromJSONLD (html : jsval) (url : string) : option InstagramMetadata :=
  null_on_throw
    (jsonLdMatch <-! page_match rt ReJsonLd html ;;
     match jsonLdMatch with
     | None => inr None
     | Some group1 =>
         let data := safeJSONParse rt group1 in
         if (negb (Js.truthy data) || negb (Js.seq_str (Js.oget data "@type") "VideoObject"))%bool
         then inr None
         else
           caption <-! cleanText (Js.or (Js.or (Js.oget data "description") (Js.oget data "caption"))
                                       (JStr "")) ;;
           hashtags <-! extractHashtags (Js.or (Js.oget data "description") (JStr "")) ;;
           mentions <-! extractMentions (Js.or (Js.oget data "description") (JStr "")) ;;
           inr (Some (mkInstagramMetadata
                        video url
                        (Js.oget data "contentUrl")
                        (Js.oget data "thumbnailUrl")
                        (Js.or (Js.or (Js.oget (Js.oget data "author") "alternateName")
                                      (Js.oget data "author"))
                               (JStr "unknown"))
                        caption
                        (Js.oget data "uploadDate")
                        (JNum 0)
                        JUndefined JUndefined JUndefined JUndefined
                        hashtags mentions
                        JUndefined))
     end).

(** The two probes of [extractFromScripts] share this shape. *)
Definition script_media (media : jsval) (url : string) (otherwise : thrown + option InstagramMetadata)
  : thrown + option InstagramMetadata :=
  if (Js.truthy media && Js.truthy (Js.oget media "is_video"))%bool
  then (m <-! parseGraphQLResponse media url ;; inr (Some m))
  else otherwise.

(** [extractFromScripts] *)
Definition extractFromScripts (html : jsval) (url : string) : option InstagramMetadata :=
  null_on_throw
    (let additional :=
       m2 <-! page_match rt ReAdditionalData html ;;
       match m2 with
       | Some group1 =>
           let data := safeJSONParse rt group1 in
           script_media (Js.oget (Js.oget data "graphql") "shortcode_media") url (inr None)
       | None => inr None
       end in
     m1 <-! page_match rt ReSharedData html ;;
     match m1 with
     | Some group1 =>
         let sharedData := safeJSONParse rt group1 in
         script_media
           (Js.oget (Js.oget (Js.oidx0 (Js.oget (Js.oget sharedData "entry_data") "PostPage"))
                             "graphql") "shortcode_media")
           url additional
     | None => additional
     end).

(** The separator of [split('•')]: U+2022 in UTF-8. *)
Definition bullet : string :=
  String (ascii_of_nat 226) (String (ascii_of_nat 128) (String (ascii_of_nat 162) EmptyString)).

(** [s.split(sep)[0]] for a non-empty separator. *)
Fixpoint before (sep s : string) : string :=
  if Str.startsWith sep s then EmptyString
  else match s with
       | EmptyString => EmptyString
       | String a t => String a (before sep t)
       end.

(** [extractFromMetaTags] *)
Definition extractFromMetaTags (html : jsval) (url : string) : option InstagramMetadata :=
  null_on_throw
    (dom <-! cheerio_load rt html ;;
     let videoUrl := Js.or (dom_attr rt dom (MetaProperty "og:video") "content")
                           (dom_attr rt dom (MetaProperty "og:video:secure_url") "content") in
     if negb (Js.truthy videoUrl) then inr None
     else
       let caption := Js.or (dom_attr rt dom (MetaProperty "og:description") "content") (JStr "") in
       let username :=
         Js.or (match dom_attr rt dom (MetaProperty "og:title") "content" with
                | JStr title => JStr (trim_right (trim_left (before bullet title)))
                | _ => JUndefined
                end)
               (JStr "unknown") in
       cleaned <-! cleanText caption ;;
       hashtags <-! extractHashtags caption ;;
       mentions <-! extractMentions caption ;;
       inr (Some (mkInstagramMetadata
                    video url
                    videoUrl
                    (Js.or (dom_attr rt dom (MetaProperty "og:image") "content") (JStr ""))
                    username
                    cleaned
                    JUndefined JUndefined JUndefined JUndefined JUndefined JUndefined
                    hashtags mentions
                    JUndefined))).

Variable self : t.

Definition api_options : RequestOptions :=
  mkRequestOptions
    [ ("X-Requested-With", "XMLHttpRequest");
      ("Referer", "https://www.instagram.com/") ]
    None None.

(** [scrapeWithAPI]: everything, the request and the parse of its
    response, is inside one [try] whose [catch] returns [null]. *)
Definition scrapeWithAPI (url : string) : M (option InstagramMetadata) :=
  try_catch
    (data <- client_get rt (client self) (url ++ "?__a=1&__d=dis") api_options ;;
     if Js.truthy (Js.oidx0 (Js.oget data "items")) then
       m <- lift (parseAPIResponse (Js.oidx0 (Js.oget data "items")) url) ;;
       ret (Some m)
     else if Js.truthy (Js.oget (Js.oget data "graphql") "shortcode_media") then
       m <- lift (parseGraphQLResponse (Js.oget (Js.oget data "graphql") "shortcode_media") url) ;;
       ret (Some m)
     else ret None)
    (fun _ => ret None).

(** The three page probes of [scrapeWithHTML], in order. *)
Definition probe_page (html : jsval) (url : string) : option InstagramMetadata :=
  match extractFromJSONLD html url with
  | Some jsonLdData => Some jsonLdData
  | None =>
      match extractFromScripts html url with
      | Some scriptData => Some scriptData
      | None => extractFromMetaTags html url
      end
  end.

(** [scrapeWithHTML]: the [catch] rethrows as a [NetworkError]. *)
Definition scrapeWithHTML (url : string) : M (option InstagramMetadata) :=
  try_catch
    (html <- client_get rt (client self) url no_options ;;
     ret (probe_page html url))
    (fun error =>
       msg <- lift (message_of error) ;;
       throw (new_NetworkError ("Failed to fetch HTML: " ++ msg) instagram)).

Definition extraction_failed : thrown :=
  new_ParseError "Could not extract video metadata" instagram.

(** The operation [scrape] hands to [retry]. *)
Definition try_all (url : string) : M InstagramMetadata :=
  result <- scrapeWithAPI url ;;
  match result with
  | Some m => ret m
  | None =>
      result <- scrapeWithHTML url ;;
      match result with
      | Some m => ret m
      | None => throw extraction_failed
      end
  end.

(** [scrape] *)
Definition scrape (url : string) : M InstagramMetadata :=
  match extractInstagramShortcode url with
  | Some (String _ _) =>
      retry (try_all url) (eff_retries (config self)) (eff_retryDelay (config self))
  | _ => throw (new_ParseError "Could not extract shortcode from URL" instagram)
  end.

(** [download] *)
Definition download (url : string) : M Buffer :=
  metadata <- scrape url ;;
  if negb (Js.truthy (ig_videoUrl metadata)) then
    throw (new_ParseError "Video URL not found" instagram)
  else
    try_catch
      (data <- match ig_videoUrl metadata with
               | JStr videoUrl =>
                   client_get rt (client self) videoUrl
                     (mkRequestOptions [] (Some "arraybuffer") (Some 30000))
               | _ => throw (new_TypeError "The URL must be of type string")
               end ;;
       lift (Buffer_from rt data))
      (fun error =>
         msg <- lift (message_of error) ;;
         throw (new_NetworkError ("Failed to download video: " ++ msg) instagram)).

End WithRuntime.
End InstagramScraper.

(* ===================================================================== *)
(** * scrapers/facebook.ts *)
(* ===================================================================== *)

(** [parseInt(s, 10)] on a capture of [\d+]; [None] is NaN. *)
Definition digit_value (c : ascii) : Z := Z.of_nat (Str.code c) - 48.
Fixpoint digits_value (acc : Z) (s : string) : Z :=
  match s with
  | EmptyString => acc
  | String a t => digits_value (10 * acc + digit_value a) t
  end.
Definition parseInt10 (s : string) : option Z :=
  match fst (Str.span Str.is_digit s) with
  | EmptyString => None
  | ds => Some (digits_value 0 ds)
  end.

(** [s.replace(/\\\//g, '/')]: every backslash-slash becomes a slash. *)
Fixpoint unescape_slashes (s : string) : string :=
  match s with
  | EmptyString => EmptyString
  | String a tl =>
      match tl with
      | String b t =>
          if (Nat.eqb (Str.code a) 92 && Ascii.eqb b "/")%bool
          then String "/" (unescape_slashes t)
          else String a (unescape_slashes tl)
      | EmptyString => String a EmptyString
      end
  end.

Definition dq : string := String (ascii_of_nat 34) EmptyString.

Module FacebookScraper.
Section WithRuntime.
Variable rt : Runtime.

Record t := mk {
  client : Client;
  config : EffectiveConfig
}.

(** [constructor] *)
Definition new (cfg : ScraperConfig) : t :=
  let config := effective_config cfg in
  mk (mkClient (eff_timeout config)
        [ ("User-Agent", eff_userAgent config);
          ("Accept", "text/html,application/xhtml+xml,application/xml;q=0.9,image/webp,*/*;q=0.8");
          ("Accept-Language", "en-US,en;q=0.9");
          ("Accept-Encoding", "gzip, deflate, br");
          ("Cache-Control", "no-cache") ])
     config.

(** [extractVideoURL]; [JNull] is [null]. *)
Definition extractVideoURL (html : jsval) (dom : Dom rt) : thrown + jsval :=
  hd <-! page_match rt ReHdSrc html ;;
  match hd with
  | Some group1 => inr (JStr (unescape_slashes group1))
  | None =>
      sd <-! page_match rt ReSdSrc html ;;
      match sd with
      | Some group1 => inr (JStr (unescape_slashes group1))
      | None =>
          let ogVideo := Js.or (dom_attr rt dom (MetaProperty "og:video") "content")
                               (dom_attr rt dom (MetaProperty "og:video:secure_url") "content") in
          if Js.truthy ogVideo then inr ogVideo
          else
            let videoTag := dom_attr rt dom (Tag "video") "src" in
            if Js.truthy videoTag then inr videoTag
            else
              pu <-! page_match rt RePlayableUrl html ;;
              match pu with
              | Some group1 => inr (JStr (unescape_slashes group1))
              | None => inr JNull
              end
      end
  end.

(** The [Partial<FacebookMetadata>] of [extractMetadataFromHTML]. *)
Record PartialMetadata := mkPartial {
  p_thumbnail : jsval;
  p_caption : string;
  p_pageName : jsval;
  p_likes : option Z;
  p_duration_ms : option Z;
  p_isLive : bool
}.

(** [extractMetadataFromHTML] *)
Definition extractMetadataFromHTML (dom : Dom rt) (url : string) : thrown + PartialMetadata :=
  let thumbnail := Js.or (dom_attr rt dom (MetaProperty "og:image") "content")
                         (dom_attr rt dom (MetaName "twitter:image") "content") in
  c1 <-! cleanText (Js.or (dom_attr rt dom (MetaProperty "og:description") "content") (JStr "")) ;;
  caption <-! (if negb (Str.is_empty c1) then inr c1
               else cleanText (Js.or (dom_attr rt dom (MetaName "description") "content") (JStr ""))) ;;
  let pageName := Js.or (dom_attr rt dom (MetaProperty "og:site_name") "content")
                        (dom_attr rt dom (MetaProperty "og:title") "content") in
  let likes := match re_capture rt ReEngagement (dom_html rt dom) with
               | Some group1 => parseInt10 group1
               | None => None
               end in
  let duration := match re_capture rt ReDurationMs (dom_html rt dom) with
                  | Some group1 => parseInt10 group1
                  | None => None
                  end in
  let isLive := (Str.includes (dq ++ "is_live" ++ dq ++ ":true") (dom_html rt dom)
                 || Str.includes (dq ++ "broadcast_status" ++ dq ++ ":" ++ dq ++ "LIVE" ++ dq)
                                 (dom_html rt dom))%bool in
  inr (mkPartial thumbnail caption pageName likes duration isLive).

Variable self : t.

(** What [scrapeWithHTML] and [scrapeWithMobileSite] do with a page. *)
Definition page_metadata (html : jsval) (url : string) : thrown + option FacebookMetadata :=
  dom <-! cheerio_load rt html ;;
  videoUrl <-! extractVideoURL html dom ;;
  if negb (Js.truthy videoUrl) then inr None
  else
    metadata <-! extractMetadataFromHTML dom url ;;
    inr (Some (mkFacebookMetadata
                 video url videoUrl
                 (p_thumbnail metadata) (p_caption metadata) (p_pageName metadata)
                 (p_likes metadata) (p_duration_ms metadata) (p_isLive metadata))).

Definition full_options : RequestOptions :=
  mkRequestOptions [("Cookie", eff_cookies (config self))] None None.

(** [scrapeWithHTML] *)
Definition scrapeWithHTML (url : string) : M (option FacebookMetadata) :=
  try_catch
    (html <- client_get rt (client self) url full_options ;;
     lift (page_metadata html url))
    (fun _ => ret None).

Definition mobile_userAgent : string :=
  "Mozilla/5.0 (iPhone; CPU iPhone OS 14_0 like Mac OS X) AppleWebKit/605.1.15 (KHTML, like Gecko) Version/14.0 Mobile/15E148 Safari/604.1".

Definition mobile_options : RequestOptions :=
  mkRequestOptions [("User-Agent", mobile_userAgent)] None None.

(** [scrapeWithMobileSite] *)
Definition scrapeWithMobileSite (url : string) : M (option FacebookMetadata) :=
  try_catch
    (let mobileUrl := Str.replace_first "www.facebook.com" "m.facebook.com" url in
     html <- client_get rt (client self) mobileUrl mobile_options ;;
     lift (page_metadata html url))
    (fun _ => ret None).

(** [scrapeWithGraphAPI] *)
Definition scrapeWithGraphAPI (videoId : string) : M (option FacebookMetadata) :=
  ret None.

Definition extraction_failed : thrown :=
  new_ParseError "Could not extract video metadata" facebook.

(** The operation [scrape] hands to [retry]. *)
Definition try_all (url videoId : string) : M FacebookMetadata :=
  result <- scrapeWithHTML url ;;
  match result with
  | Some m => ret m
  | None =>
      result <- scrapeWithMobileSite url ;;
      match result with
      | Some m => ret m
      | None =>
          result <- scrapeWithGraphAPI videoId ;;
          match result with
          | Some m => ret m
          | None => throw extraction_failed
          end
      end
  end.

(** [scrape] *)
Definition scrape (url : string) : M FacebookMetadata :=
  match extractFacebookVideoId url with
  | Some (String a id) =>
      retry (try_all url (String a id)) (eff_retries (config self)) (eff_retryDelay (config self))
  | _ => throw (new_ParseError "Could not extract video ID from URL" facebook)
  end.

(** [download] *)
Definition download (url : string) : M Buffer :=
  metadata <- scrape url ;;
  if negb (Js.truthy (fb_videoUrl metadata)) then
    throw (new_ParseError "Video URL not found" facebook)
  else
    try_catch
      (data <- match fb_videoUrl metadata with
               | JStr videoUrl =>
                   client_get rt (client self) videoUrl
                     (mkRequestOptions [] (Some "arraybuffer") (Some 30000))
               | _ => throw (new_TypeError "The URL must be of type string")
               end ;;
       lift (Buffer_from rt data))
      (fun error =>
         msg <- lift (message_of error) ;;
         throw (new_NetworkError ("Failed to download video: " ++ msg) facebook)).

End WithRuntime.
End FacebookScraper.

(* ===================================================================== *)
(** * index.ts: the facade *)
(* ===================================================================== *)

(** types.ts: [VideoMetadata] *)
Inductive VideoMetadata :=
| OfInstagram (m : InstagramMetadata)
| OfFacebook (m : FacebookMetadata).

Inductive VideoQuality := high | medium | low.

(** types.ts: [DownloadOptions] *)
Record DownloadOptions := mkDownloadOptions {
  dl_quality : option VideoQuality;
  dl_includeAudio : option bool;
  dl_timeout : option Z;
  dl_headers : list (string * string)
}.

(** types.ts: [DownloadResult]; [None] in [dr_metadata] is the empty
    object the failure branch casts to [VideoMetadata]. *)
Record DownloadResult := mkDownloadResult {
  dr_success : bool;
  dr_metadata : option VideoMetadata;
  dr_buffer : option Buffer;
  dr_error : option string
}.

Module SocialMediaScraper.
Section WithRuntime.
Variable rt : Runtime.

Record t := mk {
  instagramScraper : InstagramScraper.t;
  facebookScraper : FacebookScraper.t
}.

(** [constructor] *)
Definition new (config : ScraperConfig) : t :=
  mk (InstagramScraper.new config) (FacebookScraper.new config).

Variable self : t.

(** [getMetadata] *)
Definition getMetadata (url : jsval) : M VideoMetadata :=
  c <- lift (validateURL url) ;;
  match platform c with
  | instagram =>
      m <- InstagramScraper.scrape rt (instagramScraper self) (normalizedUrl c) ;;
      ret (OfInstagram m)
  | facebook =>
      m <- FacebookScraper.scrape rt (facebookScraper self) (normalizedUrl c) ;;
      ret (OfFacebook m)
  end.

(** [download] *)
Definition download (url : jsval) (options : DownloadOptions) : M DownloadResult :=
  try_catch
    (c <- lift (validateURL url) ;;
     mb <- match platform c with
           | instagram =>
               metadata <- InstagramScraper.scrape rt (instagramScraper self) (normalizedUrl c) ;;
               buffer <- InstagramScraper.download rt (instagramScraper self) (normalizedUrl c) ;;
               ret (OfInstagram metadata, buffer)
           | facebook =>
               metadata <- FacebookScraper.scrape rt (facebookScraper self) (normalizedUrl c) ;;
               buffer <- FacebookScraper.download rt (facebookScraper self) (normalizedUrl c) ;;
               ret (OfFacebook metadata, buffer)
           end ;;
     ret (mkDownloadResult true (Some (fst mb)) (Some (snd mb)) None))
    (fun error =>
       msg <- lift (message_of error) ;;
       ret (mkDownloadResult false None None (Some msg))).

(** [isSupported], synchronous: [try { validateURL(url); return true }
    catch { return false }]. *)
Definition isSupported (url : jsval) : thrown + bool :=
  match (_ <-! validateURL url ;; inr true) with
  | inl _ => inr false
  | inr b => inr b
  end.

Definition videoUrl_of (m : VideoMetadata) : jsval :=
  match m with
  | OfInstagram i => ig_videoUrl i
  | OfFacebook f => fb_videoUrl f
  end.

(** [getVideoURL] *)
Definition getVideoURL (url : jsval) : M jsval :=
  metadata <- getMetadata url ;;
  if negb (Js.truthy (videoUrl_of metadata)) then
    throw (ThrownError (mkError PlainError "Video URL not found" None))
  else ret (videoUrl_of metadata).

End WithRuntime.
End SocialMediaScraper.

(* ===================================================================== *)
(** * Test doubles for the collaborators *)
(* ===================================================================== *)

Definition timeout_error : Error := mkError AxiosError "timeout of 10000ms exceeded" None.

(** Every request fails; pages have no structure. *)
Definition rt_down : Runtime :=
  mkRuntime
    (fun _ _ => HttpFail timeout_error)
    (fun _ _ => None)
    (fun _ => None)
    unit
    (fun _ => inr tt)
    (fun _ _ _ => JUndefined)
    (fun _ => EmptyString)
    (fun _ => inl (ThrownError (mkError RangeError "Invalid time value" None)))
    (fun _ => inr EmptyString).

(** The API-style endpoint answers [api]; every page is [page]; a page
    carries an og:video meta tag with content [og_video] (or none);
    binary fetches return the bytes of their body. *)
Definition rt_stub (api : HttpResult) (page : HttpResult) (og_video : jsval) : Runtime :=
  mkRuntime
    (fun _ req =>
       if Str.includes "?__a=1" (req_url req) then api
       else match req_responseType req with
            | Some _ => HttpOk (JStr "mp4-bytes")
            | None => page
            end)
    (fun _ _ => None)
    (fun _ => None)
    unit
    (fun _ => inr tt)
    (fun _ sel attr =>
       match sel with
       | MetaProperty name =>
           if (String.eqb name "og:video" && String.eqb attr "content")%bool
           then og_video else JUndefined
       | _ => JUndefined
       end)
    (fun _ => EmptyString)
    (fun _ => inr "1970-01-01T00:00:00.000Z")
    (fun v => match v with
              | JStr bytes => inr bytes
              | _ => inl (new_TypeError "The first argument must be of type string")
              end).

(** An image post: the API-style endpoint returns an item whose
    [media_type] is 1 (image) and whose [product_type] is [feed]. *)
Definition image_item : jsval :=
  JObj [("media_type", JNum 1); ("product_type", JStr "feed")].
Definition image_api_response : jsval := JObj [("items", JArr [image_item])].

(** The image post served on the API-style endpoint, and a page for it
    that carries an og:video meta tag. *)
Definition rt_image_post : Runtime :=
  rt_stub (HttpOk image_api_response) (HttpOk (JStr "<html></html>"))
          (JStr "https://cdn.example/v.mp4").

(** [retries: -1], everything else unset. *)
Definition negative_retries : ScraperConfig :=
  mkScraperConfig None None (Some (-1)) None None None.

(** A page whose JSON-LD block parses to a VideoObject; the API-style
    endpoint is down. *)
Definition video_object : jsval :=
  JObj [("@type", JStr "VideoObject");
        ("contentUrl", JStr "https://cdn/x.mp4");
        ("description", JStr "Hello #world @friend")].

Definition rt_jsonld : Runtime :=
  mkRuntime
    (fun _ req =>
       if Str.includes "?__a=1" (req_url req) then HttpFail timeout_error
       else HttpOk (JStr "<html>"))
    (fun re _ => match re with ReJsonLd => Some "{}" | _ => None end)
    (fun _ => Some video_object)
    unit
    (fun _ => inr tt)
    (fun _ _ _ => JUndefined)
    (fun _ => EmptyString)
    (fun _ => inr "1970-01-01T00:00:00.000Z")
    (fun _ => inr EmptyString).

Definition no_download_options : DownloadOptions := mkDownloadOptions None None None [].

(* ===================================================================== *)
(** * Vocabulary of the statements *)
(* ===================================================================== *)

(** A configuration with every falsy field turned back into an unset one. *)
Definition unset_falsy (c : ScraperConfig) : ScraperConfig :=
  let str f := match f with Some EmptyString => None | _ => f end in
  let num f := match f with Some 0 => None | _ => f end in
  mkScraperConfig (str (userAgent c)) (num (timeout c)) (num (retries c))
                  (num (retryDelay c)) (str (proxy c)) (str (cookies c)).

(** The outcome and the final trace of a run. *)
Definition outcome {A} (r : (thrown + A) * Trace) : thrown + A := fst r.
Definition trace_of {A} (r : (thrown + A) * Trace) : Trace := snd r.

(** The only exception a run of [op] lets through is [final]. *)
Definition only_propagates {A} (final : thrown) (op : M A) (tr : Trace) : Prop :=
  forall e, outcome (op tr) = inl e -> e = final.

(** The operation does not invoke the spy itself. *)
Definition quiet {T} (fn : M T) : Prop :=
  forall tr, count_calls (trace_of (fn tr)) = count_calls tr.

(** The first [k] invocations of [op] fail: whenever fewer than [k]
    invocations precede, [op] throws. *)
Definition fails_first {T} (op : M T) (k : nat) : Prop :=
  forall tr, (count_calls tr < k)%nat -> exists e, outcome (op tr) = inl e.

(** Invocation [k+1] of [op] succeeds with [v]. *)
Definition succeeds_after {T} (op : M T) (k : nat) (v : T) : Prop :=
  forall tr, count_calls tr = k -> outcome (op tr) = inr v.

(** RFC 3986 unreserved characters: they mean themselves in a query. *)
Definition is_unreserved (c : ascii) : bool :=
  (Str.is_alnum c || Ascii.eqb c "-" || Ascii.eqb c "." || Ascii.eqb c "_" || Ascii.eqb c "~")%bool.

(** The requests of the strategies. *)
Definition ig_api_request (ig : InstagramScraper.t) (url : string) : Request :=
  request_of (InstagramScraper.client ig) (url ++ "?__a=1&__d=dis")
             InstagramScraper.api_options.
Definition ig_html_request (ig : InstagramScraper.t) (url : string) : Request :=
  request_of (InstagramScraper.client ig) url no_options.
Definition fb_full_request (fb : FacebookScraper.t) (url : string) : Request :=
  request_of (FacebookScraper.client fb) url (FacebookScraper.full_options fb).
Definition fb_mobile_request (fb : FacebookScraper.t) (url : string) : Request :=
  request_of (FacebookScraper.client fb)
             (Str.replace_first "www.facebook.com" "m.facebook.com" url)
             FacebookScraper.mobile_options.

(** A thrown value that is an [Error] object, not [undefined]. *)
Definition is_error (e : thrown) : Prop := exists err, e = ThrownError err.

(** Whatever [op] throws is an [Error] object. *)
Definition throws_errors {A} (op : M A) : Prop :=
  forall tr e, outcome (op tr) = inl e -> is_error e.

(** The characters other than [c]. *)
Definition neq_char (c : ascii) : ascii -> bool := fun a => negb (Ascii.eqb a c).

(** The value of the [v] query parameter as [normalizeFacebookURL] reads
    it, if the URL parses and has one. *)
Definition v_parameter (url : string) : option string :=
  match WhatwgURL.parse url with
  | Some urlObj => WhatwgURL.searchParams_get urlObj "v"
  | None => None
  end.

(** The [v] parameter, if any, is written with unreserved characters only
    (as are the numeric video ids of Facebook). *)
Definition plain_video_id (url : string) : bool :=
  match v_parameter url with
  | Some videoId => Str.all is_unreserved videoId
  | None => true
  end.

(* ===================================================================== *)
(** * utils.ts: formatDuration *)
(* ===================================================================== *)

(** [n.toString()] for an integer [n >= 0]: its decimal digits, computed
    from the least significant one; [fuel] bounds the number of digits. *)
Definition digit_char (d : Z) : ascii := ascii_of_nat (Z.to_nat d + 48).

Fixpoint decimal_digits (fuel : nat) (n : Z) (acc : string) : string :=
  match fuel with
  | O => acc
  | S fuel' =>
      let acc' := String (digit_char (n mod 10)) acc in
      if n <? 10 then acc' else decimal_digits fuel' (n / 10) acc'
  end.

Definition toString (n : Z) : string :=
  decimal_digits (S (Z.to_nat (Z.log2 n))) n EmptyString.

(** [s.padStart(2, '0')] *)
Definition padStart2 (s : string) : string :=
  match s with
  | EmptyString => "00"
  | String a EmptyString => String "0" s
  | _ => s
  end.

(** [formatDuration], on a whole number of seconds: [Math.floor] of the
    quotient and of the remainder by 60 are the integer quotient and
    remainder. *)
Definition formatDuration (seconds : Z) : string :=
  if ((seconds =? 0) || (seconds <? 0))%bool then "0:00"
  else toString (seconds / 60) ++ ":" ++ padStart2 (toString (seconds mod 60)).

(* ===================================================================== *)
(** * index.ts: convenience functions *)
(* ===================================================================== *)

(** [getMetadata(url, config)], [downloadVideo(url, options, config)] and
    [getVideoURL(url, config)]: each builds a scraper and delegates. *)
Definition getMetadata (rt : Runtime) (url : jsval) (config : ScraperConfig) : M VideoMetadata :=
  SocialMediaScraper.getMetadata rt (SocialMediaScraper.new config) url.

Definition downloadVideo (rt : Runtime) (url : jsval) (options : DownloadOptions)
    (config : ScraperConfig) : M DownloadResult :=
  SocialMediaScraper.download rt (SocialMediaScraper.new config) url options.

Definition getVideoURL (rt : Runtime) (url : jsval) (config : ScraperConfig) : M jsval :=
  SocialMediaScraper.getVideoURL rt (SocialMediaScraper.new config) url.

(* ===================================================================== *)
(** * Vocabulary of the further properties *)
(* ===================================================================== *)

(** The requests and the sleeps of a trace. *)
Definition count_gets (tr : Trace) : nat :=
  List.length (filter (fun ev => match ev with EvGet _ => true | _ => false end) tr).

Definition sleeps (tr : Trace) : list Z :=
  flat_map (fun ev => match ev with EvSleep ms => [ms] | _ => [] end) tr.

(** The operation throws on every run, and never sleeps itself. *)
Definition always_fails {T} (fn : M T) : Prop :=
  forall tr, exists e, outcome (fn tr) = inl e.

Definition never_sleeps {T} (fn : M T) : Prop :=
  forall tr, sleeps (trace_of (fn tr)) = sleeps tr.

(** The exceptions of the two [scrape] functions. *)
Definition instagram_scrape_error (e : thrown) : Prop :=
  e = new_ParseError "Could not extract shortcode from URL" instagram \/
  e = InstagramScraper.extraction_failed \/
  exists msg, e = new_NetworkError ("Failed to fetch HTML: " ++ msg) instagram.

Definition facebook_scrape_error (e : thrown) : Prop :=
  e = new_ParseError "Could not extract video ID from URL" facebook \/
  e = FacebookScraper.extraction_failed.

(** A run of [op] issues at most [c] requests. *)
Definition gets_at_most {A} (c : nat) (op : M A) : Prop :=
  forall tr, (count_gets (trace_of (op tr)) <= count_gets tr + c)%nat.

(** The configured number of attempts, as the loop counts them. *)
Definition attempts (config : ScraperConfig) : nat :=
  Z.to_nat (eff_retries (effective_config config)).

(** The [url], [type] and [platform] fields of a result. *)
Definition metadata_url (m : VideoMetadata) : string :=
  match m with
  | OfInstagram i => ig_url i
  | OfFacebook f => fb_url f
  end.

Definition metadata_type (m : VideoMetadata) : MediaType :=
  match m with
  | OfInstagram i => ig_type i
  | OfFacebook f => fb_type f
  end.

Definition metadata_platform (m : VideoMetadata) : Platform :=
  match m with
  | OfInstagram _ => instagram
  | OfFacebook _ => facebook
  end.

(** What every Instagram strategy puts in [url] and [type]. *)
Definition instagram_result_for (url : string) (m : InstagramMetadata) : Prop :=
  ig_url m = url /\ (ig_type m = video \/ ig_type m = reel).




(* ===================================================================== *)
(** * Sanity checks of the embedding on concrete inputs *)
(* ===================================================================== *)

Example validate_ig :
  validateURL (JStr "https://www.instagram.com/p/ABC123?igshid=xyz")
  = inr (mkClassified instagram "https://www.instagram.com/p/ABC123/").
Proof. reflexivity. Qed.

Example validate_fb :
  validateURL (JStr "https://www.facebook.com/watch/?v=12345&foo=bar")
  = inr (mkClassified facebook "https://www.facebook.com/watch/?v=12345").
Proof. reflexivity. Qed.

Example shortcode_reel :
  extractInstagramShortcode "https://www.instagram.com/reel/Cx9_a-b/?x=1" = Some "Cx9_a-b".
Proof. reflexivity. Qed.

Example video_id_videos :
  extractFacebookVideoId "https://www.facebook.com/page/videos/1/videos/987/" = Some "987".
Proof. reflexivity. Qed.

Example hashtags_spec :
  extractHashtags (JStr "Check #sunset and #beach!") = inr ["sunset"; "beach"].
Proof. reflexivity. Qed.

Example mentions_spec :
  extractMentions (JStr "ping @alice and @bob") = inr ["alice"; "bob"].
Proof. reflexivity. Qed.

(** The two end-to-end scenarios of the specification. *)
Example scenario_jsonld :
  outcome (InstagramScraper.scrape rt_jsonld (InstagramScraper.new empty_config)
             "https://www.instagram.com/p/ABC123/" [])
  = inr (mkInstagramMetadata video "https://www.instagram.com/p/ABC123/"
           (JStr "https://cdn/x.mp4") JUndefined (JStr "unknown") "Hello #world @friend"
           JUndefined (JNum 0) JUndefined JUndefined JUndefined JUndefined
           ["world"] ["friend"] JUndefined).
Proof. reflexivity. Qed.

Example scenario_facebook_no_video_signal :
  outcome (FacebookScraper.scrape
             (rt_stub (HttpFail timeout_error) (HttpOk (JStr "<html></html>")) JUndefined)
             (FacebookScraper.new empty_config)
             "https://www.facebook.com/watch/?v=12345" [])
  = inl FacebookScraper.extraction_failed.
Proof. reflexivity. Qed.

(* ===================================================================== *)
(** * URL classification and normalization *)
(* ===================================================================== *)

(** How [validateURL] classifies a non-empty string, by the three tests it
    makes in order. *)
Lemma validateURL_string (s : string) :
  Str.is_empty s = false ->
  validateURL (JStr s) =
    if Str.includes "instagram.com" (Str.toLowerCase s) then
      inr (mkClassified instagram (normalizeInstagramURL s))
    else if (Str.includes "facebook.com" (Str.toLowerCase s)
             || Str.includes "fb.com" (Str.toLowerCase s)
             || Str.includes "fb.watch" (Str.toLowerCase s))%bool then
      match normalizeFacebookURL s with
      | inl e => inl e
      | inr n => inr (mkClassified facebook n)
      end
    else inl (new_URLError "Unsupported platform. Only Instagram and Facebook are supported").
Proof.
  intros Hne. unfold validateURL. rewrite Hne. reflexivity.
Qed.

(** Everything that is not a non-empty string is refused with a URLError. *)
Lemma validateURL_not_a_string (v : jsval) :
  (forall s, v = JStr s -> s = EmptyString) ->
  validateURL v = inl (new_URLError "URL must be a non-empty string").
Proof.
  intros H. destruct v; try reflexivity.
  rewrite (H s eq_refl). reflexivity.
Qed.

(** A string holding [instagram.com] in any letter case is classified as
    Instagram: that branch cannot throw. *)
Lemma validateURL_instagram (s : string) :
  Str.includes "instagram.com" (Str.toLowerCase s) = true ->
  validateURL (JStr s) = inr (mkClassified instagram (normalizeInstagramURL s)).
Proof.
  intros H. destruct s as [|a s]; [discriminate H|].
  rewrite validateURL_string by reflexivity. rewrite H. reflexivity.
Qed.

(** The exceptions of [validateURL]: its two URLErrors, and the TypeError
    of the [URL] constructor on a string of the Facebook family that has
    no scheme. *)
Lemma validateURL_exceptions (url : jsval) (e : thrown) :
  validateURL url = inl e ->
  e = new_URLError "URL must be a non-empty string" \/
  e = new_URLError "Unsupported platform. Only Instagram and Facebook are supported" \/
  (e = new_TypeError "Invalid URL" /\
   exists s, url = JStr s /\ Str.includes "fb.watch" s = false /\ WhatwgURL.parse s = None).
Proof.
  unfold validateURL. intros H.
  destruct url; try (left; congruence).
  destruct (Str.is_empty s); [left; congruence|].
  destruct (Str.includes "instagram.com" (Str.toLowerCase s)); [discriminate|].
  destruct (_ || _)%bool; [|right; left; congruence].
  unfold normalizeFacebookURL in H.
  destruct (Str.includes "fb.watch" s) eqn:Ew; [discriminate|].
  destruct (WhatwgURL.parse s) as [u|] eqn:Ep.
  - destruct (WhatwgURL.searchParams_get u "v") as [v|]; [|discriminate].
    destruct (negb (Str.is_empty v)); discriminate.
  - right; right. split; [congruence|]. exists s. repeat split; assumption.
Qed.

(** C3, a defect of the code: on a string that names facebook.com but does not parse
    as an absolute URL, [validateURL] neither returns the facebook platform
    nor fails with a URLError: the TypeError of the [URL] constructor
    called by [normalizeFacebookURL] escapes. *)
Theorem validateURL_facebook_without_scheme_throws_TypeError :
  Str.includes "facebook.com" (Str.toLowerCase "facebook.com/video") = true /\
  validateURL (JStr "facebook.com/video") = inl (new_TypeError "Invalid URL") /\
  err_name (mkError TypeError "Invalid URL" None) <> URLError.
Proof.
  split; [reflexivity|]. split; [reflexivity|]. discriminate.
Qed.

(** C8: the two normalizations the specification gives as examples. *)
Theorem normalization_examples :
  validateURL (JStr "https://www.facebook.com/watch/?v=12345&foo=bar")
    = inr (mkClassified facebook "https://www.facebook.com/watch/?v=12345") /\
  normalizeFacebookURL "https://www.facebook.com/watch/?v=12345&foo=bar"
    = inr "https://www.facebook.com/watch/?v=12345" /\
  validateURL (JStr "https://www.instagram.com/p/ABC123?igshid=xyz")
    = inr (mkClassified instagram "https://www.instagram.com/p/ABC123/") /\
  normalizeInstagramURL "https://www.instagram.com/p/ABC123?igshid=xyz"
    = "https://www.instagram.com/p/ABC123/".
Proof. repeat split. Qed.

(** C9: [isSupported] never throws; it answers [true] exactly on the
    inputs [validateURL] accepts and [false] exactly on those it refuses,
    whatever the class of the exception. *)
Theorem isSupported_iff_validateURL_succeeds (url : jsval) :
  (exists b, SocialMediaScraper.isSupported url = inr b) /\
  (SocialMediaScraper.isSupported url = inr true <-> exists c, validateURL url = inr c) /\
  (SocialMediaScraper.isSupported url = inr false <-> exists e, validateURL url = inl e).
Proof.
  unfold SocialMediaScraper.isSupported, bind_sum.
  destruct (validateURL url) as [e|c].
  - split; [exists false; reflexivity|]. split; split.
    + discriminate.
    + intros [c Hc]. discriminate Hc.
    + intros _. exists e. reflexivity.
    + reflexivity.
  - split; [exists true; reflexivity|]. split; split.
    + intros _. exists c. reflexivity.
    + reflexivity.
    + discriminate.
    + intros [e He]. discriminate He.
Qed.

(** The refusal covers exceptions that are not URLErrors. *)
Example isSupported_false_on_TypeError :
  SocialMediaScraper.isSupported (JStr "facebook.com/video") = inr false.
Proof. reflexivity. Qed.

(* ===================================================================== *)
(** * Scraper configuration *)
(* ===================================================================== *)

Lemma or_number_unset (f : option Z) (d : Z) :
  or_number (match f with Some 0 => None | _ => f end) d = or_number f d.
Proof. destruct f as [[| |]|]; reflexivity. Qed.

Lemma or_string_unset (f : option string) (d : string) :
  or_string (match f with Some EmptyString => None | _ => f end) d = or_string f d.
Proof. destruct f as [[|]|]; reflexivity. Qed.

Lemma or_number_nonzero (f : option Z) (d : Z) : d <> 0 -> or_number f d <> 0.
Proof.
  intros Hd. destruct f as [n|]; simpl; [|exact Hd].
  destruct (Z.eqb_spec n 0); assumption.
Qed.

Lemma effective_config_unset_falsy (c : ScraperConfig) :
  effective_config (unset_falsy c) = effective_config c.
Proof.
  unfold effective_config, unset_falsy; simpl.
  now rewrite !or_number_unset, !or_string_unset.
Qed.

(** C10: both constructors treat a field set to a falsy value (0, the
    empty string) exactly as an unset field, so it takes the built-in
    default: [retries: 0] gives 3 retries and [timeout: 0] gives 10000 ms,
    and no configuration yields zero retries or a zero timeout. *)
Theorem falsy_config_fields_take_defaults (c : ScraperConfig) :
  InstagramScraper.new c = InstagramScraper.new (unset_falsy c) /\
  FacebookScraper.new c = FacebookScraper.new (unset_falsy c) /\
  effective_config (mkScraperConfig (Some "") (Some 0) (Some 0) (Some 0) (Some "") (Some ""))
    = effective_config empty_config /\
  eff_retries (InstagramScraper.config
                 (InstagramScraper.new (mkScraperConfig None None (Some 0) None None None))) = 3 /\
  eff_timeout (FacebookScraper.config
                 (FacebookScraper.new (mkScraperConfig None (Some 0) None None None None))) = 10000 /\
  eff_retries (InstagramScraper.config (InstagramScraper.new c)) <> 0 /\
  eff_timeout (InstagramScraper.config (InstagramScraper.new c)) <> 0 /\
  eff_retries (FacebookScraper.config (FacebookScraper.new c)) <> 0 /\
  eff_timeout (FacebookScraper.config (FacebookScraper.new c)) <> 0.
Proof.
  unfold InstagramScraper.new, FacebookScraper.new.
  rewrite effective_config_unset_falsy.
  repeat split; simpl; apply or_number_nonzero; discriminate.
Qed.

(* ===================================================================== *)
(** * Identifier extraction precedes every request *)
(* ===================================================================== *)

Section MatchersKeep.
Variable Q : string -> Prop.

Lemma re_search_keeps (at_start : string -> option string) :
  (forall s r, at_start s = Some r -> Q r) ->
  forall s r, re_search at_start s = Some r -> Q r.
Proof.
  intros Hm. induction s as [|a s IH]; simpl; intros r.
  - destruct (at_start EmptyString) eqn:E; [|discriminate].
    intros H. inversion H. subst. now apply (Hm EmptyString).
  - destruct (at_start (String a s)) eqn:E.
    + intros H. inversion H. subst. now apply (Hm (String a s)).
    + apply IH.
Qed.

Lemma dot_star_then_keeps (k : string -> option string) :
  (forall s r, k s = Some r -> Q r) ->
  forall s r, dot_star_then k s = Some r -> Q r.
Proof.
  intros Hk. induction s as [|a s IH]; simpl; intros r; [apply Hk|].
  destruct (is_line_terminator a); [apply Hk|].
  destruct (dot_star_then k s) eqn:E.
  - intros H. inversion H. subst. now apply IH.
  - apply Hk.
Qed.

Lemma first_match_keeps (patterns : list (string -> option string)) :
  Forall (fun p => forall s r, p s = Some r -> Q r) patterns ->
  forall s r, first_match patterns s = Some r -> Q r.
Proof.
  induction 1 as [|p rest Hp _ IH]; simpl; intros s r; [discriminate|].
  destruct (p s) eqn:E.
  - intros H. inversion H. subst. now apply (Hp s).
  - apply IH.
Qed.

End MatchersKeep.

Lemma lit_then_run_nonempty (lit : string) (cls : ascii -> bool) (s r : string) :
  lit_then_run lit cls s = Some r -> r <> EmptyString.
Proof.
  unfold lit_then_run. destruct (Str.startsWith lit s); [|discriminate].
  destruct (fst _); simpl; [discriminate|]. intros H. inversion H. discriminate.
Qed.

(** An extracted identifier is never the empty string, so the guards
    [!shortcode] and [!videoId] fire exactly when no pattern matched. *)
Lemma extracted_identifier_nonempty (url : string) :
  extractInstagramShortcode url <> Some EmptyString /\
  extractFacebookVideoId url <> Some EmptyString.
Proof.
  split; intros H.
  - revert H. unfold extractInstagramShortcode.
    intros H. apply (first_match_keeps (fun r => r <> EmptyString)) in H; [now apply H|].
    repeat constructor; apply (re_search_keeps (fun r => r <> EmptyString));
      apply lit_then_run_nonempty.
  - revert H. unfold extractFacebookVideoId.
    intros H. apply (first_match_keeps (fun r => r <> EmptyString)) in H; [now apply H|].
    repeat constructor; apply (re_search_keeps (fun r => r <> EmptyString)).
    + intros s r. unfold fb_watch_at. destruct (Str.startsWith _ s); [|discriminate].
      destruct (lit_then_run "/?v=" Str.is_digit _) eqn:E.
      * intros H1. inversion H1. subst. exact (lit_then_run_nonempty _ _ _ _ E).
      * apply lit_then_run_nonempty.
    + intros s r. unfold fb_videos_at. destruct (Str.startsWith _ s); [|discriminate].
      apply (dot_star_then_keeps (fun r => r <> EmptyString)). apply lit_then_run_nonempty.
    + apply lit_then_run_nonempty.
    + apply lit_then_run_nonempty.
Qed.

(** C6: when no pattern extracts an identifier from the URL, [scrape]
    throws its ParseError with the trace untouched: no request was issued,
    no sleep elapsed, and [retry] was not entered (the outcome does not
    depend on the configured number of retries). *)
Theorem scrape_without_identifier_fails_first
    (rt : Runtime) (ig : InstagramScraper.t) (fb : FacebookScraper.t)
    (url : string) (tr : Trace) :
  (extractInstagramShortcode url = None ->
   InstagramScraper.scrape rt ig url tr
   = (inl (new_ParseError "Could not extract shortcode from URL" instagram), tr)) /\
  (extractFacebookVideoId url = None ->
   FacebookScraper.scrape rt fb url tr
   = (inl (new_ParseError "Could not extract video ID from URL" facebook), tr)).
Proof.
  split; intros H.
  - unfold InstagramScraper.scrape. rewrite H. reflexivity.
  - unfold FacebookScraper.scrape. rewrite H. reflexivity.
Qed.

Lemma scrape_without_identifier_fails_first_witness :
  InstagramScraper.scrape rt_down (InstagramScraper.new empty_config)
    "https://www.instagram.com/stories/someone/" []
  = (inl (new_ParseError "Could not extract shortcode from URL" instagram), []) /\
  FacebookScraper.scrape rt_down (FacebookScraper.new empty_config)
    "https://www.facebook.com/somepage/" []
  = (inl (new_ParseError "Could not extract video ID from URL" facebook), []).
Proof.
  split.
  - apply (proj1 (scrape_without_identifier_fails_first rt_down
                    (InstagramScraper.new empty_config) (FacebookScraper.new empty_config)
                    "https://www.instagram.com/stories/someone/" [])).
    reflexivity.
  - apply (proj2 (scrape_without_identifier_fails_first rt_down
                    (InstagramScraper.new empty_config) (FacebookScraper.new empty_config)
                    "https://www.facebook.com/somepage/" [])).
    reflexivity.
Defined.

(* ===================================================================== *)
(** * The retry executor *)
(* ===================================================================== *)

Local Open Scope list_scope.

Lemma count_calls_call (tr : Trace) :
  count_calls (tr ++ [EvCall]) = S (count_calls tr).
Proof.
  unfold count_calls. rewrite filter_app, length_app. simpl. lia.
Qed.

Lemma count_calls_sleep (tr : Trace) (ms : Z) :
  count_calls (tr ++ [EvSleep ms]) = count_calls tr.
Proof.
  unfold count_calls. rewrite filter_app, length_app. simpl. lia.
Qed.

Lemma spy_run {T} (fn : M T) (tr : Trace) : spy fn tr = fn (tr ++ [EvCall]).
Proof. reflexivity. Qed.

Lemma spy_counts {T} (fn : M T) (tr : Trace) :
  quiet fn -> count_calls (trace_of (spy fn tr)) = S (count_calls tr).
Proof.
  intros Hq. rewrite spy_run, Hq. apply count_calls_call.
Qed.

Section RetryFacts.
Context {T : Type}.
Variable fn : M T.
Variables retries delay : Z.
Hypothesis fn_quiet : quiet fn.

(** One failing iteration of the loop: the failure becomes [lastError];
    the back-off sleep happens unless this is the last attempt. *)
Lemma retry_loop_step (n : nat) (i : Z) (lastError e : thrown) (tr tr1 : Trace) :
  spy fn tr = (inl e, tr1) ->
  exists tr',
    retry_loop (spy fn) retries delay (S n) i lastError tr
    = retry_loop (spy fn) retries delay n (i + 1) e tr' /\
    count_calls tr' = S (count_calls tr) /\
    (i = retries - 1 -> tr' = tr1).
Proof.
  intros Hrun.
  assert (Hc : count_calls tr1 = S (count_calls tr)).
  { pose proof (spy_counts fn tr fn_quiet) as H. rewrite Hrun in H. exact H. }
  change (retry_loop (spy fn) retries delay (S n) i lastError tr)
    with (try_catch (spy fn)
            (fun error =>
               (if i <? retries - 1 then sleep (delay * (i + 1)) else ret tt) ;;;
               retry_loop (spy fn) retries delay n (i + 1) error) tr).
  unfold try_catch. rewrite Hrun. unfold bind.
  destruct (Z.ltb_spec i (retries - 1)).
  - exists (tr1 ++ [EvSleep (delay * (i + 1))]). split; [reflexivity|]. split.
    + now rewrite count_calls_sleep.
    + lia.
  - exists tr1. split; [reflexivity|]. split; [exact Hc|reflexivity].
Qed.

(** With [n] iterations left and only failures ahead, the loop throws.
    With no iteration left it throws the incoming [lastError] at once;
    otherwise its whole result, exception and trace, is the result of the
    last invocation. *)
Lemma retry_loop_exhausted (n : nat) :
  forall (i : Z) (lastError : thrown) (tr : Trace),
    fails_first (spy fn) (count_calls tr + n) ->
    (n <> O -> i + Z.of_nat n = retries) ->
    exists e tr',
      retry_loop (spy fn) retries delay n i lastError tr = (inl e, tr') /\
      count_calls tr' = (count_calls tr + n)%nat /\
      (n = O -> e = lastError /\ tr' = tr) /\
      (n <> O -> exists tr_last,
                   count_calls tr_last = (count_calls tr + n - 1)%nat /\
                   spy fn tr_last = (inl e, tr')).
Proof.
  induction n as [|n IH]; intros i lastError tr Hfail Hidx.
  - exists lastError, tr. simpl. split; [reflexivity|]. split; [lia|].
    split; [split; reflexivity|]. intros H. now elim H.
  - destruct (Hfail tr) as [e He]; [lia|].
    destruct (spy fn tr) as [r tr1] eqn:Hrun. unfold outcome in He. simpl in He. subst r.
    destruct (retry_loop_step n i lastError e tr tr1 Hrun) as (tr2 & Hstep & Hc2 & Hlast).
    destruct (IH (i + 1) e tr2) as (e' & tr' & Hloop & Hc' & Hzero & Hmore).
    { intros t Ht. apply Hfail. lia. }
    { intros Hn. specialize (Hidx ltac:(discriminate)). lia. }
    exists e', tr'. rewrite Hstep, Hloop. split; [reflexivity|]. split; [lia|].
    split; [discriminate|]. intros _.
    destruct n as [|m].
    + destruct (Hzero eq_refl) as [-> ->].
      exists tr. split; [lia|].
      rewrite Hrun. f_equal. symmetry. apply Hlast.
      specialize (Hidx ltac:(discriminate)). lia.
    + destruct (Hmore ltac:(discriminate)) as (tr_last & Hcl & Hl).
      exists tr_last. split; [lia|exact Hl].
Qed.

(** With more iterations left than failures ahead, the loop returns the
    first success and stops invoking. *)
Lemma retry_loop_succeeds (v : T) (k : nat) :
  forall (n : nat) (i : Z) (lastError : thrown) (tr : Trace),
    (k < n)%nat ->
    fails_first (spy fn) (count_calls tr + k) ->
    succeeds_after (spy fn) (count_calls tr + k) v ->
    exists tr',
      retry_loop (spy fn) retries delay n i lastError tr = (inr v, tr') /\
      count_calls tr' = (count_calls tr + k + 1)%nat.
Proof.
  induction k as [|k IH]; intros n i lastError tr Hlt Hfail Hok.
  - destruct n as [|n]; [lia|].
    specialize (Hok tr ltac:(lia)).
    pose proof (spy_counts fn tr fn_quiet) as Hc.
    destruct (spy fn tr) as [r tr1] eqn:Hrun. unfold outcome in Hok. simpl in Hok. subst r.
    exists tr1. simpl. unfold try_catch. rewrite Hrun.
    split; [reflexivity|]. simpl in Hc. lia.
  - destruct n as [|n]; [lia|].
    destruct (Hfail tr) as [e He]; [lia|].
    destruct (spy fn tr) as [r tr1] eqn:Hrun. unfold outcome in He. simpl in He. subst r.
    destruct (retry_loop_step n i lastError e tr tr1 Hrun) as (tr2 & Hstep & Hc2 & _).
    destruct (IH n (i + 1) e tr2) as (tr' & Hloop & Hc').
    + lia.
    + intros t Ht. apply Hfail. lia.
    + intros t Ht. apply Hok. lia.
    + exists tr'. rewrite Hstep, Hloop. split; [reflexivity|]. lia.
Qed.

End RetryFacts.

(** With [maxAttempts <= 0] the loop body never runs, whatever the
    operation: [retry] throws [undefined] and leaves no trace. *)
Lemma retry_without_attempts {T} (fn : M T) (maxAttempts baseDelay : Z) (tr : Trace) :
  maxAttempts <= 0 -> retry fn maxAttempts baseDelay tr = (inl ThrownUndefined, tr).
Proof.
  intros H. unfold retry.
  replace (Z.to_nat maxAttempts) with O by lia. reflexivity.
Qed.

(** C2: for every operation [fn], observed through a spy that counts its
    invocations, and every [maxAttempts]: let the first [k] invocations
    fail.  If invocation [k+1] succeeds with [v] and [maxAttempts > k],
    [retry] returns [v] after exactly [k+1] invocations.  If
    [0 <= maxAttempts <= k], [retry] throws after exactly [maxAttempts]
    invocations; for [maxAttempts >= 1] the result of [retry] is the
    result of the last invocation itself, its exception unchanged; for
    [maxAttempts = 0] there is no invocation and the thrown value is the
    unassigned [lastError]. *)
Theorem retry_counts_and_outcome {T} (fn : M T) (k : nat) (maxAttempts baseDelay : Z)
    (Hquiet : quiet fn)
    (Hfail : fails_first (spy fn) k) :
  (forall v, succeeds_after (spy fn) k v -> Z.of_nat k < maxAttempts ->
     outcome (retry (spy fn) maxAttempts baseDelay []) = inr v /\
     count_calls (trace_of (retry (spy fn) maxAttempts baseDelay [])) = (k + 1)%nat) /\
  (0 <= maxAttempts <= Z.of_nat k ->
     count_calls (trace_of (retry (spy fn) maxAttempts baseDelay [])) = Z.to_nat maxAttempts /\
     (exists e, outcome (retry (spy fn) maxAttempts baseDelay []) = inl e) /\
     (0 < maxAttempts ->
        exists tr_last,
          count_calls tr_last = (Z.to_nat maxAttempts - 1)%nat /\
          (exists e, outcome (spy fn tr_last) = inl e) /\
          retry (spy fn) maxAttempts baseDelay [] = spy fn tr_last) /\
     (maxAttempts = 0 ->
        retry (spy fn) maxAttempts baseDelay [] = (inl ThrownUndefined, []))).
Proof.
  unfold retry. split.
  - intros v Hok Hlt.
    destruct (retry_loop_succeeds fn maxAttempts baseDelay Hquiet v k
                (Z.to_nat maxAttempts) 0 ThrownUndefined []) as (tr' & Hrun & Hc).
    + lia.
    + exact Hfail.
    + exact Hok.
    + rewrite Hrun. unfold outcome, trace_of. simpl in *. split; [reflexivity|exact Hc].
  - intros Hrange.
    destruct (retry_loop_exhausted fn maxAttempts baseDelay Hquiet (Z.to_nat maxAttempts)
                0 ThrownUndefined []) as (e & tr' & Hrun & Hc & Hzero & Hmore).
    { intros t Ht. apply Hfail. simpl in Ht. lia. }
    { intros _. lia. }
    rewrite Hrun. unfold outcome, trace_of. simpl in *.
    split; [exact Hc|]. split; [exists e; reflexivity|]. split.
    + intros Hpos. destruct Hmore as (tr_last & Hcl & Hl); [lia|].
      exists tr_last. split; [exact Hcl|]. split.
      * exists e. now rewrite Hl.
      * now rewrite Hl.
    + intros H0. destruct Hzero as [-> ->]; [lia|]. reflexivity.
Qed.

Lemma retry_counts_and_outcome_witness :
  (outcome (retry (spy (scripted (fun j => if Nat.ltb j 2
                                           then inl (new_NetworkError "down" instagram)
                                           else inr 7))) 3 1000 []) = inr 7 /\
   count_calls (trace_of (retry (spy (scripted (fun j => if Nat.ltb j 2
                                                         then inl (new_NetworkError "down" instagram)
                                                         else inr 7))) 3 1000 [])) = 3%nat) /\
  count_calls (trace_of (retry (spy (scripted (fun j => if Nat.ltb j 2
                                                        then inl (new_NetworkError "down" instagram)
                                                        else inr 7))) 2 1000 [])) = 2%nat.
Proof.
  pose (script := fun j : nat => if Nat.ltb j 2 then inl (new_NetworkError "down" instagram)
                                 else @inr thrown Z 7).
  assert (Hquiet : quiet (scripted script)) by (intros tr; reflexivity).
  assert (Hfail : fails_first (spy (scripted script)) 2).
  { intros tr Hlt. exists (new_NetworkError "down" instagram).
    rewrite spy_run. unfold outcome, scripted. simpl. rewrite count_calls_call.
    unfold script. replace (S (count_calls tr) - 1)%nat with (count_calls tr) by lia.
    destruct (Nat.ltb_spec (count_calls tr) 2); [reflexivity|lia]. }
  assert (Hok : succeeds_after (spy (scripted script)) 2 7).
  { intros tr Hc. rewrite spy_run. unfold outcome, scripted. simpl.
    rewrite count_calls_call, Hc. reflexivity. }
  split.
  - apply (proj1 (retry_counts_and_outcome (scripted script) 2 3 1000 Hquiet Hfail) 7 Hok). lia.
  - apply (proj2 (retry_counts_and_outcome (scripted script) 2 2 1000 Hquiet Hfail)). lia.
Defined.

(** The run of [retry] on an operation that fails twice and then
    succeeds, and on one that always fails: invocations and sleeps in
    order.  The sleeps grow linearly, and none follows the last attempt. *)
Example retry_trace_success :
  retry (spy (scripted (fun j => if Nat.ltb j 2 then inl (new_NetworkError "down" instagram)
                                 else inr 7))) 3 1000 []
  = (inr 7, [EvCall; EvSleep 1000; EvCall; EvSleep 2000; EvCall]).
Proof. reflexivity. Qed.

Example retry_trace_exhausted :
  retry (spy (scripted (fun _ => inl (new_NetworkError "down" instagram) : thrown + Z))) 3 1000 []
  = (inl (new_NetworkError "down" instagram),
     [EvCall; EvSleep 1000; EvCall; EvSleep 2000; EvCall]).
Proof. reflexivity. Qed.

Example retry_zero_attempts :
  retry (spy (scripted (fun _ => inr 7 : thrown + Z))) 0 1000 [] = (inl ThrownUndefined, []).
Proof. reflexivity. Qed.

(* ===================================================================== *)
(** * Strategy chains *)
(* ===================================================================== *)

Section Chains.
Variable rt : Runtime.
Variable ig : InstagramScraper.t.
Variable fb : FacebookScraper.t.

Local Abbreviation api_request := (ig_api_request ig).
Local Abbreviation html_request := (ig_html_request ig).
Local Abbreviation full_request := (fb_full_request fb).
Local Abbreviation mobile_request := (fb_mobile_request fb).

Lemma client_get_run (c : Client) (url : string) (o : RequestOptions) (tr : Trace) :
  client_get rt c url o tr
  = (match net rt tr (request_of c url o) with
     | HttpFail e => inl (ThrownError e)
     | HttpOk data => inr data
     end, tr ++ [EvGet (request_of c url o)]).
Proof.
  unfold client_get. destruct (net rt tr (request_of c url o)); reflexivity.
Qed.

(** The API strategy issues its request and never throws. *)
Lemma ig_scrapeWithAPI_never_throws (url : string) (tr : Trace) :
  exists r, InstagramScraper.scrapeWithAPI rt ig url tr
            = (inr r, tr ++ [EvGet (api_request url)]).
Proof.
  unfold InstagramScraper.scrapeWithAPI, try_catch, bind.
  rewrite client_get_run. fold (api_request url).
  destruct (net rt tr (api_request url)) as [e|data].
  - exists None. reflexivity.
  - destruct (Js.truthy (Js.oidx0 (Js.oget data "items"))).
    + unfold bind, lift.
      destruct (InstagramScraper.parseAPIResponse rt _ url) as [e|m];
        [exists None|exists (Some m)]; reflexivity.
    + destruct (Js.truthy (Js.oget (Js.oget data "graphql") "shortcode_media")).
      * unfold bind, lift.
        destruct (InstagramScraper.parseGraphQLResponse rt _ url) as [e|m];
          [exists None|exists (Some m)]; reflexivity.
      * exists None. reflexivity.
Qed.

Lemma ig_scrapeWithAPI_transport_failure (url : string) (tr : Trace) (e : Error) :
  net rt tr (api_request url) = HttpFail e ->
  InstagramScraper.scrapeWithAPI rt ig url tr = (inr None, tr ++ [EvGet (api_request url)]).
Proof.
  intros H. unfold InstagramScraper.scrapeWithAPI, try_catch, bind.
  rewrite client_get_run. fold (api_request url). rewrite H. reflexivity.
Qed.

(** The HTML strategy: a failed fetch is rethrown as a NetworkError. *)
Lemma ig_scrapeWithHTML_run (url : string) (tr : Trace) :
  InstagramScraper.scrapeWithHTML rt ig url tr
  = (match net rt tr (html_request url) with
     | HttpFail e =>
         inl (new_NetworkError ("Failed to fetch HTML: " ++ err_message e)%string instagram)
     | HttpOk html => inr (InstagramScraper.probe_page rt html url)
     end, tr ++ [EvGet (html_request url)]).
Proof.
  unfold InstagramScraper.scrapeWithHTML, try_catch, bind.
  rewrite client_get_run. fold (html_request url).
  destruct (net rt tr (html_request url)); reflexivity.
Qed.

(** A Facebook page strategy issues its request and never throws. *)
Lemma fb_scrapeWithHTML_never_throws (url : string) (tr : Trace) :
  exists r, FacebookScraper.scrapeWithHTML rt fb url tr
            = (inr r, tr ++ [EvGet (full_request url)]).
Proof.
  unfold FacebookScraper.scrapeWithHTML, try_catch, bind.
  rewrite client_get_run. fold (full_request url).
  destruct (net rt tr (full_request url)) as [e|html].
  - exists None. reflexivity.
  - unfold lift. destruct (FacebookScraper.page_metadata rt html url) as [e|r];
      [exists None|exists r]; reflexivity.
Qed.

Lemma fb_scrapeWithMobileSite_never_throws (url : string) (tr : Trace) :
  exists r, FacebookScraper.scrapeWithMobileSite rt fb url tr
            = (inr r, tr ++ [EvGet (mobile_request url)]).
Proof.
  unfold FacebookScraper.scrapeWithMobileSite, try_catch, bind.
  rewrite client_get_run. fold (mobile_request url).
  destruct (net rt tr (mobile_request url)) as [e|html].
  - exists None. reflexivity.
  - unfold lift. destruct (FacebookScraper.page_metadata rt html url) as [e|r];
      [exists None|exists r]; reflexivity.
Qed.

Lemma fb_scrapeWithHTML_transport_failure (url : string) (tr : Trace) (e : Error) :
  net rt tr (full_request url) = HttpFail e ->
  FacebookScraper.scrapeWithHTML rt fb url tr = (inr None, tr ++ [EvGet (full_request url)]).
Proof.
  intros H. unfold FacebookScraper.scrapeWithHTML, try_catch, bind.
  rewrite client_get_run. fold (full_request url). rewrite H. reflexivity.
Qed.

Lemma fb_scrapeWithMobileSite_transport_failure (url : string) (tr : Trace) (e : Error) :
  net rt tr (mobile_request url) = HttpFail e ->
  FacebookScraper.scrapeWithMobileSite rt fb url tr
  = (inr None, tr ++ [EvGet (mobile_request url)]).
Proof.
  intros H. unfold FacebookScraper.scrapeWithMobileSite, try_catch, bind.
  rewrite client_get_run. fold (mobile_request url). rewrite H. reflexivity.
Qed.

(** The Facebook chain lets one exception through: no strategy worked. *)
Lemma fb_try_all_only_extraction_failed (url videoId : string) (tr : Trace) :
  only_propagates FacebookScraper.extraction_failed
                  (FacebookScraper.try_all rt fb url videoId) tr.
Proof.
  intros e. unfold outcome, FacebookScraper.try_all, bind.
  destruct (fb_scrapeWithHTML_never_throws url tr) as [r1 H1]. rewrite H1.
  destruct r1 as [m|]; [discriminate|].
  destruct (fb_scrapeWithMobileSite_never_throws url (tr ++ [EvGet (full_request url)]))
    as [r2 H2]. rewrite H2.
  destruct r2 as [m|]; [discriminate|].
  simpl. congruence.
Qed.

(** The outcome of the Instagram chain after its API strategy gave no
    result: that of the HTML strategy. *)
Lemma ig_try_all_after_api (url : string) (tr : Trace) :
  InstagramScraper.scrapeWithAPI rt ig url tr = (inr None, tr ++ [EvGet (api_request url)]) ->
  InstagramScraper.try_all rt ig url tr
  = (match net rt (tr ++ [EvGet (api_request url)]) (html_request url) with
     | HttpFail e =>
         inl (new_NetworkError ("Failed to fetch HTML: " ++ err_message e)%string instagram)
     | HttpOk html =>
         match InstagramScraper.probe_page rt html url with
         | Some m => inr m
         | None => inl InstagramScraper.extraction_failed
         end
     end, tr ++ [EvGet (api_request url); EvGet (html_request url)]).
Proof.
  intros H. unfold InstagramScraper.try_all, bind. rewrite H.
  rewrite ig_scrapeWithHTML_run. rewrite <- app_assoc. simpl.
  destruct (net rt (tr ++ [EvGet (api_request url)]) (html_request url)) as [e|html].
  - reflexivity.
  - destruct (InstagramScraper.probe_page rt html url); reflexivity.
Qed.

(** C1 (amended): in the Facebook chain a transport failure ends only
    the strategy it occurs in: the full-site and the mobile-site strategy
    never throw, after a failed full-site request the mobile-site request
    is issued, and the one exception the chain lets through to [retry] is
    the ParseError of "no strategy worked".  In the Instagram chain the API
    strategy never throws and a transport failure in it is followed by the
    page request; the page request serves the JSON-LD, script and meta-tag
    probes together, and its transport failure reaches [retry] as a
    NetworkError; with the page fetched and no probe successful the chain
    throws the ParseError. *)
Theorem chain_transport_failures (url videoId : string) (tr : Trace) :
  (* Facebook *)
  only_propagates FacebookScraper.extraction_failed
                  (FacebookScraper.try_all rt fb url videoId) tr /\
  (forall e, net rt tr (full_request url) = HttpFail e ->
     FacebookScraper.scrapeWithHTML rt fb url tr = (inr None, tr ++ [EvGet (full_request url)]) /\
     trace_of (FacebookScraper.try_all rt fb url videoId tr)
     = tr ++ [EvGet (full_request url); EvGet (mobile_request url)] /\
     (forall e', net rt (tr ++ [EvGet (full_request url)]) (mobile_request url) = HttpFail e' ->
        outcome (FacebookScraper.try_all rt fb url videoId tr)
        = inl FacebookScraper.extraction_failed)) /\
  (* Instagram *)
  (exists r, InstagramScraper.scrapeWithAPI rt ig url tr
             = (inr r, tr ++ [EvGet (api_request url)])) /\
  (forall e, net rt tr (api_request url) = HttpFail e ->
     InstagramScraper.try_all rt ig url tr
     = (match net rt (tr ++ [EvGet (api_request url)]) (html_request url) with
        | HttpFail e' =>
            inl (new_NetworkError ("Failed to fetch HTML: " ++ err_message e')%string instagram)
        | HttpOk html =>
            match InstagramScraper.probe_page rt html url with
            | Some m => inr m
            | None => inl InstagramScraper.extraction_failed
            end
        end, tr ++ [EvGet (api_request url); EvGet (html_request url)])) /\
  (forall e, outcome (InstagramScraper.try_all rt ig url tr) = inl e ->
     e = InstagramScraper.extraction_failed \/
     exists e', net rt (tr ++ [EvGet (api_request url)]) (html_request url) = HttpFail e' /\
                e = new_NetworkError ("Failed to fetch HTML: " ++ err_message e')%string instagram).
Proof.
  split; [apply fb_try_all_only_extraction_failed|].
  split.
  { intros e He.
    pose proof (fb_scrapeWithHTML_transport_failure url tr e He) as H1.
    split; [exact H1|].
    destruct (fb_scrapeWithMobileSite_never_throws url (tr ++ [EvGet (full_request url)]))
      as [r2 H2].
    split.
    - unfold trace_of, FacebookScraper.try_all, bind. rewrite H1, H2.
      rewrite <- app_assoc. destruct r2; reflexivity.
    - intros e' He'.
      unfold outcome, FacebookScraper.try_all, bind. rewrite H1.
      rewrite (fb_scrapeWithMobileSite_transport_failure url _ e' He'). reflexivity. }
  split; [apply ig_scrapeWithAPI_never_throws|].
  split.
  { intros e He. apply ig_try_all_after_api.
    exact (ig_scrapeWithAPI_transport_failure url tr e He). }
  intros e.
  destruct (ig_scrapeWithAPI_never_throws url tr) as [r1 H1].
  destruct r1 as [m|].
  - unfold outcome, InstagramScraper.try_all, bind. rewrite H1. discriminate.
  - rewrite (ig_try_all_after_api url tr H1). unfold outcome. simpl.
    destruct (net rt (tr ++ [EvGet (api_request url)]) (html_request url)) as [e'|html].
    + intros H. right. exists e'. split; [reflexivity|congruence].
    + destruct (InstagramScraper.probe_page rt html url); [discriminate|].
      intros H. left. congruence.
Qed.

End Chains.

Lemma chain_transport_failures_witness :
  trace_of (FacebookScraper.try_all rt_down (FacebookScraper.new empty_config)
              "https://www.facebook.com/watch/?v=12345" "12345" [])
  = [ EvGet (fb_full_request (FacebookScraper.new empty_config)
                             "https://www.facebook.com/watch/?v=12345");
      EvGet (fb_mobile_request (FacebookScraper.new empty_config)
                               "https://www.facebook.com/watch/?v=12345") ] /\
  outcome (FacebookScraper.try_all rt_down (FacebookScraper.new empty_config)
             "https://www.facebook.com/watch/?v=12345" "12345" [])
  = inl FacebookScraper.extraction_failed.
Proof.
  destruct (chain_transport_failures rt_down (InstagramScraper.new empty_config)
              (FacebookScraper.new empty_config)
              "https://www.facebook.com/watch/?v=12345" "12345" [])
    as (_ & Hfb & _).
  destruct (Hfb timeout_error eq_refl) as (_ & Htrace & Hout).
  split; [exact Htrace|exact (Hout timeout_error eq_refl)].
Defined.

(** C1 (as stated, refuted): with the network down, the Instagram chain
    does not end in the ParseError of "no strategy worked": the transport
    failure of its page request reaches the retry wrapper as a
    NetworkError. *)
Lemma instagram_chain_propagates_transport_failure :
  InstagramScraper.try_all rt_down (InstagramScraper.new empty_config)
    "https://www.instagram.com/p/ABC123/" []
  = (inl (new_NetworkError "Failed to fetch HTML: timeout of 10000ms exceeded" instagram),
     [ EvGet (ig_api_request (InstagramScraper.new empty_config)
                             "https://www.instagram.com/p/ABC123/");
       EvGet (ig_html_request (InstagramScraper.new empty_config)
                              "https://www.instagram.com/p/ABC123/") ]) /\
  ~ only_propagates InstagramScraper.extraction_failed
      (InstagramScraper.try_all rt_down (InstagramScraper.new empty_config)
         "https://www.instagram.com/p/ABC123/") [].
Proof.
  split; [reflexivity|].
  intros H.
  specialize (H (new_NetworkError "Failed to fetch HTML: timeout of 10000ms exceeded" instagram)
                eq_refl).
  discriminate H.
Qed.

(** The API strategy's [catch] swallows the ParseError that
    [parseAPIResponse] throws for a post that is not a video. *)
Lemma ig_scrapeWithAPI_swallows_not_a_video
    (rt : Runtime) (ig : InstagramScraper.t) (url : string) (tr : Trace) (data : jsval) :
  net rt tr (ig_api_request ig url) = HttpOk data ->
  Js.truthy (Js.oidx0 (Js.oget data "items")) = true ->
  Js.seq_num (Js.oget (Js.oidx0 (Js.oget data "items")) "media_type") 2 = false ->
  Js.seq_str (Js.oget (Js.oidx0 (Js.oget data "items")) "product_type") "clips" = false ->
  InstagramScraper.parseAPIResponse rt (Js.oidx0 (Js.oget data "items")) url
    = inl InstagramScraper.not_a_video /\
  InstagramScraper.scrapeWithAPI rt ig url tr = (inr None, tr ++ [EvGet (ig_api_request ig url)]).
Proof.
  intros Hnet Hitem Hmt Hpt.
  assert (Hparse : InstagramScraper.parseAPIResponse rt (Js.oidx0 (Js.oget data "items")) url
                   = inl InstagramScraper.not_a_video).
  { unfold InstagramScraper.parseAPIResponse. rewrite Hmt, Hpt. reflexivity. }
  split; [exact Hparse|].
  unfold InstagramScraper.scrapeWithAPI, try_catch, bind.
  rewrite client_get_run. fold (ig_api_request ig url). rewrite Hnet, Hitem.
  unfold bind, lift. rewrite Hparse. reflexivity.
Qed.

(** C4, a defect of the code: the API-style endpoint reports an image post
    ([media_type] 1, [product_type] feed).  [parseAPIResponse] throws the
    not-a-video ParseError, but it does so inside the [try] of
    [scrapeWithAPI], whose [catch] turns it into "no result"; the chain
    goes on to the page strategy, and [scrape] returns the metadata read
    from the page's og:video tag instead of failing. *)
Theorem non_video_post_is_not_rejected :
  InstagramScraper.parseAPIResponse rt_image_post image_item "https://www.instagram.com/p/ABC123/"
    = inl InstagramScraper.not_a_video /\
  outcome (InstagramScraper.scrapeWithAPI rt_image_post (InstagramScraper.new empty_config)
             "https://www.instagram.com/p/ABC123/" [])
    = inr None /\
  outcome (InstagramScraper.scrape rt_image_post (InstagramScraper.new empty_config)
             "https://www.instagram.com/p/ABC123/" [])
    = inr (mkInstagramMetadata video "https://www.instagram.com/p/ABC123/"
             (JStr "https://cdn.example/v.mp4") (JStr "") (JStr "unknown") ""
             JUndefined JUndefined JUndefined JUndefined JUndefined JUndefined [] []
             JUndefined) /\
  trace_of (InstagramScraper.scrape rt_image_post (InstagramScraper.new empty_config)
              "https://www.instagram.com/p/ABC123/" [])
    = [ EvGet (ig_api_request (InstagramScraper.new empty_config)
                              "https://www.instagram.com/p/ABC123/");
        EvGet (ig_html_request (InstagramScraper.new empty_config)
                               "https://www.instagram.com/p/ABC123/") ].
Proof. repeat split. Qed.

(* ===================================================================== *)
(** * The facade's [download] *)
(* ===================================================================== *)

Lemma throws_errors_bind {A B} (m : M A) (k : A -> M B) :
  throws_errors m -> (forall a, throws_errors (k a)) -> throws_errors (bind m k).
Proof.
  intros Hm Hk tr e. unfold outcome, bind.
  destruct (m tr) as [[e1|a] tr1] eqn:Hrun.
  - simpl. intros H. apply (Hm tr). unfold outcome. rewrite Hrun. simpl. congruence.
  - apply Hk.
Qed.

Lemma throws_errors_ret {A} (a : A) : throws_errors (ret a).
Proof. intros tr e. discriminate. Qed.

Lemma throws_errors_throw {A} (e : thrown) : is_error e -> throws_errors (@throw A e).
Proof. intros He tr e' H. inversion H. now subst. Qed.

Lemma throws_errors_lift {A} (r : thrown + A) :
  (forall e, r = inl e -> is_error e) -> throws_errors (lift r).
Proof. intros Hr tr e H. apply Hr. exact H. Qed.

Lemma throws_errors_try_catch {A} (m : M A) (h : thrown -> M A) :
  (forall e, throws_errors (h e)) -> throws_errors (try_catch m h).
Proof.
  intros Hh tr e. unfold outcome, try_catch.
  destruct (m tr) as [[e1|a] tr1].
  - apply Hh.
  - discriminate.
Qed.

Lemma message_of_throws_errors (error : thrown) (e : thrown) :
  message_of error = inl e -> is_error e.
Proof.
  destruct error; simpl; [|discriminate].
  intros H. inversion H. eexists. reflexivity.
Qed.

(** The handler of both extractors' [download] and of the Instagram page
    strategy: it throws Error objects whatever it caught. *)
Lemma rethrow_as_NetworkError_throws_errors {A} (prefix : string) (p : Platform) (error : thrown) :
  throws_errors (bind (lift (message_of error))
                      (fun msg => @throw A (new_NetworkError (prefix ++ msg)%string p))).
Proof.
  apply throws_errors_bind.
  - apply throws_errors_lift, message_of_throws_errors.
  - intros msg. apply throws_errors_throw. eexists. reflexivity.
Qed.

Lemma validateURL_throws_errors (url : jsval) (e : thrown) :
  validateURL url = inl e -> is_error e.
Proof.
  unfold validateURL, new_URLError. intros H.
  destruct url; try (inversion H; eexists; reflexivity).
  destruct (Str.is_empty s); [inversion H; eexists; reflexivity|].
  destruct (Str.includes "instagram.com" (Str.toLowerCase s)); [discriminate|].
  destruct (_ || _)%bool; [|inversion H; eexists; reflexivity].
  unfold normalizeFacebookURL, new_TypeError in H.
  destruct (Str.includes "fb.watch" s); [discriminate|].
  destruct (WhatwgURL.parse s) as [u|]; [|inversion H; eexists; reflexivity].
  destruct (WhatwgURL.searchParams_get u "v") as [v|]; [|discriminate].
  destruct (negb (Str.is_empty v)); discriminate.
Qed.

(** With at least one iteration, what [retry] throws was thrown by the
    operation. *)
Lemma retry_loop_throws_errors {T} (fn : M T) (retries delay : Z) :
  throws_errors fn ->
  forall (n : nat) (i : Z) (lastError : thrown),
    (n = O -> is_error lastError) ->
    throws_errors (retry_loop fn retries delay n i lastError).
Proof.
  intros Hfn. induction n as [|n IH]; intros i lastError Hlast.
  - simpl. apply throws_errors_throw. now apply Hlast.
  - simpl. intros tr e. unfold outcome, try_catch.
    destruct (fn tr) as [[e1|a] tr1] eqn:Hrun; [|discriminate].
    assert (He1 : is_error e1).
    { apply (Hfn tr). unfold outcome. now rewrite Hrun. }
    apply throws_errors_bind.
    + destruct (i <? retries - 1); intros tr' e'; discriminate.
    + intros _. apply IH. intros _. exact He1.
Qed.

Lemma retry_throws_errors {T} (fn : M T) (retries delay : Z) :
  throws_errors fn -> 0 < retries -> throws_errors (retry fn retries delay).
Proof.
  intros Hfn Hpos. unfold retry. apply retry_loop_throws_errors; [exact Hfn|].
  intros H. lia.
Qed.

Lemma ig_try_all_throws_errors (rt : Runtime) (ig : InstagramScraper.t) (url : string) :
  throws_errors (InstagramScraper.try_all rt ig url).
Proof.
  intros tr e.
  destruct (ig_scrapeWithAPI_never_throws rt ig url tr) as [[m|] H1].
  - unfold outcome, InstagramScraper.try_all, bind. rewrite H1. discriminate.
  - rewrite (ig_try_all_after_api rt ig url tr H1). unfold outcome. simpl.
    destruct (net rt _ _) as [e'|html].
    + intros H. inversion H. eexists. reflexivity.
    + destruct (InstagramScraper.probe_page rt html url); [discriminate|].
      intros H. inversion H. eexists. reflexivity.
Qed.

Lemma fb_try_all_throws_errors (rt : Runtime) (fb : FacebookScraper.t) (url videoId : string) :
  throws_errors (FacebookScraper.try_all rt fb url videoId).
Proof.
  intros tr e H.
  rewrite (fb_try_all_only_extraction_failed rt fb url videoId tr e H).
  eexists. reflexivity.
Qed.

Lemma ig_scrape_throws_errors (rt : Runtime) (ig : InstagramScraper.t) (url : string) :
  0 < eff_retries (InstagramScraper.config ig) ->
  throws_errors (InstagramScraper.scrape rt ig url).
Proof.
  intros Hpos. unfold InstagramScraper.scrape.
  destruct (extractInstagramShortcode url) as [[|a id]|];
    try (apply throws_errors_throw; eexists; reflexivity).
  apply retry_throws_errors; [apply ig_try_all_throws_errors|exact Hpos].
Qed.

Lemma fb_scrape_throws_errors (rt : Runtime) (fb : FacebookScraper.t) (url : string) :
  0 < eff_retries (FacebookScraper.config fb) ->
  throws_errors (FacebookScraper.scrape rt fb url).
Proof.
  intros Hpos. unfold FacebookScraper.scrape.
  destruct (extractFacebookVideoId url) as [[|a id]|];
    try (apply throws_errors_throw; eexists; reflexivity).
  apply retry_throws_errors; [apply fb_try_all_throws_errors|exact Hpos].
Qed.

Lemma ig_download_throws_errors (rt : Runtime) (ig : InstagramScraper.t) (url : string) :
  0 < eff_retries (InstagramScraper.config ig) ->
  throws_errors (InstagramScraper.download rt ig url).
Proof.
  intros Hpos. unfold InstagramScraper.download.
  apply throws_errors_bind; [now apply ig_scrape_throws_errors|].
  intros metadata. destruct (negb (Js.truthy (ig_videoUrl metadata))).
  - apply throws_errors_throw. eexists. reflexivity.
  - apply throws_errors_try_catch. intros error.
    apply rethrow_as_NetworkError_throws_errors.
Qed.

Lemma fb_download_throws_errors (rt : Runtime) (fb : FacebookScraper.t) (url : string) :
  0 < eff_retries (FacebookScraper.config fb) ->
  throws_errors (FacebookScraper.download rt fb url).
Proof.
  intros Hpos. unfold FacebookScraper.download.
  apply throws_errors_bind; [now apply fb_scrape_throws_errors|].
  intros metadata. destruct (negb (Js.truthy (fb_videoUrl metadata))).
  - apply throws_errors_throw. eexists. reflexivity.
  - apply throws_errors_try_catch. intros error.
    apply rethrow_as_NetworkError_throws_errors.
Qed.

Lemma eff_retries_positive (cfg : ScraperConfig) :
  (forall r, retries cfg = Some r -> 0 <= r) ->
  0 < eff_retries (effective_config cfg).
Proof.
  intros H. unfold effective_config, or_number. simpl.
  destruct (retries cfg) as [r|]; [|lia].
  specialize (H r eq_refl). destruct (Z.eqb_spec r 0); lia.
Qed.

Lemma bind_returns {A B} (m : M A) (k : A -> M B) (tr tr' : Trace) (b : B) :
  bind m k tr = (inr b, tr') ->
  exists a tr1, m tr = (inr a, tr1) /\ k a tr1 = (inr b, tr').
Proof.
  unfold bind. destruct (m tr) as [[e|a] tr1]; [discriminate|].
  intros H. exists a, tr1. split; [reflexivity|exact H].
Qed.

(** Apart from a negative retry count, the facade's [download] is as the
    specification describes it: it never throws, a failure anywhere
    becomes [success: false] with the message, and success carries the
    metadata and the bytes. *)
Lemma download_never_raises_unless_retries_negative
    (rt : Runtime) (cfg : ScraperConfig) (url : jsval) (options : DownloadOptions) (tr : Trace) :
  (forall r, retries cfg = Some r -> 0 <= r) ->
  exists res,
    outcome (SocialMediaScraper.download rt (SocialMediaScraper.new cfg) url options tr) = inr res /\
    ((dr_success res = true /\ dr_error res = None /\
      exists m b, dr_metadata res = Some m /\ dr_buffer res = Some b) \/
     (dr_success res = false /\ dr_metadata res = None /\ dr_buffer res = None /\
      exists msg, dr_error res = Some msg)).
Proof.
  intros Hcfg. pose proof (eff_retries_positive cfg Hcfg) as Hpos.
  unfold SocialMediaScraper.download, try_catch, outcome.
  match goal with |- context [bind ?m ?k tr] => set (body := bind m k) end.
  assert (Hbody : throws_errors body).
  { unfold body. apply throws_errors_bind.
    - apply throws_errors_lift, validateURL_throws_errors.
    - intros c. apply throws_errors_bind; [|intros mb; apply throws_errors_ret].
      destruct (platform c); simpl.
      + apply throws_errors_bind; [now apply ig_scrape_throws_errors|]. intros metadata.
        apply throws_errors_bind; [now apply ig_download_throws_errors|]. intros buffer.
        apply throws_errors_ret.
      + apply throws_errors_bind; [now apply fb_scrape_throws_errors|]. intros metadata.
        apply throws_errors_bind; [now apply fb_download_throws_errors|]. intros buffer.
        apply throws_errors_ret. }
  destruct (body tr) as [[e|res] tr1] eqn:Hrun.
  - destruct (Hbody tr e) as [err ->]; [unfold outcome; now rewrite Hrun|].
    eexists. split; [reflexivity|]. right. simpl. repeat split. eexists. reflexivity.
  - exists res. split; [reflexivity|]. left.
    unfold body in Hrun.
    apply bind_returns in Hrun. destruct Hrun as (c & tr2 & _ & Hrun).
    apply bind_returns in Hrun. destruct Hrun as (mb & tr3 & _ & Hrun).
    unfold ret in Hrun. inversion Hrun. simpl. repeat split. eexists. eexists. split; reflexivity.
Qed.

(** C5, a defect of the code: on a scraper configured with [retries: -1], [retry]
    makes no attempt and throws its unassigned [lastError]; the [catch] of
    the facade's [download] reads [.message] of that [undefined], and the
    resulting TypeError leaves [download] as an exception: no
    DownloadResult is returned. *)
Theorem download_raises_with_negative_retries
    (rt : Runtime) (options : DownloadOptions) (tr : Trace) :
  eff_retries (InstagramScraper.config
                 (SocialMediaScraper.instagramScraper (SocialMediaScraper.new negative_retries)))
    = -1 /\
  InstagramScraper.scrape rt (InstagramScraper.new negative_retries)
    "https://www.instagram.com/p/ABC123/" tr = (inl ThrownUndefined, tr) /\
  SocialMediaScraper.download rt (SocialMediaScraper.new negative_retries)
    (JStr "https://www.instagram.com/p/ABC123/") options tr
  = (inl (new_TypeError "Cannot read properties of undefined (reading 'message')"), tr).
Proof. repeat split. Qed.

(** On the success path the result carries the metadata and the payload. *)
Example download_success_path :
  outcome (SocialMediaScraper.download
             (rt_stub (HttpFail timeout_error) (HttpOk (JStr "<html></html>"))
                      (JStr "https://cdn.example/v.mp4"))
             (SocialMediaScraper.new empty_config)
             (JStr "https://www.instagram.com/reel/ABC123/?igshid=x") no_download_options [])
  = inr (mkDownloadResult true
           (Some (OfInstagram
                    (mkInstagramMetadata video "https://www.instagram.com/reel/ABC123/"
                       (JStr "https://cdn.example/v.mp4") (JStr "") (JStr "unknown") ""
                       JUndefined JUndefined JUndefined JUndefined JUndefined JUndefined [] []
                       JUndefined)))
           (Some "mp4-bytes") None).
Proof. reflexivity. Qed.

(* ===================================================================== *)
(** * Idempotence of normalization *)
(* ===================================================================== *)

Section StringFacts.
Variable P : ascii -> bool.

Lemma all_app (a b : string) :
  Str.all P (a ++ b)%string = (Str.all P a && Str.all P b)%bool.
Proof.
  induction a as [|c a IH]; simpl; [reflexivity|].
  rewrite IH. now rewrite andb_assoc.
Qed.

Lemma all_split_head (c : ascii) (s : string) :
  Str.all P s = true -> Str.all P (Str.split_head c s) = true.
Proof.
  induction s as [|a s IH]; simpl; [reflexivity|].
  intros H. apply andb_prop in H. destruct H as [Ha Hs].
  destruct (Ascii.eqb a c); simpl; [reflexivity|].
  now rewrite Ha, IH.
Qed.

Lemma all_trim_start (s : string) :
  Str.all P s = true -> Str.all P (WhatwgURL.trim_start s) = true.
Proof.
  induction s as [|a s IH]; simpl; [reflexivity|].
  intros H. destruct (WhatwgURL.is_c0_or_space a); [|exact H].
  apply andb_prop in H. now apply IH.
Qed.

Lemma all_trim_end (s : string) :
  Str.all P s = true -> Str.all P (WhatwgURL.trim_end s) = true.
Proof.
  induction s as [|a s IH]; simpl; [reflexivity|].
  intros H. apply andb_prop in H. destruct H as [Ha Hs].
  destruct (_ && _)%bool; simpl; [reflexivity|].
  now rewrite Ha, IH.
Qed.

Lemma all_remove_tab_newline (s : string) :
  Str.all P s = true -> Str.all P (WhatwgURL.remove_tab_newline s) = true.
Proof.
  induction s as [|a s IH]; simpl; [reflexivity|].
  intros H. apply andb_prop in H. destruct H as [Ha Hs].
  destruct (WhatwgURL.is_tab_or_newline a); simpl; [now apply IH|].
  now rewrite Ha, IH.
Qed.

Lemma all_scheme_rest (s sc rest : string) :
  Str.all P s = true -> WhatwgURL.scheme_state s = Some (sc, rest) ->
  Str.all P rest = true.
Proof.
  revert sc rest. induction s as [|a s IH]; simpl; intros sc rest H Hs; [discriminate|].
  apply andb_prop in H. destruct H as [Ha Hall].
  destruct (Ascii.eqb a ":").
  - inversion Hs. now subst.
  - destruct (WhatwgURL.is_scheme_char a); [|discriminate].
    destruct (WhatwgURL.scheme_state s) as [[sc' rest']|]; [|discriminate].
    inversion Hs. subst. now apply (IH sc').
Qed.

Lemma all_impl (Q : ascii -> bool) (s : string) :
  (forall c, P c = true -> Q c = true) -> Str.all P s = true -> Str.all Q s = true.
Proof.
  intros HPQ. induction s as [|a s IH]; simpl; [reflexivity|].
  intros H. apply andb_prop in H. destruct H as [Ha Hs].
  now rewrite (HPQ a Ha), IH.
Qed.

End StringFacts.

Lemma split_head_has_no_separator (c : ascii) (s : string) :
  Str.all (neq_char c) (Str.split_head c s) = true.
Proof.
  induction s as [|a s IH]; simpl; [reflexivity|].
  destruct (Ascii.eqb a c) eqn:E; simpl; [reflexivity|].
  unfold neq_char at 1. now rewrite E, IH.
Qed.

Lemma split_head_without_separator (c : ascii) (s : string) :
  Str.all (neq_char c) s = true -> Str.split_head c s = s.
Proof.
  induction s as [|a s IH]; simpl; [reflexivity|].
  unfold neq_char at 1. intros H. apply andb_prop in H. destruct H as [Ha Hs].
  destruct (Ascii.eqb a c); [discriminate|]. now rewrite IH.
Qed.

Lemma split_tail_without_separator (c : ascii) (s : string) :
  Str.all (neq_char c) s = true -> Str.split_tail c s = None.
Proof.
  induction s as [|a s IH]; simpl; [reflexivity|].
  unfold neq_char at 1. intros H. apply andb_prop in H. destruct H as [Ha Hs].
  destruct (Ascii.eqb a c); [discriminate|]. now apply IH.
Qed.

Lemma endsWithChar_snoc (c : ascii) (s : string) :
  Str.endsWithChar c (s ++ String c EmptyString)%string = true.
Proof.
  induction s as [|a s IH]; simpl; [apply Ascii.eqb_refl|].
  destruct (s ++ String c EmptyString)%string eqn:E; [|exact IH].
  destruct s; discriminate E.
Qed.

(** The Instagram normalization is idempotent on every string. *)
Lemma normalizeInstagramURL_idempotent (u : string) :
  normalizeInstagramURL (normalizeInstagramURL u) = normalizeInstagramURL u.
Proof.
  unfold normalizeInstagramURL at 2 3. cbv zeta.
  pose proof (split_head_has_no_separator "?" u) as Hno.
  destruct (Str.endsWithChar "/" (Str.split_head "?" u)) eqn:E.
  - unfold normalizeInstagramURL. cbv zeta.
    rewrite (split_head_without_separator "?" _ Hno). now rewrite E.
  - assert (Hno' : Str.all (neq_char "?") (Str.split_head "?" u ++ "/")%string = true).
    { rewrite all_app, Hno. reflexivity. }
    unfold normalizeInstagramURL. cbv zeta.
    rewrite (split_head_without_separator "?" _ Hno').
    rewrite endsWithChar_snoc. reflexivity.
Qed.

(** Facts about single characters are settled by enumeration. *)
Ltac by_cases_on_char c :=
  destruct c as [[] [] [] [] [] [] [] []]; vm_compute; intros; congruence.

Lemma space_is_no_scheme_char (c : ascii) :
  WhatwgURL.is_c0_or_space c = true ->
  Ascii.eqb c ":" = false /\ WhatwgURL.is_scheme_char c = false /\ Str.is_alpha c = false.
Proof.
  intros H. repeat split; revert H; by_cases_on_char c.
Qed.

Lemma tab_is_space (c : ascii) :
  WhatwgURL.is_tab_or_newline c = true -> WhatwgURL.is_c0_or_space c = true.
Proof. by_cases_on_char c. Qed.

Lemma scheme_state_app_spaces (b : string) :
  Str.all WhatwgURL.is_c0_or_space b = true ->
  forall a,
    WhatwgURL.scheme_state (a ++ b)%string
    = match WhatwgURL.scheme_state a with
      | Some (sc, r) => Some (sc, (r ++ b)%string)
      | None => None
      end.
Proof.
  intros Hb. induction a as [|c a IH]; simpl.
  - destruct b as [|c b]; [reflexivity|]. simpl in *.
    apply andb_prop in Hb. destruct Hb as [Hc _].
    destruct (space_is_no_scheme_char c Hc) as (-> & -> & _). reflexivity.
  - destruct (Ascii.eqb c ":"); [reflexivity|].
    destruct (WhatwgURL.is_scheme_char c); [|reflexivity].
    rewrite IH. destruct (WhatwgURL.scheme_state a) as [[sc r]|]; reflexivity.
Qed.

Lemma scheme_start_state_app_spaces (b : string) :
  Str.all WhatwgURL.is_c0_or_space b = true ->
  forall a,
    WhatwgURL.scheme_start_state (a ++ b)%string
    = match WhatwgURL.scheme_start_state a with
      | Some (sc, r) => Some (sc, (r ++ b)%string)
      | None => None
      end.
Proof.
  intros Hb a. destruct a as [|c a].
  - simpl. destruct b as [|c b]; [reflexivity|]. simpl in *.
    apply andb_prop in Hb. destruct Hb as [Hc _].
    destruct (space_is_no_scheme_char c Hc) as (_ & _ & ->). reflexivity.
  - change (String c a ++ b)%string with (String c (a ++ b)%string).
    unfold WhatwgURL.scheme_start_state.
    destruct (Str.is_alpha c); [|reflexivity].
    change (String c (a ++ b)%string) with (String c a ++ b)%string.
    now apply scheme_state_app_spaces.
Qed.

(** What [trim_end] removes is a run of C0-control-or-space characters. *)
Lemma trim_end_split (s : string) :
  exists w, s = (WhatwgURL.trim_end s ++ w)%string /\
            Str.all WhatwgURL.is_c0_or_space w = true.
Proof.
  induction s as [|a s (w & Hs & Hw)]; simpl.
  - exists EmptyString. split; reflexivity.
  - destruct (WhatwgURL.is_c0_or_space a) eqn:Ha; simpl.
    + destruct (WhatwgURL.trim_end s) eqn:Et; simpl.
      * exists (String a s). split; [reflexivity|].
        simpl. rewrite Ha. simpl in Hs. now rewrite Hs.
      * exists w. split; [|exact Hw]. simpl. f_equal. exact Hs.
    + exists w. split; [|exact Hw]. f_equal. exact Hs.
Qed.

Lemma remove_tab_newline_app (a b : string) :
  WhatwgURL.remove_tab_newline (a ++ b)%string
  = (WhatwgURL.remove_tab_newline a ++ WhatwgURL.remove_tab_newline b)%string.
Proof.
  induction a as [|c a IH]; simpl; [reflexivity|].
  destruct (WhatwgURL.is_tab_or_newline c); simpl; now rewrite IH.
Qed.

(** Trimming the end never decides whether the input has a scheme. *)
Lemma scheme_start_state_trim_end (t : string) :
  exists w,
    WhatwgURL.scheme_start_state (WhatwgURL.remove_tab_newline t)
    = match WhatwgURL.scheme_start_state (WhatwgURL.remove_tab_newline (WhatwgURL.trim_end t)) with
      | Some (sc, r) => Some (sc, (r ++ w)%string)
      | None => None
      end.
Proof.
  destruct (trim_end_split t) as (w & Ht & Hw).
  exists (WhatwgURL.remove_tab_newline w).
  rewrite Ht at 1. rewrite remove_tab_newline_app.
  apply scheme_start_state_app_spaces.
  now apply all_remove_tab_newline.
Qed.

Lemma scheme_state_split_head (s : string) :
  WhatwgURL.scheme_state (WhatwgURL.remove_tab_newline s) <> None ->
  WhatwgURL.scheme_state (WhatwgURL.remove_tab_newline (Str.split_head "?" s)) <> None.
Proof.
  induction s as [|a s IH]; simpl; [congruence|].
  destruct (Ascii.eqb_spec a "?") as [->|Hne].
  - simpl. congruence.
  - simpl. destruct (WhatwgURL.is_tab_or_newline a); [exact IH|].
    simpl. destruct (Ascii.eqb a ":"); [congruence|].
    destruct (WhatwgURL.is_scheme_char a); [|congruence].
    intros H.
    destruct (WhatwgURL.scheme_state (WhatwgURL.remove_tab_newline s)) as [[sc r]|];
      [|congruence].
    destruct (WhatwgURL.scheme_state (WhatwgURL.remove_tab_newline (Str.split_head "?" s)))
      as [[sc' r']|]; [congruence|].
    exfalso. apply IH; congruence.
Qed.

Lemma scheme_start_state_split_head (s : string) :
  WhatwgURL.scheme_start_state (WhatwgURL.remove_tab_newline s) <> None ->
  WhatwgURL.scheme_start_state (WhatwgURL.remove_tab_newline (Str.split_head "?" s)) <> None.
Proof.
  induction s as [|a s IH]; simpl; [congruence|].
  destruct (Ascii.eqb_spec a "?") as [->|Hne].
  - simpl. congruence.
  - simpl. destruct (WhatwgURL.is_tab_or_newline a) eqn:Htab; [exact IH|].
    unfold WhatwgURL.scheme_start_state.
    destruct (Str.is_alpha a); [|congruence].
    intros H.
    pose proof (scheme_state_split_head (String a s)) as Hs.
    simpl in Hs. rewrite Htab in Hs.
    destruct (Ascii.eqb_spec a "?"); [contradiction|].
    simpl in Hs. rewrite Htab in Hs. now apply Hs.
Qed.

Lemma scheme_start_state_trim_start_split_head (u : string) :
  WhatwgURL.scheme_start_state (WhatwgURL.remove_tab_newline (WhatwgURL.trim_start u)) <> None ->
  WhatwgURL.scheme_start_state
    (WhatwgURL.remove_tab_newline (WhatwgURL.trim_start (Str.split_head "?" u))) <> None.
Proof.
  induction u as [|a u IH]; simpl; [congruence|].
  destruct (Ascii.eqb_spec a "?") as [->|Hne].
  - simpl. congruence.
  - simpl. destruct (WhatwgURL.is_c0_or_space a) eqn:Hsp; [exact IH|].
    intros H.
    pose proof (scheme_start_state_split_head (String a u)) as Hs.
    simpl in Hs. destruct (Ascii.eqb_spec a "?"); [contradiction|].
    now apply Hs.
Qed.

(** The text before the first [?] of a URL that parses itself parses, and
    has an empty query. *)
Lemma parse_before_query (u : string) :
  WhatwgURL.parse u <> None ->
  exists urlObj,
    WhatwgURL.parse (Str.split_head "?" u) = Some urlObj /\
    WhatwgURL.query urlObj = EmptyString.
Proof.
  unfold WhatwgURL.parse. intros H.
  assert (H1 : WhatwgURL.scheme_start_state
                 (WhatwgURL.remove_tab_newline (WhatwgURL.trim_start u)) <> None).
  { destruct (scheme_start_state_trim_end (WhatwgURL.trim_start u)) as [w Hw].
    rewrite Hw.
    destruct (WhatwgURL.scheme_start_state _) as [[sc r]|]; [congruence|].
    now elim H. }
  apply scheme_start_state_trim_start_split_head in H1.
  set (p := Str.split_head "?" u) in *.
  destruct (scheme_start_state_trim_end (WhatwgURL.trim_start p)) as [w Hw].
  rewrite Hw in H1.
  set (cleaned := WhatwgURL.remove_tab_newline (WhatwgURL.trim_end (WhatwgURL.trim_start p))) in *.
  destruct (WhatwgURL.scheme_start_state cleaned) as [[sc rest]|] eqn:Es; [|now elim H1].
  eexists. split; [reflexivity|]. simpl.
  assert (Hclean : Str.all (neq_char "?") cleaned = true).
  { unfold cleaned. apply all_remove_tab_newline, all_trim_end, all_trim_start.
    apply split_head_has_no_separator. }
  assert (Hrest : Str.all (neq_char "?") rest = true).
  { destruct cleaned as [|a c]; [discriminate Es|].
    unfold WhatwgURL.scheme_start_state in Es.
    destruct (Str.is_alpha a); [|discriminate Es].
    exact (all_scheme_rest _ _ _ _ Hclean Es). }
  rewrite split_tail_without_separator; [reflexivity|].
  now apply all_split_head.
Qed.

Lemma unreserved_is_plain (c : ascii) :
  is_unreserved c = true ->
  WhatwgURL.is_c0_or_space c = false /\ WhatwgURL.is_tab_or_newline c = false /\
  neq_char "#" c = true /\ neq_char "&" c = true /\
  neq_char "+" c = true /\ neq_char "%" c = true.
Proof.
  intros H. repeat split; revert H; by_cases_on_char c.
Qed.

Lemma trim_end_unreserved_tail (s : string) :
  Str.all (fun c => negb (WhatwgURL.is_c0_or_space c)) s = true ->
  WhatwgURL.trim_end s = s.
Proof.
  induction s as [|a s IH]; simpl; [reflexivity|].
  intros H. apply andb_prop in H. destruct H as [Ha Hs].
  apply negb_true_iff in Ha. rewrite Ha. simpl. now rewrite IH.
Qed.

Lemma remove_tab_newline_none (s : string) :
  Str.all (fun c => negb (WhatwgURL.is_tab_or_newline c)) s = true ->
  WhatwgURL.remove_tab_newline s = s.
Proof.
  induction s as [|a s IH]; simpl; [reflexivity|].
  intros H. apply andb_prop in H. destruct H as [Ha Hs].
  apply negb_true_iff in Ha. rewrite Ha. now rewrite IH.
Qed.

Lemma split_on_without_separator (c : ascii) (s : string) :
  Str.all (neq_char c) s = true -> WhatwgURL.split_on c s = [s].
Proof.
  induction s as [|a s IH]; simpl; [reflexivity|].
  unfold neq_char at 1. intros H. apply andb_prop in H. destruct H as [Ha Hs].
  apply negb_true_iff in Ha. rewrite Ha. now rewrite IH.
Qed.

Lemma plus_to_space_without_plus (s : string) :
  Str.all (neq_char "+") s = true -> WhatwgURL.plus_to_space s = s.
Proof.
  induction s as [|a s IH]; simpl; [reflexivity|].
  unfold neq_char at 1. intros H. apply andb_prop in H. destruct H as [Ha Hs].
  apply negb_true_iff in Ha. rewrite Ha. now rewrite IH.
Qed.

Lemma percent_decode_without_percent (s : string) :
  Str.all (neq_char "%") s = true -> WhatwgURL.percent_decode s = s.
Proof.
  induction s as [|a s IH]; [reflexivity|].
  simpl Str.all. unfold neq_char at 1. intros H. apply andb_prop in H. destruct H as [Ha Hs].
  apply negb_true_iff in Ha.
  change (WhatwgURL.percent_decode (String a s))
    with (if Ascii.eqb a "%"
          then match s with
               | String h1 (String h2 t) =>
                   match WhatwgURL.hex_value h1, WhatwgURL.hex_value h2 with
                   | Some x, Some y =>
                       String (ascii_of_nat (16 * x + y)) (WhatwgURL.percent_decode t)
                   | _, _ => String a (WhatwgURL.percent_decode s)
                   end
               | _ => String a (WhatwgURL.percent_decode s)
               end
          else String a (WhatwgURL.percent_decode s)).
  rewrite Ha. now rewrite IH.
Qed.

Lemma decode_unreserved (s : string) :
  Str.all is_unreserved s = true -> WhatwgURL.decode s = s.
Proof.
  intros H. unfold WhatwgURL.decode.
  rewrite plus_to_space_without_plus.
  - apply percent_decode_without_percent.
    revert H. apply all_impl. intros c Hc. apply (unreserved_is_plain c Hc).
  - revert H. apply all_impl. intros c Hc. apply (unreserved_is_plain c Hc).
Qed.

(** The canonical watch URL of a plain video id parses, and its [v]
    parameter is that id. *)
Lemma parse_canonical_watch_url (videoId : string) :
  Str.all is_unreserved videoId = true ->
  Str.is_empty videoId = false ->
  v_parameter ("https://www.facebook.com/watch/?v=" ++ videoId)%string = Some videoId.
Proof.
  intros Hid Hne. unfold v_parameter, WhatwgURL.parse.
  change (WhatwgURL.trim_start ("https://www.facebook.com/watch/?v=" ++ videoId)%string)
    with ("https://www.facebook.com/watch/?v=" ++ videoId)%string.
  rewrite trim_end_unreserved_tail.
  2:{ rewrite all_app. rewrite andb_true_iff. split; [reflexivity|].
      revert Hid. apply all_impl. intros c Hc.
      destruct (unreserved_is_plain c Hc) as (-> & _). reflexivity. }
  rewrite remove_tab_newline_none.
  2:{ rewrite all_app. rewrite andb_true_iff. split; [reflexivity|].
      revert Hid. apply all_impl. intros c Hc.
      destruct (unreserved_is_plain c Hc) as (_ & -> & _). reflexivity. }
  change (WhatwgURL.scheme_start_state ("https://www.facebook.com/watch/?v=" ++ videoId)%string)
    with (Some ("https", ("//www.facebook.com/watch/?v=" ++ videoId)%string)).
  cbv iota beta.
  rewrite (split_head_without_separator "#").
  2:{ rewrite all_app. rewrite andb_true_iff. split; [reflexivity|].
      revert Hid. apply all_impl. intros c Hc. apply (unreserved_is_plain c Hc). }
  change (Str.split_tail "?" ("//www.facebook.com/watch/?v=" ++ videoId)%string)
    with (Some ("v=" ++ videoId)%string).
  unfold WhatwgURL.searchParams_get, WhatwgURL.urlencoded_parse. simpl WhatwgURL.query.
  rewrite (split_on_without_separator "&").
  2:{ change (Str.all (neq_char "&") videoId = true).
      revert Hid. apply all_impl. intros c Hc. apply (unreserved_is_plain c Hc). }
  simpl. now rewrite decode_unreserved.
Qed.

(** The query-stripping branch is idempotent. *)
Lemma normalizeFacebookURL_stripped (u : string) :
  WhatwgURL.parse u <> None ->
  normalizeFacebookURL (Str.split_head "?" u) = inr (Str.split_head "?" u).
Proof.
  intros Hp. unfold normalizeFacebookURL.
  destruct (Str.includes "fb.watch" (Str.split_head "?" u)); [reflexivity|].
  destruct (parse_before_query u Hp) as (urlObj & -> & Hq).
  unfold WhatwgURL.searchParams_get. rewrite Hq. simpl.
  now rewrite (split_head_without_separator "?" _ (split_head_has_no_separator "?" u)).
Qed.

(** The canonical-rewrite branch is idempotent on plain video ids. *)
Lemma normalizeFacebookURL_canonical (videoId : string) :
  Str.all is_unreserved videoId = true ->
  Str.is_empty videoId = false ->
  normalizeFacebookURL ("https://www.facebook.com/watch/?v=" ++ videoId)%string
  = inr ("https://www.facebook.com/watch/?v=" ++ videoId)%string.
Proof.
  intros Hid Hne. unfold normalizeFacebookURL.
  destruct (Str.includes "fb.watch" _); [reflexivity|].
  pose proof (parse_canonical_watch_url videoId Hid Hne) as Hv.
  unfold v_parameter in Hv.
  destruct (WhatwgURL.parse _) as [urlObj|]; [|discriminate Hv].
  rewrite Hv, Hne. reflexivity.
Qed.

Lemma normalizeFacebookURL_idempotent_on_plain_ids (u r : string) :
  normalizeFacebookURL u = inr r ->
  Str.includes "fb.watch" u = true \/ plain_video_id u = true ->
  normalizeFacebookURL r = inr r.
Proof.
  intros Hn Hcase. unfold normalizeFacebookURL in Hn.
  destruct (Str.includes "fb.watch" u) eqn:Ew.
  - inversion Hn. subst r. unfold normalizeFacebookURL. now rewrite Ew.
  - destruct Hcase as [Hc|Hplain]; [discriminate Hc|].
    unfold plain_video_id, v_parameter in Hplain.
    destruct (WhatwgURL.parse u) as [urlObj|] eqn:Ep; [|discriminate Hn].
    assert (Hp : WhatwgURL.parse u <> None) by congruence.
    destruct (WhatwgURL.searchParams_get urlObj "v") as [videoId|].
    + destruct (Str.is_empty videoId) eqn:Eid; simpl in Hn; inversion Hn; subst r.
      * now apply normalizeFacebookURL_stripped.
      * now apply normalizeFacebookURL_canonical.
    + inversion Hn. subst r. now apply normalizeFacebookURL_stripped.
Qed.

Lemma validateURL_accepts (u : string) (c : Classified) :
  validateURL (JStr u) = inr c ->
  (platform c = instagram /\ normalizedUrl c = normalizeInstagramURL u) \/
  (platform c = facebook /\ normalizeFacebookURL u = inr (normalizedUrl c)).
Proof.
  unfold validateURL.
  destruct (Str.is_empty u); [discriminate|].
  destruct (Str.includes "instagram.com" (Str.toLowerCase u)).
  - intros H. inversion H. left. split; reflexivity.
  - destruct (_ || _)%bool; [|discriminate].
    destruct (normalizeFacebookURL u) as [e|n]; [discriminate|].
    intros H. inversion H. right. split; reflexivity.
Qed.

(** C7 (amended): for every URL the classifier accepts, normalizing the
    normalized URL again gives the same URL, on Instagram always, and on
    Facebook whenever the URL holds [fb.watch] or its [v] parameter, if it
    has one, is written with unreserved characters only. *)
Theorem normalization_idempotent_on_plain_ids (u : string) (c : Classified) :
  validateURL (JStr u) = inr c ->
  (platform c = instagram ->
   normalizeInstagramURL (normalizedUrl c) = normalizedUrl c) /\
  (platform c = facebook ->
   Str.includes "fb.watch" u = true \/ plain_video_id u = true ->
   normalizeFacebookURL (normalizedUrl c) = inr (normalizedUrl c)).
Proof.
  intros Hv. destruct (validateURL_accepts u c Hv) as [[Hp Hn]|[Hp Hn]]; split.
  - intros _. rewrite Hn. apply normalizeInstagramURL_idempotent.
  - rewrite Hp. discriminate.
  - rewrite Hp. discriminate.
  - intros _ Hcase. exact (normalizeFacebookURL_idempotent_on_plain_ids u _ Hn Hcase).
Qed.

Lemma normalization_idempotent_on_plain_ids_witness :
  normalizeInstagramURL "https://www.instagram.com/p/ABC123/"
    = "https://www.instagram.com/p/ABC123/" /\
  normalizeFacebookURL "https://www.facebook.com/watch/?v=12345"
    = inr "https://www.facebook.com/watch/?v=12345".
Proof.
  split.
  - apply (proj1 (normalization_idempotent_on_plain_ids
                    "https://www.instagram.com/p/ABC123?igshid=xyz"
                    (mkClassified instagram "https://www.instagram.com/p/ABC123/")
                    eq_refl)).
    reflexivity.
  - apply (proj2 (normalization_idempotent_on_plain_ids
                    "https://www.facebook.com/watch/?v=12345&foo=bar"
                    (mkClassified facebook "https://www.facebook.com/watch/?v=12345")
                    eq_refl)).
    + reflexivity.
    + right. reflexivity.
Defined.

(** C7 (as stated, refuted): the classifier accepts a Facebook URL whose
    [v] parameter holds an escaped ampersand; the canonical rewrite writes
    the decoded value back unescaped, and normalizing the result cuts the
    id at the ampersand. *)
Lemma facebook_normalization_not_idempotent :
  validateURL (JStr "https://www.facebook.com/watch/?v=1%26b")
    = inr (mkClassified facebook "https://www.facebook.com/watch/?v=1&b") /\
  normalizeFacebookURL "https://www.facebook.com/watch/?v=1&b"
    = inr "https://www.facebook.com/watch/?v=1" /\
  ~ (forall u c, validateURL (JStr u) = inr c -> platform c = facebook ->
       normalizeFacebookURL (normalizedUrl c) = inr (normalizedUrl c)).
Proof.
  split; [reflexivity|]. split; [reflexivity|].
  intros H.
  specialize (H "https://www.facebook.com/watch/?v=1%26b"
                (mkClassified facebook "https://www.facebook.com/watch/?v=1&b")
                eq_refl eq_refl).
  discriminate H.
Qed.

(* ===================================================================== *)
(** * Further properties of the retry executor *)
(* ===================================================================== *)

Lemma bind_sleep_run {A} (ms : Z) (k : M A) (tr : Trace) :
  bind (sleep ms) (fun _ => k) tr = k (tr ++ [EvSleep ms]).
Proof. reflexivity. Qed.

Section RetryMeasure.
Context {T : Type}.
Variable fn : M T.
Variables retries delay : Z.
Variable mu : Trace -> nat.
Variable c : nat.
Hypothesis mu_sleep : forall tr ms, mu (tr ++ [EvSleep ms]) = mu tr.
Hypothesis mu_fn : forall tr, (mu (trace_of (fn tr)) <= mu tr + c)%nat.

(** A count of events that sleeping leaves alone and one run of the
    operation raises by at most [c] grows by at most [c] per iteration. *)
Lemma retry_loop_measure (n : nat) :
  forall (i : Z) (lastError : thrown) (tr : Trace),
    (mu (trace_of (retry_loop fn retries delay n i lastError tr)) <= mu tr + c * n)%nat.
Proof.
  induction n as [|n IH]; intros i lastError tr.
  - simpl. lia.
  - simpl. unfold try_catch.
    pose proof (mu_fn tr) as Hfn.
    destruct (fn tr) as [[e|v] tr1]; unfold trace_of in *; simpl in *.
    + destruct (i <? retries - 1).
      * rewrite bind_sleep_run.
        specialize (IH (i + 1) e (tr1 ++ [EvSleep (delay * (i + 1))])).
        rewrite mu_sleep in IH. lia.
      * specialize (IH (i + 1) e tr1). unfold bind, ret. simpl. lia.
    + lia.
Qed.

End RetryMeasure.

Section RetryOutcome.
Context {T : Type}.
Variable fn : M T.
Variables retries delay : Z.

(** What the loop returns was returned by a run of the operation, and
    what it throws was thrown by one, unless no iteration was left. *)
Lemma retry_loop_outcome (n : nat) :
  forall (i : Z) (lastError : thrown) (tr : Trace),
    match outcome (retry_loop fn retries delay n i lastError tr) with
    | inr v => exists tr1, outcome (fn tr1) = inr v
    | inl e => (n = O /\ e = lastError) \/ exists tr1, outcome (fn tr1) = inl e
    end.
Proof.
  induction n as [|n IH]; intros i lastError tr.
  - simpl. left. split; reflexivity.
  - simpl. unfold try_catch.
    destruct (fn tr) as [[e|v] tr1] eqn:Hrun.
    + assert (He : exists t, outcome (fn t) = inl e).
      { exists tr. now rewrite Hrun. }
      assert (Hgen : forall tr2,
                 match outcome (retry_loop fn retries delay n (i + 1) e tr2) with
                 | inr v => exists tr1, outcome (fn tr1) = inr v
                 | inl e' => (S n = O /\ e' = lastError) \/ exists tr1, outcome (fn tr1) = inl e'
                 end).
      { intros tr2. specialize (IH (i + 1) e tr2).
        destruct (outcome (retry_loop fn retries delay n (i + 1) e tr2)) as [e'|v]; [|exact IH].
        right. destruct IH as [[_ ->]|H]; [exact He|exact H]. }
      destruct (i <? retries - 1).
      * rewrite bind_sleep_run. apply Hgen.
      * apply Hgen.
    + unfold outcome. simpl. exists tr. now rewrite Hrun.
Qed.

End RetryOutcome.

(** X1: [retry] never exceeds its budget: whatever the operation does, it
    is invoked at most [maxAttempts] times (not at all if [maxAttempts] is
    zero or negative). *)
Theorem retry_invocations_bounded {T} (fn : M T) (maxAttempts baseDelay : Z) (tr : Trace) :
  quiet fn ->
  (count_calls (trace_of (retry (spy fn) maxAttempts baseDelay tr))
   <= count_calls tr + Z.to_nat maxAttempts)%nat.
Proof.
  intros Hq. unfold retry.
  pose proof (retry_loop_measure (spy fn) maxAttempts baseDelay count_calls 1
                count_calls_sleep) as H.
  assert (Hfn : forall t, (count_calls (trace_of (spy fn t)) <= count_calls t + 1)%nat).
  { intros t. rewrite (spy_counts fn t Hq). lia. }
  specialize (H Hfn (Z.to_nat maxAttempts) 0 ThrownUndefined tr). lia.
Qed.

Lemma retry_invocations_bounded_witness :
  (count_calls (trace_of (retry (spy (scripted (fun _ => inl (new_NetworkError "down" instagram)
                                                          : thrown + Z))) 3 1000 []))
   <= 0 + 3)%nat.
Proof.
  apply (retry_invocations_bounded
           (scripted (fun _ => inl (new_NetworkError "down" instagram) : thrown + Z)) 3 1000 []).
  intros tr. reflexivity.
Defined.

(** X2: [retry] invents nothing: a value it returns was returned by a run
    of the operation, and with [maxAttempts >= 1] an exception it throws
    was thrown by a run of the operation. *)
Theorem retry_outcome_comes_from_operation {T} (fn : M T) (maxAttempts baseDelay : Z)
    (tr : Trace) :
  (forall v, outcome (retry fn maxAttempts baseDelay tr) = inr v ->
             exists tr1, outcome (fn tr1) = inr v) /\
  (forall e, 0 < maxAttempts -> outcome (retry fn maxAttempts baseDelay tr) = inl e ->
             exists tr1, outcome (fn tr1) = inl e).
Proof.
  unfold retry.
  pose proof (retry_loop_outcome fn maxAttempts baseDelay (Z.to_nat maxAttempts)
                0 ThrownUndefined tr) as H.
  split.
  - intros v Hv. rewrite Hv in H. exact H.
  - intros e Hpos He. rewrite He in H. destruct H as [[Hn _]|H]; [lia|exact H].
Qed.

Lemma retry_outcome_comes_from_operation_witness :
  exists tr1,
    outcome (spy (scripted (fun _ => inl (new_NetworkError "down" instagram) : thrown + Z)) tr1)
    = inl (new_NetworkError "down" instagram).
Proof.
  apply (proj2 (retry_outcome_comes_from_operation
                  (spy (scripted (fun _ => inl (new_NetworkError "down" instagram) : thrown + Z)))
                  3 1000 [])).
  - lia.
  - reflexivity.
Defined.

Section RetryBackoff.
Context {T : Type}.
Variable fn : M T.
Variables retries delay : Z.
Hypothesis fn_fails : always_fails fn.
Hypothesis fn_never_sleeps : never_sleeps fn.

Lemma sleeps_app (a b : Trace) : sleeps (a ++ b) = sleeps a ++ sleeps b.
Proof. unfold sleeps. apply flat_map_app. Qed.

Lemma retry_loop_backoff (n : nat) :
  forall (i : Z) (lastError : thrown) (tr : Trace),
    i + Z.of_nat n = retries ->
    sleeps (trace_of (retry_loop fn retries delay n i lastError tr))
    = sleeps tr ++ map (fun j => delay * (i + Z.of_nat j)) (seq 1 (n - 1)).
Proof.
  induction n as [|n IH]; intros i lastError tr Hidx.
  - simpl. now rewrite app_nil_r.
  - simpl retry_loop. unfold try_catch.
    destruct (fn_fails tr) as [e He].
    pose proof (fn_never_sleeps tr) as Hs.
    destruct (fn tr) as [r tr1]. unfold outcome, trace_of in *. simpl in He, Hs. subst r.
    destruct (Z.ltb_spec i (retries - 1)).
    + rewrite bind_sleep_run. rewrite IH by lia.
      rewrite sleeps_app, Hs. simpl sleeps. rewrite <- app_assoc. f_equal.
      destruct n as [|m]; [lia|]. simpl. f_equal.
      rewrite Nat.sub_0_r. rewrite <- (seq_shift m 1), map_map.
      apply map_ext. intros j. f_equal. lia.
    + assert (n = O) by lia. subst n.
      unfold bind, ret. simpl. rewrite Hs. now rewrite app_nil_r.
Qed.

End RetryBackoff.

(** X3: linear back-off.  When every attempt fails, [retry] sleeps
    [baseDelay * 1], [baseDelay * 2], ..., [baseDelay * (maxAttempts - 1)]
    between the attempts, in this order, and does not sleep after the last
    one. *)
Theorem retry_backoff_schedule {T} (fn : M T) (maxAttempts baseDelay : Z) (tr : Trace) :
  always_fails fn -> never_sleeps fn ->
  sleeps (trace_of (retry fn maxAttempts baseDelay tr))
  = sleeps tr ++ map (fun j => baseDelay * Z.of_nat j) (seq 1 (Z.to_nat maxAttempts - 1)).
Proof.
  intros Hf Hs. destruct (Z.le_gt_cases 0 maxAttempts) as [Hm|Hm].
  - unfold retry.
    rewrite (retry_loop_backoff fn maxAttempts baseDelay Hf Hs) by lia.
    reflexivity.
  - rewrite retry_without_attempts by lia.
    replace (Z.to_nat maxAttempts) with O by lia. simpl. now rewrite app_nil_r.
Qed.

Lemma retry_backoff_schedule_witness :
  sleeps (trace_of (retry (spy (scripted (fun _ => inl (new_NetworkError "down" instagram)
                                                   : thrown + Z))) 4 500 []))
  = [] ++ map (fun j => 500 * Z.of_nat j) (seq 1 (Z.to_nat 4 - 1)).
Proof.
  apply (retry_backoff_schedule
           (spy (scripted (fun _ => inl (new_NetworkError "down" instagram) : thrown + Z)))
           4 500 []).
  - intros tr. eexists. reflexivity.
  - intros tr. unfold trace_of, spy. simpl. rewrite sleeps_app. simpl. apply app_nil_r.
Defined.

(* ===================================================================== *)
(** * Request budget of the scrapers and of the facade *)
(* ===================================================================== *)

Lemma count_gets_get (tr : Trace) (r : Request) :
  count_gets (tr ++ [EvGet r]) = S (count_gets tr).
Proof.
  unfold count_gets. rewrite filter_app, length_app. simpl. lia.
Qed.

Lemma count_gets_sleep (tr : Trace) (ms : Z) :
  count_gets (tr ++ [EvSleep ms]) = count_gets tr.
Proof.
  unfold count_gets. rewrite filter_app, length_app. simpl. lia.
Qed.

Lemma gets_ret {A} (a : A) : gets_at_most 0 (ret a).
Proof. intros tr. unfold trace_of, ret. simpl. lia. Qed.

Lemma gets_throw {A} (e : thrown) : gets_at_most 0 (@throw A e).
Proof. intros tr. unfold trace_of, throw. simpl. lia. Qed.

Lemma gets_lift {A} (r : thrown + A) : gets_at_most 0 (lift r).
Proof. intros tr. unfold trace_of, lift. simpl. lia. Qed.

Lemma gets_weaken {A} (a b : nat) (op : M A) :
  (a <= b)%nat -> gets_at_most a op -> gets_at_most b op.
Proof. intros Hab H tr. specialize (H tr). lia. Qed.

Lemma gets_bind {A B} (a b : nat) (m : M A) (k : A -> M B) :
  gets_at_most a m -> (forall x, gets_at_most b (k x)) -> gets_at_most (a + b) (bind m k).
Proof.
  intros Hm Hk tr. specialize (Hm tr). unfold trace_of, bind in *.
  destruct (m tr) as [[e|x] tr1]; simpl in *.
  - lia.
  - specialize (Hk x tr1). unfold trace_of in Hk. lia.
Qed.

Lemma gets_try_catch {A} (a b : nat) (m : M A) (h : thrown -> M A) :
  gets_at_most a m -> (forall e, gets_at_most b (h e)) -> gets_at_most (a + b) (try_catch m h).
Proof.
  intros Hm Hh tr. specialize (Hm tr). unfold trace_of, try_catch in *.
  destruct (m tr) as [[e|x] tr1]; simpl in *.
  - specialize (Hh e tr1). unfold trace_of in Hh. lia.
  - lia.
Qed.

Lemma gets_client_get (rt : Runtime) (c : Client) (url : string) (o : RequestOptions) :
  gets_at_most 1 (client_get rt c url o).
Proof.
  intros tr. rewrite client_get_run. unfold trace_of. simpl.
  rewrite count_gets_get. lia.
Qed.

Lemma gets_retry {T} (c : nat) (fn : M T) (retries delay : Z) :
  gets_at_most c fn -> gets_at_most (c * Z.to_nat retries) (retry fn retries delay).
Proof.
  intros Hfn tr. unfold retry.
  apply (retry_loop_measure fn retries delay count_gets c count_gets_sleep Hfn).
Qed.

Lemma gets_rethrow {A} (prefix : string) (p : Platform) (error : thrown) :
  gets_at_most 0 (bind (lift (message_of error))
                       (fun msg => @throw A (new_NetworkError (prefix ++ msg)%string p))).
Proof.
  apply (gets_bind 0 0); [apply gets_lift|intros msg; apply gets_throw].
Qed.

Section Budget.
Variable rt : Runtime.

Lemma ig_try_all_gets (ig : InstagramScraper.t) (url : string) :
  gets_at_most 2 (InstagramScraper.try_all rt ig url).
Proof.
  unfold InstagramScraper.try_all.
  apply (gets_bind 1 1).
  - unfold InstagramScraper.scrapeWithAPI.
    apply (gets_try_catch 1 0); [|intros e; apply gets_ret].
    apply (gets_bind 1 0); [apply gets_client_get|]. intros data.
    destruct (Js.truthy _).
    + apply (gets_bind 0 0); [apply gets_lift|intros m; apply gets_ret].
    + destruct (Js.truthy _); [|apply gets_ret].
      apply (gets_bind 0 0); [apply gets_lift|intros m; apply gets_ret].
  - intros [m|]; [apply (gets_weaken 0); [lia|apply gets_ret]|].
    apply (gets_bind 1 0).
    + unfold InstagramScraper.scrapeWithHTML.
      apply (gets_try_catch 1 0); [|intros e; apply gets_rethrow].
      apply (gets_bind 1 0); [apply gets_client_get|intros html; apply gets_ret].
    + intros [m|]; [apply gets_ret|apply gets_throw].
Qed.

Lemma fb_try_all_gets (fb : FacebookScraper.t) (url videoId : string) :
  gets_at_most 2 (FacebookScraper.try_all rt fb url videoId).
Proof.
  unfold FacebookScraper.try_all.
  apply (gets_bind 1 1).
  - unfold FacebookScraper.scrapeWithHTML.
    apply (gets_try_catch 1 0); [|intros e; apply gets_ret].
    apply (gets_bind 1 0); [apply gets_client_get|intros html; apply gets_lift].
  - intros [m|]; [apply (gets_weaken 0); [lia|apply gets_ret]|].
    apply (gets_bind 1 0).
    + unfold FacebookScraper.scrapeWithMobileSite.
      apply (gets_try_catch 1 0); [|intros e; apply gets_ret].
      apply (gets_bind 1 0); [apply gets_client_get|intros html; apply gets_lift].
    + intros [m|]; [apply gets_ret|].
      apply (gets_bind 0 0); [apply gets_ret|].
      intros [m|]; [apply gets_ret|apply gets_throw].
Qed.

Lemma ig_scrape_gets (ig : InstagramScraper.t) (url : string) :
  gets_at_most (2 * Z.to_nat (eff_retries (InstagramScraper.config ig)))
               (InstagramScraper.scrape rt ig url).
Proof.
  unfold InstagramScraper.scrape.
  destruct (extractInstagramShortcode url) as [[|a id]|];
    try (apply (gets_weaken 0); [lia|apply gets_throw]).
  apply gets_retry, ig_try_all_gets.
Qed.

Lemma fb_scrape_gets (fb : FacebookScraper.t) (url : string) :
  gets_at_most (2 * Z.to_nat (eff_retries (FacebookScraper.config fb)))
               (FacebookScraper.scrape rt fb url).
Proof.
  unfold FacebookScraper.scrape.
  destruct (extractFacebookVideoId url) as [[|a id]|];
    try (apply (gets_weaken 0); [lia|apply gets_throw]).
  apply gets_retry, fb_try_all_gets.
Qed.

Lemma ig_download_gets (ig : InstagramScraper.t) (url : string) :
  gets_at_most (2 * Z.to_nat (eff_retries (InstagramScraper.config ig)) + 1)
               (InstagramScraper.download rt ig url).
Proof.
  unfold InstagramScraper.download.
  apply gets_bind; [apply ig_scrape_gets|]. intros metadata.
  destruct (negb _); [apply (gets_weaken 0); [lia|apply gets_throw]|].
  apply (gets_try_catch 1 0); [|intros e; apply gets_rethrow].
  apply (gets_bind 1 0); [|intros data; apply gets_lift].
  destruct (ig_videoUrl metadata);
    try (apply (gets_weaken 0); [lia|apply gets_throw]).
  apply gets_client_get.
Qed.

Lemma fb_download_gets (fb : FacebookScraper.t) (url : string) :
  gets_at_most (2 * Z.to_nat (eff_retries (FacebookScraper.config fb)) + 1)
               (FacebookScraper.download rt fb url).
Proof.
  unfold FacebookScraper.download.
  apply gets_bind; [apply fb_scrape_gets|]. intros metadata.
  destruct (negb _); [apply (gets_weaken 0); [lia|apply gets_throw]|].
  apply (gets_try_catch 1 0); [|intros e; apply gets_rethrow].
  apply (gets_bind 1 0); [|intros data; apply gets_lift].
  destruct (fb_videoUrl metadata);
    try (apply (gets_weaken 0); [lia|apply gets_throw]).
  apply gets_client_get.
Qed.

(** X4: the request budget.  With [n] the configured number of attempts
    (3 by default), [getMetadata] issues at most [2n] HTTP requests and
    [downloadVideo] at most [4n + 1] (it scrapes twice and fetches the
    video once), whatever the network answers; the same bounds hold for
    the methods of a facade built from the configuration. *)
Theorem request_budget (url : jsval) (options : DownloadOptions) (config : ScraperConfig) :
  gets_at_most (2 * attempts config) (getMetadata rt url config) /\
  gets_at_most (2 * attempts config) (getVideoURL rt url config) /\
  gets_at_most (4 * attempts config + 1) (downloadVideo rt url options config).
Proof.
  assert (Higs : forall u, gets_at_most (2 * attempts config)
                   (InstagramScraper.scrape rt (InstagramScraper.new config) u)).
  { intros u. exact (ig_scrape_gets (InstagramScraper.new config) u). }
  assert (Hfbs : forall u, gets_at_most (2 * attempts config)
                   (FacebookScraper.scrape rt (FacebookScraper.new config) u)).
  { intros u. exact (fb_scrape_gets (FacebookScraper.new config) u). }
  assert (Higd : forall u, gets_at_most (2 * attempts config + 1)
                   (InstagramScraper.download rt (InstagramScraper.new config) u)).
  { intros u. exact (ig_download_gets (InstagramScraper.new config) u). }
  assert (Hfbd : forall u, gets_at_most (2 * attempts config + 1)
                   (FacebookScraper.download rt (FacebookScraper.new config) u)).
  { intros u. exact (fb_download_gets (FacebookScraper.new config) u). }
  assert (Hmeta : gets_at_most (2 * attempts config) (getMetadata rt url config)).
  { unfold getMetadata, SocialMediaScraper.getMetadata.
    apply (gets_weaken (0 + (2 * attempts config + 0))); [lia|].
    apply gets_bind; [apply gets_lift|]. intros c.
    destruct (platform c); simpl.
    - apply gets_bind; [apply Higs|intros m; apply gets_ret].
    - apply gets_bind; [apply Hfbs|intros m; apply gets_ret]. }
  split; [exact Hmeta|]. split.
  - unfold getVideoURL, SocialMediaScraper.getVideoURL.
    apply (gets_weaken (2 * attempts config + 0)); [lia|].
    apply gets_bind; [exact Hmeta|]. intros metadata.
    destruct (negb _); [apply gets_throw|apply gets_ret].
  - unfold downloadVideo, SocialMediaScraper.download.
    apply (gets_weaken (4 * attempts config + 1 + 0)); [lia|].
    apply gets_try_catch.
    + apply (gets_weaken (0 + (2 * attempts config + (2 * attempts config + 1 + 0) + 0)));
        [lia|].
      apply gets_bind; [apply gets_lift|]. intros c.
      apply gets_bind; [|intros mb; apply gets_ret].
      destruct (platform c); simpl.
      * apply gets_bind; [apply Higs|]. intros metadata.
        apply gets_bind; [apply Higd|]. intros buffer. apply gets_ret.
      * apply gets_bind; [apply Hfbs|]. intros metadata.
        apply gets_bind; [apply Hfbd|]. intros buffer. apply gets_ret.
    + intros e. apply (gets_bind 0 0); [apply gets_lift|intros msg; apply gets_ret].
Qed.

End Budget.

(** The bound of [downloadVideo] is reached: with the API-style endpoint
    down and no probe successful the default configuration spends its six
    page-strategy requests, and a success spends 2 + 2 + 1. *)
Example request_budget_default_failure :
  count_gets (trace_of (getMetadata rt_down (JStr "https://www.instagram.com/p/ABC123/")
                          empty_config []))
  = 6%nat.
Proof. reflexivity. Qed.

Example request_budget_success :
  count_gets (trace_of (downloadVideo
                          (rt_stub (HttpFail timeout_error) (HttpOk (JStr "<html></html>"))
                                   (JStr "https://cdn.example/v.mp4"))
                          (JStr "https://www.instagram.com/p/ABC123/") no_download_options
                          empty_config []))
  = 5%nat.
Proof. reflexivity. Qed.

(* ===================================================================== *)
(** * Exceptions and results of the extractors *)
(* ===================================================================== *)

Section Extractors.
Variable rt : Runtime.

Lemma ig_try_all_exceptions (ig : InstagramScraper.t) (url : string) (tr : Trace) (e : thrown) :
  outcome (InstagramScraper.try_all rt ig url tr) = inl e -> instagram_scrape_error e.
Proof.
  destruct (ig_scrapeWithAPI_never_throws rt ig url tr) as [[m|] H1].
  - unfold outcome, InstagramScraper.try_all, bind. rewrite H1. discriminate.
  - rewrite (ig_try_all_after_api rt ig url tr H1). unfold outcome. simpl.
    destruct (net rt _ _) as [e'|html].
    + intros H. inversion H. right; right. eexists. reflexivity.
    + destruct (InstagramScraper.probe_page rt html url); [discriminate|].
      intros H. inversion H. right; left. reflexivity.
Qed.

Lemma fb_page_metadata_has_video (html : jsval) (url : string) (m : FacebookMetadata) :
  FacebookScraper.page_metadata rt html url = inr (Some m) ->
  Js.truthy (fb_videoUrl m) = true /\ fb_type m = video /\ fb_url m = url.
Proof.
  unfold FacebookScraper.page_metadata, bind_sum.
  destruct (cheerio_load rt html) as [e|dom]; [discriminate|].
  destruct (FacebookScraper.extractVideoURL rt html dom) as [e|videoUrl]; [discriminate|].
  destruct (Js.truthy videoUrl) eqn:Ht; simpl; [|discriminate].
  destruct (FacebookScraper.extractMetadataFromHTML rt dom url) as [e|metadata]; [discriminate|].
  intros H. inversion H. simpl. repeat split. exact Ht.
Qed.

Lemma fb_try_all_has_video (fb : FacebookScraper.t) (url videoId : string) (tr : Trace)
    (m : FacebookMetadata) :
  outcome (FacebookScraper.try_all rt fb url videoId tr) = inr m ->
  Js.truthy (fb_videoUrl m) = true /\ fb_type m = video /\ fb_url m = url.
Proof.
  unfold outcome, FacebookScraper.try_all, bind.
  unfold FacebookScraper.scrapeWithHTML at 1. unfold try_catch, bind.
  rewrite client_get_run.
  assert (Hmobile : forall tr1,
             fst (match FacebookScraper.scrapeWithMobileSite rt fb url tr1 with
                  | (inl e, tr') => (inl e, tr')
                  | (inr a, tr') =>
                      match a with
                      | Some m0 => ret m0
                      | None =>
                          fun tr0 =>
                            match FacebookScraper.scrapeWithGraphAPI videoId tr0 with
                            | (inl e, tr'0) => (inl e, tr'0)
                            | (inr a0, tr'0) =>
                                match a0 with
                                | Some m0 => ret m0
                                | None => throw FacebookScraper.extraction_failed
                                end tr'0
                            end
                      end tr'
                  end) = inr m ->
             Js.truthy (fb_videoUrl m) = true /\ fb_type m = video /\ fb_url m = url).
  { intros tr1. unfold FacebookScraper.scrapeWithMobileSite, try_catch, bind.
    rewrite client_get_run.
    destruct (net rt tr1 _) as [e|html]; simpl; [discriminate|].
    unfold lift.
    destruct (FacebookScraper.page_metadata rt html url) as [e|[m0|]] eqn:Hp; simpl;
      try discriminate.
    intros H. inversion H. subst. exact (fb_page_metadata_has_video html url m Hp). }
  destruct (net rt tr _) as [e|html]; simpl.
  - apply Hmobile.
  - unfold lift.
    destruct (FacebookScraper.page_metadata rt html url) as [e|[m0|]] eqn:Hp; simpl.
    + apply Hmobile.
    + intros H. inversion H. subst. exact (fb_page_metadata_has_video html url m Hp).
    + apply Hmobile.
Qed.

Lemma fb_scrape_has_video (fb : FacebookScraper.t) (url : string) (tr : Trace)
    (m : FacebookMetadata) :
  outcome (FacebookScraper.scrape rt fb url tr) = inr m ->
  Js.truthy (fb_videoUrl m) = true /\ fb_type m = video /\ fb_url m = url.
Proof.
  unfold FacebookScraper.scrape.
  destruct (extractFacebookVideoId url) as [[|a id]|]; try discriminate.
  unfold retry. intros H.
  pose proof (retry_loop_outcome
                (FacebookScraper.try_all rt fb url (String a id))
                (eff_retries (FacebookScraper.config fb))
                (eff_retryDelay (FacebookScraper.config fb))
                (Z.to_nat (eff_retries (FacebookScraper.config fb)))
                0 ThrownUndefined tr) as Hout.
  rewrite H in Hout. destruct Hout as [tr1 H1].
  exact (fb_try_all_has_video fb url (String a id) tr1 m H1).
Qed.

(** X5: the exceptions of [scrape].  With at least one attempt
    configured, the Instagram extractor throws only its two ParseErrors or
    the NetworkError of a failed page fetch, and the Facebook extractor
    throws only its two ParseErrors: it never reports a network failure
    as such. *)
Theorem scrape_exceptions (ig : InstagramScraper.t) (fb : FacebookScraper.t)
    (url : string) (tr : Trace) (e : thrown) :
  (0 < eff_retries (InstagramScraper.config ig) ->
   outcome (InstagramScraper.scrape rt ig url tr) = inl e -> instagram_scrape_error e) /\
  (0 < eff_retries (FacebookScraper.config fb) ->
   outcome (FacebookScraper.scrape rt fb url tr) = inl e -> facebook_scrape_error e).
Proof.
  split; intros Hpos.
  - unfold InstagramScraper.scrape.
    destruct (extractInstagramShortcode url) as [[|a id]|];
      try (intros H; inversion H; left; reflexivity).
    unfold retry. intros H.
    pose proof (retry_loop_outcome
                  (InstagramScraper.try_all rt ig url)
                  (eff_retries (InstagramScraper.config ig))
                  (eff_retryDelay (InstagramScraper.config ig))
                  (Z.to_nat (eff_retries (InstagramScraper.config ig)))
                  0 ThrownUndefined tr) as Hout.
    rewrite H in Hout. destruct Hout as [[Hn _]|[tr1 H1]]; [lia|].
    exact (ig_try_all_exceptions ig url tr1 e H1).
  - unfold FacebookScraper.scrape.
    destruct (extractFacebookVideoId url) as [[|a id]|];
      try (intros H; inversion H; left; reflexivity).
    unfold retry. intros H.
    pose proof (retry_loop_outcome
                  (FacebookScraper.try_all rt fb url (String a id))
                  (eff_retries (FacebookScraper.config fb))
                  (eff_retryDelay (FacebookScraper.config fb))
                  (Z.to_nat (eff_retries (FacebookScraper.config fb)))
                  0 ThrownUndefined tr) as Hout.
    rewrite H in Hout. destruct Hout as [[Hn _]|[tr1 H1]]; [lia|].
    right. exact (fb_try_all_only_extraction_failed rt fb url (String a id) tr1 e H1).
Qed.


End Extractors.

Lemma scrape_exceptions_witness :
  instagram_scrape_error
    (new_NetworkError "Failed to fetch HTML: timeout of 10000ms exceeded" instagram) /\
  facebook_scrape_error FacebookScraper.extraction_failed.
Proof.
  split.
  - apply (proj1 (scrape_exceptions rt_down (InstagramScraper.new empty_config)
                    (FacebookScraper.new empty_config)
                    "https://www.instagram.com/p/ABC123/" []
                    (new_NetworkError "Failed to fetch HTML: timeout of 10000ms exceeded"
                                      instagram))).
    + reflexivity.
    + reflexivity.
  - apply (proj2 (scrape_exceptions rt_down (InstagramScraper.new empty_config)
                    (FacebookScraper.new empty_config)
                    "https://www.facebook.com/watch/?v=12345" []
                    FacebookScraper.extraction_failed)).
    + reflexivity.
    + reflexivity.
Defined.


(** The Instagram extractor has no such guarantee: a JSON-LD block
    without [contentUrl] is returned as a result, and [download] then
    throws "Video URL not found". *)
Example instagram_result_may_lack_video :
  outcome (InstagramScraper.download
             (mkRuntime (net rt_jsonld) (re_capture rt_jsonld)
                        (fun _ => Some (JObj [("@type", JStr "VideoObject")]))
                        unit (fun _ => inr tt) (fun _ _ _ => JUndefined)
                        (fun _ => EmptyString) (date_iso rt_jsonld) (fun _ => inr EmptyString))
             (InstagramScraper.new empty_config)
             "https://www.instagram.com/p/ABC123/" [])
  = inl (new_ParseError "Video URL not found" instagram).
Proof. reflexivity. Qed.

(* ===================================================================== *)
(** * Further properties of the facade *)
(* ===================================================================== *)

Section Facade.
Variable rt : Runtime.
Variable self : SocialMediaScraper.t.

(** X7: an unsupported URL costs nothing.  When [isSupported] answers
    [false], [getMetadata] and [getVideoURL] throw and [download] returns
    a [success: false] result carrying the message, all without a single
    request or sleep: the trace is unchanged. *)
Theorem unsupported_url_costs_nothing (url : jsval) (options : DownloadOptions) (tr : Trace) :
  SocialMediaScraper.isSupported url = inr false ->
  exists err,
    validateURL url = inl (ThrownError err) /\
    SocialMediaScraper.getMetadata rt self url tr = (inl (ThrownError err), tr) /\
    SocialMediaScraper.getVideoURL rt self url tr = (inl (ThrownError err), tr) /\
    SocialMediaScraper.download rt self url options tr
    = (inr (mkDownloadResult false None None (Some (err_message err))), tr).
Proof.
  unfold SocialMediaScraper.isSupported, bind_sum.
  destruct (validateURL url) as [e|c] eqn:Hv; [|discriminate].
  intros _. destruct (validateURL_throws_errors url e Hv) as [err ->].
  exists err. split; [reflexivity|].
  unfold SocialMediaScraper.getVideoURL, SocialMediaScraper.getMetadata,
    SocialMediaScraper.download, try_catch, bind, lift.
  rewrite Hv. repeat split.
Qed.

(** X8: [download] and [getMetadata] agree.  If [getMetadata] throws an
    Error, [download] started in the same state returns [success: false]
    with that Error's message, having done the same requests; if
    [getMetadata] returns metadata, a successful [download] carries that
    very metadata (the one of its first scrape). *)
Theorem download_agrees_with_getMetadata (url : jsval) (options : DownloadOptions) (tr : Trace) :
  (forall err tr',
     SocialMediaScraper.getMetadata rt self url tr = (inl (ThrownError err), tr') ->
     SocialMediaScraper.download rt self url options tr
     = (inr (mkDownloadResult false None None (Some (err_message err))), tr')) /\
  (forall m tr' res,
     SocialMediaScraper.getMetadata rt self url tr = (inr m, tr') ->
     outcome (SocialMediaScraper.download rt self url options tr) = inr res ->
     dr_success res = true ->
     dr_metadata res = Some m).
Proof.
  unfold SocialMediaScraper.getMetadata, SocialMediaScraper.download, outcome, try_catch,
    bind, lift.
  destruct (validateURL url) as [e|c].
  - split.
    + intros err tr' H. inversion H. subst. reflexivity.
    + intros m tr' res H. discriminate H.
  - destruct (platform c).
    + destruct (InstagramScraper.scrape rt _ (normalizedUrl c) tr) as [[e|m0] tr1].
      * split.
        -- intros err tr' H. inversion H. subst. reflexivity.
        -- intros m tr' res H. discriminate H.
      * split; [intros err tr' H; discriminate H|].
        intros m tr' res H. unfold ret in H. inversion H. subst.
        destruct (InstagramScraper.download rt _ (normalizedUrl c) tr') as [[e|b] tr2]; simpl.
        -- destruct (message_of e); simpl; [discriminate|].
           intros H1. inversion H1. subst. discriminate.
        -- intros H1. inversion H1. subst. reflexivity.
    + destruct (FacebookScraper.scrape rt _ (normalizedUrl c) tr) as [[e|m0] tr1].
      * split.
        -- intros err tr' H. inversion H. subst. reflexivity.
        -- intros m tr' res H. discriminate H.
      * split; [intros err tr' H; discriminate H|].
        intros m tr' res H. unfold ret in H. inversion H. subst.
        destruct (FacebookScraper.download rt _ (normalizedUrl c) tr') as [[e|b] tr2]; simpl.
        -- destruct (message_of e); simpl; [discriminate|].
           intros H1. inversion H1. subst. discriminate.
        -- intros H1. inversion H1. subst. reflexivity.
Qed.

End Facade.

Lemma unsupported_url_costs_nothing_witness :
  exists err,
    validateURL (JStr "https://example.com/video") = inl (ThrownError err) /\
    SocialMediaScraper.getMetadata rt_down (SocialMediaScraper.new empty_config)
      (JStr "https://example.com/video") [] = (inl (ThrownError err), []) /\
    SocialMediaScraper.getVideoURL rt_down (SocialMediaScraper.new empty_config)
      (JStr "https://example.com/video") [] = (inl (ThrownError err), []) /\
    SocialMediaScraper.download rt_down (SocialMediaScraper.new empty_config)
      (JStr "https://example.com/video") no_download_options []
    = (inr (mkDownloadResult false None None (Some (err_message err))), []).
Proof.
  apply (unsupported_url_costs_nothing rt_down (SocialMediaScraper.new empty_config)
           (JStr "https://example.com/video") no_download_options []).
  reflexivity.
Defined.

(** X9: the convenience function [downloadVideo] never throws and always
    returns a well-formed result, for every URL, every option and every
    configuration whose retry count is not negative: either
    [success: true] with metadata and bytes and no error, or
    [success: false] with an error message and neither. *)
Theorem downloadVideo_returns_a_result
    (rt : Runtime) (url : jsval) (options : DownloadOptions) (config : ScraperConfig)
    (tr : Trace) :
  (forall r, retries config = Some r -> 0 <= r) ->
  exists res,
    outcome (downloadVideo rt url options config tr) = inr res /\
    ((dr_success res = true /\ dr_error res = None /\
      exists m b, dr_metadata res = Some m /\ dr_buffer res = Some b) \/
     (dr_success res = false /\ dr_metadata res = None /\ dr_buffer res = None /\
      exists msg, dr_error res = Some msg)).
Proof.
  intros Hcfg. unfold downloadVideo.
  exact (download_never_raises_unless_retries_negative rt config url options tr Hcfg).
Qed.

Lemma downloadVideo_returns_a_result_witness :
  exists res,
    outcome (downloadVideo rt_down (JStr "https://www.instagram.com/p/ABC123/")
               no_download_options empty_config []) = inr res /\
    ((dr_success res = true /\ dr_error res = None /\
      exists m b, dr_metadata res = Some m /\ dr_buffer res = Some b) \/
     (dr_success res = false /\ dr_metadata res = None /\ dr_buffer res = None /\
      exists msg, dr_error res = Some msg)).
Proof.
  apply (downloadVideo_returns_a_result rt_down (JStr "https://www.instagram.com/p/ABC123/")
           no_download_options empty_config []).
  intros r H. discriminate H.
Defined.

Lemma download_agrees_with_getMetadata_witness :
  SocialMediaScraper.download rt_down (SocialMediaScraper.new empty_config)
    (JStr "https://www.facebook.com/watch/?v=12345") no_download_options []
  = (inr (mkDownloadResult false None None
            (Some (err_message (mkError ParseError "Could not extract video metadata"
                                        (Some facebook))))),
     trace_of (SocialMediaScraper.getMetadata rt_down (SocialMediaScraper.new empty_config)
                 (JStr "https://www.facebook.com/watch/?v=12345") [])).
Proof.
  apply (proj1 (download_agrees_with_getMetadata rt_down (SocialMediaScraper.new empty_config)
                  (JStr "https://www.facebook.com/watch/?v=12345") no_download_options [])).
  reflexivity.
Defined.

(* ===================================================================== *)
(** * Text helpers *)
(* ===================================================================== *)

(** Collapsing is stable on its own output, from either state. *)
Lemma collapse_spaces_fixed (s : string) :
  collapse_spaces false (collapse_spaces false s) = collapse_spaces false s /\
  collapse_spaces true (collapse_spaces true s) = collapse_spaces true s /\
  collapse_spaces false (collapse_spaces true s) = collapse_spaces true s.
Proof.
  induction s as [|a s (IH1 & IH2 & IH3)]; simpl; [repeat split|].
  destruct (is_space a) eqn:Ha; simpl.
  - change (is_space " ") with true. cbv iota. rewrite IH2. repeat split; assumption.
  - rewrite Ha, IH1. repeat split.
Qed.












Section TagFacts.
Variable mark : ascii.

Lemma tags_from_are_words (s : string) :
  forall cur,
    (forall acc, cur = Some acc -> Str.all is_word acc = true) ->
    Forall (fun tag => tag <> EmptyString /\ Str.all is_word tag = true)
           (tags_from mark cur s).
Proof.
  induction s as [|a s IH]; intros cur Hcur.
  - simpl. destruct cur as [[|c acc]|]; constructor; [|constructor].
    split; [discriminate|]. now apply Hcur.
  - simpl. destruct (is_word a) eqn:Ha.
    + destruct cur as [acc|].
      * apply IH. intros acc' H. inversion H. subst.
        rewrite all_app. rewrite (Hcur acc eq_refl). simpl. now rewrite Ha.
      * apply IH. discriminate.
    + apply Forall_app. split.
      * destruct cur as [[|c acc]|]; constructor; [|constructor].
        split; [discriminate|]. now apply Hcur.
      * apply IH. destruct (Ascii.eqb a mark); intros acc H; inversion H. reflexivity.
Qed.

Lemma tags_from_without_mark (s : string) :
  Str.all (neq_char mark) s = true -> tags_from mark None s = [].
Proof.
  induction s as [|a s IH]; simpl; [reflexivity|].
  unfold neq_char at 1. intros H. apply andb_prop in H. destruct H as [Ha Hs].
  apply negb_true_iff in Ha. rewrite Ha.
  destruct (is_word a); simpl; now apply IH.
Qed.

End TagFacts.

(** X11: every hashtag and every mention returned is a non-empty run of
    word characters (letters, digits, underscore): the [#] or [@] is
    stripped and no other character gets in. *)
Theorem tags_are_words (text : jsval) (tags : list string) :
  extractHashtags text = inr tags \/ extractMentions text = inr tags ->
  Forall (fun tag => tag <> EmptyString /\ Str.all is_word tag = true) tags.
Proof.
  unfold extractHashtags, extractMentions.
  destruct (Js.truthy text); simpl.
  - destruct text; intros [H|H]; try discriminate; inversion H;
      apply tags_from_are_words; discriminate.
  - intros [H|H]; inversion H; constructor.
Qed.

Lemma tags_are_words_witness :
  Forall (fun tag => tag <> EmptyString /\ Str.all is_word tag = true) ["sunset"; "beach"].
Proof.
  apply (tags_are_words (JStr "Check #sunset and #beach!") ["sunset"; "beach"]).
  left. reflexivity.
Defined.

(** X12: a text without [#] has no hashtags and a text without [@] no
    mentions; so has the empty text. *)
Theorem no_marker_no_tags (s : string) :
  (Str.all (neq_char "#") s = true -> extractHashtags (JStr s) = inr []) /\
  (Str.all (neq_char "@") s = true -> extractMentions (JStr s) = inr []).
Proof.
  unfold extractHashtags, extractMentions.
  destruct s as [|a t]; [split; reflexivity|].
  simpl Js.truthy. cbv iota. simpl negb. cbv iota.
  split; intros H; f_equal; now apply tags_from_without_mark.
Qed.

Lemma no_marker_no_tags_witness :
  extractHashtags (JStr "ping @alice") = inr [] /\
  extractMentions (JStr "Check #sunset") = inr [].
Proof.
  split.
  - apply (proj1 (no_marker_no_tags "ping @alice")). reflexivity.
  - apply (proj2 (no_marker_no_tags "Check #sunset")). reflexivity.
Defined.

(* ===================================================================== *)
(** * Identifiers, classification and the requests built from them *)
(* ===================================================================== *)

Lemma span_all (p : ascii -> bool) (s : string) :
  Str.all p (fst (Str.span p s)) = true.
Proof.
  induction s as [|a s IH]; simpl; [reflexivity|].
  destruct (p a) eqn:Ha; [|reflexivity].
  destruct (Str.span p s) as [x y]. simpl in *. now rewrite Ha, IH.
Qed.


Lemma lit_then_run_shape (lit : string) (cls : ascii -> bool) (s r : string) :
  lit_then_run lit cls s = Some r ->
  r <> EmptyString /\ Str.all cls r = true /\ Str.startsWith lit s = true.
Proof.
  unfold lit_then_run. destruct (Str.startsWith lit s); [|discriminate].
  pose proof (span_all cls (Str.drop (String.length lit) s)) as Hall.
  destruct (fst _) as [|a t]; simpl; [discriminate|].
  intros H. inversion H. subst. repeat split; [discriminate|exact Hall].
Qed.

Lemma re_search_includes (lit : string) (at_start : string -> option string) :
  (forall s r, at_start s = Some r -> Str.startsWith lit s = true) ->
  forall s r, re_search at_start s = Some r -> Str.includes lit s = true.
Proof.
  intros Hm. induction s as [|a s IH]; simpl; intros r.
  - destruct (at_start EmptyString) eqn:E; [|discriminate].
    intros _. rewrite (Hm _ _ E). reflexivity.
  - destruct (at_start (String a s)) eqn:E.
    + intros _. rewrite (Hm _ _ E). reflexivity.
    + intros H. rewrite (IH r H). apply orb_true_r.
Qed.

Lemma startsWith_app (a b s : string) :
  Str.startsWith (a ++ b)%string s = true -> Str.startsWith a s = true.
Proof.
  revert s. induction a as [|c a IH]; intros s; simpl; [reflexivity|].
  destruct s as [|d s]; [discriminate|].
  intros H. apply andb_prop in H. destruct H as [Hc Hs].
  now rewrite Hc, (IH s Hs).
Qed.

Lemma includes_app (a b s : string) :
  Str.includes (a ++ b)%string s = true -> Str.includes a s = true.
Proof.
  induction s as [|d s IH]; simpl; intros H.
  - rewrite orb_false_r in *. exact (startsWith_app a b _ H).
  - apply orb_prop in H. destruct H as [H|H].
    + now rewrite (startsWith_app a b _ H).
    + rewrite (IH H). apply orb_true_r.
Qed.

Lemma startsWith_toLowerCase (p s : string) :
  Str.startsWith p s = true ->
  Str.startsWith (Str.toLowerCase p) (Str.toLowerCase s) = true.
Proof.
  revert s. induction p as [|c p IH]; intros s; simpl; [reflexivity|].
  destruct s as [|d s]; [discriminate|]. simpl.
  intros H. apply andb_prop in H. destruct H as [Hc Hs].
  apply Ascii.eqb_eq in Hc. subst d.
  now rewrite Ascii.eqb_refl, (IH s Hs).
Qed.

Lemma includes_toLowerCase (p s : string) :
  Str.includes p s = true ->
  Str.includes (Str.toLowerCase p) (Str.toLowerCase s) = true.
Proof.
  induction s as [|d s IH]; simpl; intros H.
  - rewrite orb_false_r in *. exact (startsWith_toLowerCase p EmptyString H).
  - apply orb_prop in H. destruct H as [H|H].
    + pose proof (startsWith_toLowerCase p (String d s) H) as H'. simpl in H'.
      now rewrite H'.
    + rewrite (IH H). apply orb_true_r.
Qed.

(** A match of one of the Instagram patterns puts [instagram.com] in the
    URL. *)
Lemma shortcode_needs_instagram (url r : string) :
  extractInstagramShortcode url = Some r -> Str.includes "instagram.com" url = true.
Proof.
  unfold extractInstagramShortcode. simpl.
  assert (Hpat : forall tail,
            re_search (lit_then_run ("instagram.com" ++ tail)%string not_slash_query) url <> None ->
            Str.includes "instagram.com" url = true).
  { intros tail H.
    destruct (re_search _ url) as [r'|] eqn:E; [|now elim H].
    apply (includes_app "instagram.com" tail).
    apply (re_search_includes _ _ (fun s r0 H0 => proj2 (proj2 (lit_then_run_shape _ _ s r0 H0)))
             url r' E). }
  destruct (re_search (lit_then_run "instagram.com/p/" not_slash_query) url) eqn:E1.
  { intros _. apply (Hpat "/p/"). simpl. congruence. }
  destruct (re_search (lit_then_run "instagram.com/reel/" not_slash_query) url) eqn:E2.
  { intros _. apply (Hpat "/reel/"). simpl. congruence. }
  destruct (re_search (lit_then_run "instagram.com/tv/" not_slash_query) url) eqn:E3.
  { intros _. apply (Hpat "/tv/"). simpl. congruence. }
  discriminate.
Qed.

Lemma fb_watch_at_starts (s r : string) :
  fb_watch_at s = Some r -> Str.startsWith "facebook.com" s = true.
Proof.
  unfold fb_watch_at.
  destruct (Str.startsWith "facebook.com/watch" s) eqn:E; [|discriminate].
  intros _. exact (startsWith_app "facebook.com" "/watch" s E).
Qed.

Lemma fb_videos_at_starts (s r : string) :
  fb_videos_at s = Some r -> Str.startsWith "facebook.com" s = true.
Proof.
  unfold fb_videos_at.
  destruct (Str.startsWith "facebook.com/" s) eqn:E; [|discriminate].
  intros _. exact (startsWith_app "facebook.com" "/" s E).
Qed.

(** A match of one of the Facebook patterns puts [facebook.com] or
    [fb.watch] in the URL. *)
Lemma video_id_needs_facebook (url r : string) :
  extractFacebookVideoId url = Some r ->
  Str.includes "facebook.com" url = true \/ Str.includes "fb.watch" url = true.
Proof.
  unfold extractFacebookVideoId. simpl.
  destruct (re_search fb_watch_at url) eqn:E1.
  { intros _. left. exact (re_search_includes _ _ fb_watch_at_starts url _ E1). }
  destruct (re_search fb_videos_at url) eqn:E2.
  { intros _. left. exact (re_search_includes _ _ fb_videos_at_starts url _ E2). }
  destruct (re_search (lit_then_run "fb.watch/" not_slash_query) url) eqn:E3.
  { intros _. right. apply (includes_app "fb.watch" "/").
    exact (re_search_includes _ _
             (fun s r0 H0 => proj2 (proj2 (lit_then_run_shape _ _ s r0 H0))) url _ E3). }
  destruct (re_search (lit_then_run "facebook.com/video.php?v=" Str.is_digit) url) eqn:E4.
  { intros _. left. apply (includes_app "facebook.com" "/video.php?v=").
    exact (re_search_includes _ _
             (fun s r0 H0 => proj2 (proj2 (lit_then_run_shape _ _ s r0 H0))) url _ E4). }
  discriminate.
Qed.

(** X13: the shape of an extracted identifier.  An Instagram shortcode is
    non-empty and holds neither [/] nor [?]; a Facebook video id is
    non-empty, and consists of digits unless the URL holds [fb.watch/]. *)
Theorem extracted_identifier_shape (url r : string) :
  (extractInstagramShortcode url = Some r ->
   r <> EmptyString /\ Str.all not_slash_query r = true) /\
  (extractFacebookVideoId url = Some r ->
   r <> EmptyString /\
   (Str.includes "fb.watch/" url = false -> Str.all Str.is_digit r = true)).
Proof.
  split.
  - unfold extractInstagramShortcode. intros H.
    apply (first_match_keeps
             (fun r => r <> EmptyString /\ Str.all not_slash_query r = true)) in H;
      [exact H|].
    assert (Hpat : forall lit s r0,
              re_search (lit_then_run lit not_slash_query) s = Some r0 ->
              r0 <> EmptyString /\ Str.all not_slash_query r0 = true).
    { intros lit.
      apply (re_search_keeps (fun r => r <> EmptyString /\ Str.all not_slash_query r = true)).
      intros s r0 H0. destruct (lit_then_run_shape _ _ s r0 H0) as (Hne & Hall & _).
      split; assumption. }
    apply Forall_cons; [apply Hpat|].
    apply Forall_cons; [apply Hpat|].
    apply Forall_cons; [apply Hpat|apply Forall_nil].
  - intros H. split; [intros ->; exact (proj2 (extracted_identifier_nonempty url) H)|].
    intros Hno. revert H. unfold extractFacebookVideoId. simpl.
    set (Q := fun r : string => Str.all Str.is_digit r = true).
    assert (Hrun : forall lit s r0, lit_then_run lit Str.is_digit s = Some r0 -> Q r0).
    { intros lit s r0 H0. exact (proj1 (proj2 (lit_then_run_shape _ _ s r0 H0))). }
    destruct (re_search fb_watch_at url) eqn:E1.
    { intros H. inversion H. subst. apply (re_search_keeps Q fb_watch_at) in E1; [exact E1|].
      intros s r0. unfold fb_watch_at. destruct (Str.startsWith _ s); [|discriminate].
      destruct (lit_then_run "/?v=" Str.is_digit _) eqn:E.
      - intros H1. inversion H1. subst. exact (Hrun _ _ _ E).
      - apply Hrun. }
    destruct (re_search fb_videos_at url) eqn:E2.
    { intros H. inversion H. subst. apply (re_search_keeps Q fb_videos_at) in E2; [exact E2|].
      intros s r0. unfold fb_videos_at. destruct (Str.startsWith _ s); [|discriminate].
      apply (dot_star_then_keeps Q). apply Hrun. }
    destruct (re_search (lit_then_run "fb.watch/" not_slash_query) url) eqn:E3.
    { pose proof (re_search_includes _ _
                    (fun s r0 H0 => proj2 (proj2 (lit_then_run_shape _ _ s r0 H0))) url _ E3)
        as Hin.
      congruence. }
    destruct (re_search (lit_then_run "facebook.com/video.php?v=" Str.is_digit) url) eqn:E4.
    { intros H. inversion H. subst.
      apply (re_search_keeps Q (lit_then_run "facebook.com/video.php?v=" Str.is_digit)) in E4;
        [exact E4|apply Hrun]. }
    discriminate.
Qed.

Lemma extracted_identifier_shape_witness :
  ("Cx9_a-b"%string <> EmptyString /\ Str.all not_slash_query "Cx9_a-b" = true) /\
  ("987"%string <> EmptyString /\
   (Str.includes "fb.watch/" "https://www.facebook.com/page/videos/987/" = false ->
    Str.all Str.is_digit "987" = true)).
Proof.
  split.
  - apply (proj1 (extracted_identifier_shape
                    "https://www.instagram.com/reel/Cx9_a-b/?x=1" "Cx9_a-b")).
    reflexivity.
  - apply (proj2 (extracted_identifier_shape
                    "https://www.facebook.com/page/videos/987/" "987")).
    reflexivity.
Defined.

(** X14: extractor and classifier agree.  A URL from which the Instagram
    shortcode can be extracted is classified as Instagram by
    [validateURL]; a URL from which a Facebook video id can be extracted
    is never refused with a URLError (as unsupported or empty). *)
Theorem extractable_url_is_supported (url r : string) :
  (extractInstagramShortcode url = Some r ->
   validateURL (JStr url) = inr (mkClassified instagram (normalizeInstagramURL url))) /\
  (extractFacebookVideoId url = Some r ->
   forall msg, validateURL (JStr url) <> inl (new_URLError msg)).
Proof.
  split; intros H.
  - apply validateURL_instagram.
    exact (includes_toLowerCase "instagram.com" url (shortcode_needs_instagram url r H)).
  - assert (Hsig : (Str.includes "facebook.com" (Str.toLowerCase url)
                    || Str.includes "fb.com" (Str.toLowerCase url)
                    || Str.includes "fb.watch" (Str.toLowerCase url))%bool = true).
    { destruct (video_id_needs_facebook url r H) as [Hf|Hw].
      - pose proof (includes_toLowerCase "facebook.com" url Hf) as Hl.
        change (Str.toLowerCase "facebook.com") with "facebook.com"%string in Hl.
        rewrite Hl. reflexivity.
      - pose proof (includes_toLowerCase "fb.watch" url Hw) as Hl.
        change (Str.toLowerCase "fb.watch") with "fb.watch"%string in Hl.
        rewrite Hl. now rewrite !orb_true_r. }
    destruct url as [|a t]; [discriminate H|].
    rewrite validateURL_string by reflexivity. rewrite Hsig.
    destruct (Str.includes "instagram.com" _); [discriminate|].
    intros msg. unfold normalizeFacebookURL.
    destruct (Str.includes "fb.watch" (String a t)); [discriminate|].
    destruct (WhatwgURL.parse (String a t)) as [u|]; [|discriminate].
    destruct (WhatwgURL.searchParams_get u "v") as [v|]; [|discriminate].
    destruct (negb (Str.is_empty v)); discriminate.
Qed.

Lemma extractable_url_is_supported_witness :
  validateURL (JStr "https://www.instagram.com/reel/Cx9_a-b/?x=1")
  = inr (mkClassified instagram
           (normalizeInstagramURL "https://www.instagram.com/reel/Cx9_a-b/?x=1")).
Proof.
  apply (proj1 (extractable_url_is_supported
                  "https://www.instagram.com/reel/Cx9_a-b/?x=1" "Cx9_a-b")).
  reflexivity.
Defined.

Lemma split_at_separator (c : ascii) (a b : string) :
  Str.all (neq_char c) a = true ->
  Str.split_head c (a ++ String c b)%string = a /\
  Str.split_tail c (a ++ String c b)%string = Some b.
Proof.
  induction a as [|d a IH]; simpl.
  - intros _. rewrite Ascii.eqb_refl. split; reflexivity.
  - unfold neq_char at 1. intros H. apply andb_prop in H. destruct H as [Hd Ha].
    apply negb_true_iff in Hd. rewrite Hd.
    destruct (IH Ha) as [-> ->]. split; reflexivity.
Qed.





(** X16: the shape of a normalized Instagram URL and of the API request
    built from it.  The normalized URL holds no [?] and ends with [/]; the
    URL of the API-style request therefore splits at its only [?] into
    the normalized URL and exactly the two API parameters. *)
Theorem normalized_instagram_url_shape (ig : InstagramScraper.t) (url : string) :
  Str.all (neq_char "?") (normalizeInstagramURL url) = true /\
  Str.endsWithChar "/" (normalizeInstagramURL url) = true /\
  Str.split_head "?" (req_url (ig_api_request ig (normalizeInstagramURL url)))
    = normalizeInstagramURL url /\
  Str.split_tail "?" (req_url (ig_api_request ig (normalizeInstagramURL url)))
    = Some "__a=1&__d=dis"%string.
Proof.
  assert (Hno : Str.all (neq_char "?") (normalizeInstagramURL url) = true).
  { unfold normalizeInstagramURL. cbv zeta.
    pose proof (split_head_has_no_separator "?" url) as H.
    destruct (Str.endsWithChar "/" _); [exact H|].
    rewrite all_app, H. reflexivity. }
  split; [exact Hno|]. split.
  - unfold normalizeInstagramURL. cbv zeta.
    destruct (Str.endsWithChar "/" (Str.split_head "?" url)) eqn:E; [exact E|].
    apply endsWithChar_snoc.
  - unfold ig_api_request, request_of. simpl req_url.
    exact (split_at_separator "?" _ "__a=1&__d=dis" Hno).
Qed.

Lemma replace_first_absent (pat by_ s : string) :
  Str.includes pat s = false -> Str.replace_first pat by_ s = s.
Proof.
  induction s as [|a s IH]; simpl; intros H.
  - rewrite orb_false_r in H. now rewrite H.
  - apply orb_false_elim in H. destruct H as [Hs Hi].
    rewrite Hs. now rewrite (IH Hi).
Qed.

(** X17: the URL of the mobile-site request.  A URL without
    [www.facebook.com] (an [fb.watch] link, a bare [facebook.com] host) is
    requested unchanged, so the mobile strategy repeats the full-site
    request's URL; the canonical watch URL is requested on
    [m.facebook.com]. *)
Theorem mobile_request_url (fb : FacebookScraper.t) (url : string) :
  (Str.includes "www.facebook.com" url = false ->
   req_url (fb_mobile_request fb url) = url /\
   req_url (fb_mobile_request fb url) = req_url (fb_full_request fb url)) /\
  (forall videoId,
     req_url (fb_mobile_request fb ("https://www.facebook.com/watch/?v=" ++ videoId)%string)
     = ("https://m.facebook.com/watch/?v=" ++ videoId)%string).
Proof.
  split.
  - intros H. unfold fb_mobile_request, fb_full_request, request_of. simpl req_url.
    rewrite (replace_first_absent _ _ _ H). split; reflexivity.
  - intros videoId. reflexivity.
Qed.

Lemma mobile_request_url_witness :
  req_url (fb_mobile_request (FacebookScraper.new empty_config) "https://fb.watch/abc/")
  = "https://fb.watch/abc/"%string /\
  req_url (fb_mobile_request (FacebookScraper.new empty_config) "https://fb.watch/abc/")
  = req_url (fb_full_request (FacebookScraper.new empty_config) "https://fb.watch/abc/").
Proof.
  apply (proj1 (mobile_request_url (FacebookScraper.new empty_config) "https://fb.watch/abc/")).
  reflexivity.
Defined.

(** X18: [getVideoURL] never returns a missing URL: a value it returns is
    truthy (not [undefined], [null] or the empty string); and for a URL
    classified as Facebook its "Video URL not found" is never thrown. *)
Theorem getVideoURL_returns_a_url
    (rt : Runtime) (self : SocialMediaScraper.t) (url : jsval) (tr : Trace) :
  (forall v, outcome (SocialMediaScraper.getVideoURL rt self url tr) = inr v ->
             Js.truthy v = true) /\
  (forall c, validateURL url = inr c -> platform c = facebook ->
             outcome (SocialMediaScraper.getVideoURL rt self url tr)
             <> inl (ThrownError (mkError PlainError "Video URL not found" None))).
Proof.
  unfold SocialMediaScraper.getVideoURL, outcome, bind. split.
  - intros v.
    destruct (SocialMediaScraper.getMetadata rt self url tr) as [[e|m] tr1]; [discriminate|].
    destruct (Js.truthy (SocialMediaScraper.videoUrl_of m)) eqn:Ht; simpl; [|discriminate].
    intros H. inversion H. subst. exact Ht.
  - intros c Hv Hp.
    unfold SocialMediaScraper.getMetadata, bind, lift. rewrite Hv, Hp.
    destruct (FacebookScraper.scrape rt _ (normalizedUrl c) tr) as [[e|m] tr1] eqn:Hs.
    + simpl. intros H. inversion H. subst.
      destruct (Z_lt_le_dec 0 (eff_retries (FacebookScraper.config
                                              (SocialMediaScraper.facebookScraper self))))
        as [Hpos|Hneg].
      * assert (Herr : is_error (ThrownError
                                   (mkError PlainError "Video URL not found" None))).
        { eexists. reflexivity. }
        clear Herr.
        unfold FacebookScraper.scrape in Hs.
        destruct (extractFacebookVideoId (normalizedUrl c)) as [[|a id]|];
          try discriminate Hs.
        pose proof (retry_loop_outcome
                      (FacebookScraper.try_all rt (SocialMediaScraper.facebookScraper self)
                         (normalizedUrl c) (String a id))
                      (eff_retries (FacebookScraper.config
                                      (SocialMediaScraper.facebookScraper self)))
                      (eff_retryDelay (FacebookScraper.config
                                         (SocialMediaScraper.facebookScraper self)))
                      (Z.to_nat (eff_retries (FacebookScraper.config
                                                (SocialMediaScraper.facebookScraper self))))
                      0 ThrownUndefined tr) as Hout.
        unfold retry in Hs. rewrite Hs in Hout. unfold outcome in Hout. simpl in Hout.
        destruct Hout as [[_ Hu]|[tr2 H1]]; [discriminate Hu|].
        pose proof (fb_try_all_only_extraction_failed rt _ _ _ tr2 _ H1) as Hx.
        discriminate Hx.
      * unfold FacebookScraper.scrape in Hs.
        destruct (extractFacebookVideoId (normalizedUrl c)) as [[|a id]|];
          try discriminate Hs.
        rewrite retry_without_attempts in Hs by lia. discriminate Hs.
    + simpl.
      destruct (fb_scrape_has_video rt (SocialMediaScraper.facebookScraper self)
                  (normalizedUrl c) tr m) as (Ht & _).
      { unfold outcome. now rewrite Hs. }
      rewrite Ht. discriminate.
Qed.

Lemma getVideoURL_returns_a_url_witness :
  Js.truthy (JStr "https://cdn.example/v.mp4") = true.
Proof.
  apply (proj1 (getVideoURL_returns_a_url
                  (rt_stub (HttpFail timeout_error) (HttpOk (JStr "<html></html>"))
                           (JStr "https://cdn.example/v.mp4"))
                  (SocialMediaScraper.new empty_config)
                  (JStr "https://www.instagram.com/p/ABC123/") [])).
  reflexivity.
Defined.

Section Parsers.
Variable rt : Runtime.

(** X19: the two response parsers accept only videos and fill the engagement
    fields.  When [parseAPIResponse] returns, the item's [media_type] is 2
    or its [product_type] is [clips], the type is [reel] exactly for
    clips, and when [parseGraphQLResponse] returns, [is_video] is truthy
    and the type is [video] exactly for a [GraphVideo]; in both, the
    result carries the scraped URL and its user name, duration, likes,
    comments and views are never absent: they are the response's value or
    the default [unknown] or 0. *)
Theorem parsers_accept_only_videos (item : jsval) (url : string) (m : InstagramMetadata) :
  (InstagramScraper.parseAPIResponse rt item url = inr m ->
   (Js.seq_num (Js.oget item "media_type") 2
    || Js.seq_str (Js.oget item "product_type") "clips")%bool = true /\
   ig_type m = (if Js.seq_str (Js.oget item "product_type") "clips" then reel else video)) /\
  (InstagramScraper.parseGraphQLResponse rt item url = inr m ->
   Js.truthy (Js.oget item "is_video") = true /\
   ig_type m = (if Js.seq_str (Js.oget item "__typename") "GraphVideo" then video else reel)) /\
  (InstagramScraper.parseAPIResponse rt item url = inr m \/
   InstagramScraper.parseGraphQLResponse rt item url = inr m ->
   ig_url m = url /\
   Forall (fun field => Js.truthy field = true \/ field = JNum 0)
          [ig_duration m; ig_likes m; ig_comments m; ig_views m] /\
   Js.truthy (ig_username m) = true).
Proof.
  assert (Hor : forall a d, Js.truthy d = true \/ d = JNum 0 ->
                            Js.truthy (Js.or a d) = true \/ Js.or a d = JNum 0).
  { intros a d Hd. unfold Js.or. destruct (Js.truthy a) eqn:Ha; [left; exact Ha|exact Hd]. }
  assert (Hor0 : forall a, Js.truthy (Js.or a (JNum 0)) = true \/ Js.or a (JNum 0) = JNum 0).
  { intros a. apply Hor. right. reflexivity. }
  assert (Horu : forall a, Js.truthy (Js.or a (JStr "unknown")) = true).
  { intros a. unfold Js.or. destruct (Js.truthy a) eqn:Ha; [exact Ha|reflexivity]. }
  assert (Hapi : InstagramScraper.parseAPIResponse rt item url = inr m ->
                 ((Js.seq_num (Js.oget item "media_type") 2
                   || Js.seq_str (Js.oget item "product_type") "clips")%bool = true /\
                  ig_type m = (if Js.seq_str (Js.oget item "product_type") "clips"
                               then reel else video)) /\
                 (ig_url m = url /\
                  Forall (fun field => Js.truthy field = true \/ field = JNum 0)
                         [ig_duration m; ig_likes m; ig_comments m; ig_views m] /\
                  Js.truthy (ig_username m) = true)).
  { unfold InstagramScraper.parseAPIResponse, bind_sum.
    destruct (_ || _)%bool; simpl; [|discriminate].
    destruct (cleanText _) as [e|caption]; [discriminate|].
    destruct (if Js.truthy (Js.oget item "taken_at") then _ else _) as [e|timestamp];
      [discriminate|].
    destruct (extractHashtags _) as [e|hashtags]; [discriminate|].
    destruct (extractMentions _) as [e|mentions]; [discriminate|].
    intros H. inversion H. simpl. repeat split; auto; repeat constructor; auto. }
  assert (Hgql : InstagramScraper.parseGraphQLResponse rt item url = inr m ->
                 (Js.truthy (Js.oget item "is_video") = true /\
                  ig_type m = (if Js.seq_str (Js.oget item "__typename") "GraphVideo"
                               then video else reel)) /\
                 (ig_url m = url /\
                  Forall (fun field => Js.truthy field = true \/ field = JNum 0)
                         [ig_duration m; ig_likes m; ig_comments m; ig_views m] /\
                  Js.truthy (ig_username m) = true)).
  { unfold InstagramScraper.parseGraphQLResponse, bind_sum.
    destruct (Js.truthy (Js.oget item "is_video")); simpl; [|discriminate].
    destruct (cleanText _) as [e|caption]; [discriminate|].
    destruct (if Js.truthy (Js.oget item "taken_at_timestamp") then _ else _) as [e|timestamp];
      [discriminate|].
    destruct (extractHashtags _) as [e|hashtags]; [discriminate|].
    destruct (extractMentions _) as [e|mentions]; [discriminate|].
    intros H. inversion H. simpl. repeat split; auto; repeat constructor; auto. }
  split; [intros H; exact (proj1 (Hapi H))|].
  split; [intros H; exact (proj1 (Hgql H))|].
  intros [H|H]; [exact (proj2 (Hapi H))|exact (proj2 (Hgql H))].
Qed.

End Parsers.

Lemma parsers_accept_only_videos_witness :
  (Js.seq_num (Js.oget (JObj [("media_type", JNum 2)]) "media_type") 2
   || Js.seq_str (Js.oget (JObj [("media_type", JNum 2)]) "product_type") "clips")%bool = true /\
  ig_type (mkInstagramMetadata video "u" JUndefined JUndefined (JStr "unknown") ""
             JUndefined (JNum 0) (JNum 0) (JNum 0) (JNum 0) (JBool false) [] [] JUndefined)
  = (if Js.seq_str (Js.oget (JObj [("media_type", JNum 2)]) "product_type") "clips"
     then reel else video).
Proof.
  apply (proj1 (parsers_accept_only_videos rt_down (JObj [("media_type", JNum 2)]) "u"
                  (mkInstagramMetadata video "u" JUndefined JUndefined (JStr "unknown") ""
                     JUndefined (JNum 0) (JNum 0) (JNum 0) (JNum 0) (JBool false) [] []
                     JUndefined))).
  reflexivity.
Defined.

(* ===================================================================== *)
(** * formatDuration *)
(* ===================================================================== *)

Example formatDuration_samples :
  formatDuration 65 = "1:05"%string /\ formatDuration 3600 = "60:00"%string /\
  formatDuration 59 = "0:59"%string /\ formatDuration 0 = "0:00"%string /\
  formatDuration (-5) = "0:00"%string.
Proof. repeat split. Qed.

Lemma digit_char_spec (d : Z) :
  0 <= d < 10 -> Str.is_digit (digit_char d) = true /\ digit_value (digit_char d) = d.
Proof.
  intros H.
  assert (Hd : d = 0 \/ d = 1 \/ d = 2 \/ d = 3 \/ d = 4 \/ d = 5 \/ d = 6 \/ d = 7 \/
               d = 8 \/ d = 9) by lia.
  repeat (destruct Hd as [->|Hd]; [split; reflexivity|]). subst. split; reflexivity.
Qed.

Lemma digits_value_acc (s : string) :
  forall a, digits_value a s = a * 10 ^ Z.of_nat (String.length s) + digits_value 0 s.
Proof.
  induction s as [|c s IH]; intros a.
  - simpl. lia.
  - cbn [digits_value String.length]. rewrite (IH (10 * a + digit_value c)).
    rewrite (IH (10 * 0 + digit_value c)).
    rewrite Nat2Z.inj_succ, Z.pow_succ_r by lia. ring.
Qed.

Lemma decimal_digits_spec (fuel : nat) :
  forall n acc,
    0 <= n < 2 ^ Z.of_nat fuel ->
    Str.all Str.is_digit acc = true ->
    Str.all Str.is_digit (decimal_digits fuel n acc) = true /\
    digits_value 0 (decimal_digits fuel n acc)
    = n * 10 ^ Z.of_nat (String.length acc) + digits_value 0 acc.
Proof.
  induction fuel as [|fuel IH]; intros n acc Hn Hacc.
  - simpl in *. assert (n = 0) by lia. subst. split; [exact Hacc|lia].
  - cbn [decimal_digits].
    assert (Hmod : 0 <= n mod 10 < 10) by (apply Z.mod_pos_bound; lia).
    destruct (digit_char_spec (n mod 10) Hmod) as [Hdig Hval].
    assert (Hacc' : Str.all Str.is_digit (String (digit_char (n mod 10)) acc) = true).
    { simpl. now rewrite Hdig, Hacc. }
    assert (Hv' : digits_value 0 (String (digit_char (n mod 10)) acc)
                  = (n mod 10) * 10 ^ Z.of_nat (String.length acc) + digits_value 0 acc).
    { cbn [digits_value]. rewrite digits_value_acc, Hval. ring. }
    destruct (Z.ltb_spec n 10) as [Hlt|Hge].
    + split; [exact Hacc'|]. rewrite Hv'. rewrite Z.mod_small by lia. reflexivity.
    + destruct (IH (n / 10) (String (digit_char (n mod 10)) acc)) as [Hall Hval'].
      * split; [apply Z.div_pos; lia|].
        apply Z.div_lt_upper_bound; [lia|].
        rewrite Nat2Z.inj_succ, Z.pow_succ_r in Hn by lia. lia.
      * exact Hacc'.
      * split; [exact Hall|]. rewrite Hval', Hv'.
        cbn [String.length]. rewrite Nat2Z.inj_succ, Z.pow_succ_r by lia.
        pose proof (Z.div_mod n 10 ltac:(lia)) as Hdm. nia.
Qed.

Lemma toString_spec (n : Z) :
  0 <= n ->
  Str.all Str.is_digit (toString n) = true /\ digits_value 0 (toString n) = n.
Proof.
  intros Hn. unfold toString.
  destruct (decimal_digits_spec (S (Z.to_nat (Z.log2 n))) n EmptyString) as [Hall Hval].
  - split; [exact Hn|].
    rewrite Nat2Z.inj_succ, Z2Nat.id by apply Z.log2_nonneg.
    destruct (Z.eq_dec n 0) as [->|Hne]; [reflexivity|].
    apply Z.log2_spec. lia.
  - reflexivity.
  - split; [exact Hall|]. rewrite Hval. simpl. lia.
Qed.

Lemma padded_seconds (k : nat) :
  (k < 60)%nat ->
  String.length (padStart2 (toString (Z.of_nat k))) = 2%nat /\
  Str.all Str.is_digit (padStart2 (toString (Z.of_nat k))) = true /\
  digits_value 0 (padStart2 (toString (Z.of_nat k))) = Z.of_nat k.
Proof.
  intros Hk.
  do 60 (destruct k as [|k]; [vm_compute; repeat split; reflexivity|]).
  lia.
Qed.

Lemma digit_is_no_colon (c : ascii) : Str.is_digit c = true -> neq_char ":" c = true.
Proof. by_cases_on_char c. Qed.

(** X20: [formatDuration] can be read back.  For a positive whole number
    of seconds (below 2^53, where a number holds integers exactly) the
    result is the decimal minutes, a colon, and exactly two
    digits of seconds below 60; minutes times 60 plus seconds is the
    input.  Zero and negative inputs give ["0:00"]. *)
Theorem formatDuration_reads_back (seconds : Z) :
  (seconds <= 0 -> formatDuration seconds = "0:00"%string) /\
  (0 < seconds < 2 ^ 53 ->
   exists mins secs,
     formatDuration seconds = (mins ++ ":" ++ secs)%string /\
     Str.split_head ":" (formatDuration seconds) = mins /\
     Str.split_tail ":" (formatDuration seconds) = Some secs /\
     Str.all Str.is_digit mins = true /\ Str.all Str.is_digit secs = true /\
     String.length secs = 2%nat /\
     0 <= digits_value 0 secs < 60 /\
     digits_value 0 mins * 60 + digits_value 0 secs = seconds).
Proof.
  unfold formatDuration. split.
  - intros H. destruct (Z.eqb_spec seconds 0); [reflexivity|].
    destruct (Z.ltb_spec seconds 0); [reflexivity|lia].
  - intros H.
    destruct (Z.eqb_spec seconds 0); [lia|].
    destruct (Z.ltb_spec seconds 0); [lia|]. simpl orb. cbv iota.
    assert (Hm : 0 <= seconds mod 60 < 60) by (apply Z.mod_pos_bound; lia).
    destruct (toString_spec (seconds / 60)) as [Hmd Hmv]; [apply Z.div_pos; lia|].
    destruct (padded_seconds (Z.to_nat (seconds mod 60))) as (Hlen & Hsd & Hsv); [lia|].
    rewrite Z2Nat.id in Hlen, Hsd, Hsv by lia.
    exists (toString (seconds / 60)), (padStart2 (toString (seconds mod 60))).
    assert (Hno : Str.all (neq_char ":") (toString (seconds / 60)) = true).
    { revert Hmd. apply all_impl. exact digit_is_no_colon. }
    destruct (split_at_separator ":" _ (padStart2 (toString (seconds mod 60))) Hno)
      as [Hhead Htail].
    split; [reflexivity|]. split; [exact Hhead|]. split; [exact Htail|].
    split; [exact Hmd|]. split; [exact Hsd|]. split; [exact Hlen|].
    rewrite Hsv, Hmv. split; [exact Hm|].
    pose proof (Z.div_mod seconds 60 ltac:(lia)). lia.
Qed.

Lemma formatDuration_reads_back_witness :
  exists mins secs,
    formatDuration 125 = (mins ++ ":" ++ secs)%string /\
    Str.split_head ":" (formatDuration 125) = mins /\
    Str.split_tail ":" (formatDuration 125) = Some secs /\
    Str.all Str.is_digit mins = true /\ Str.all Str.is_digit secs = true /\
    String.length secs = 2%nat /\
    0 <= digits_value 0 secs < 60 /\
    digits_value 0 mins * 60 + digits_value 0 secs = 125.
Proof.
  apply (proj2 (formatDuration_reads_back 125)). split; [lia|reflexivity].
Defined.

(* ===================================================================== *)
(** * The [url], [type] and [platform] of a result *)
(* ===================================================================== *)

Section ResultFields.
Variable rt : Runtime.

Lemma parseAPIResponse_fields (item : jsval) (url : string) (m : InstagramMetadata) :
  InstagramScraper.parseAPIResponse rt item url = inr m -> instagram_result_for url m.
Proof.
  unfold InstagramScraper.parseAPIResponse, bind_sum.
  destruct (_ || _)%bool; simpl; [|discriminate].
  destruct (cleanText _) as [e|caption]; [discriminate|].
  destruct (if Js.truthy (Js.oget item "taken_at") then _ else _) as [e|timestamp];
    [discriminate|].
  destruct (extractHashtags _) as [e|hashtags]; [discriminate|].
  destruct (extractMentions _) as [e|mentions]; [discriminate|].
  intros H. inversion H. split; simpl; [reflexivity|].
  destruct (Js.seq_str _ _); [right|left]; reflexivity.
Qed.

Lemma parseGraphQLResponse_fields (media : jsval) (url : string) (m : InstagramMetadata) :
  InstagramScraper.parseGraphQLResponse rt media url = inr m -> instagram_result_for url m.
Proof.
  unfold InstagramScraper.parseGraphQLResponse, bind_sum.
  destruct (Js.truthy (Js.oget media "is_video")); simpl; [|discriminate].
  destruct (cleanText _) as [e|caption]; [discriminate|].
  destruct (if Js.truthy (Js.oget media "taken_at_timestamp") then _ else _) as [e|timestamp];
    [discriminate|].
  destruct (extractHashtags _) as [e|hashtags]; [discriminate|].
  destruct (extractMentions _) as [e|mentions]; [discriminate|].
  intros H. inversion H. split; simpl; [reflexivity|].
  destruct (Js.seq_str _ _); [left|right]; reflexivity.
Qed.

Lemma extractFromJSONLD_fields (html : jsval) (url : string) (m : InstagramMetadata) :
  InstagramScraper.extractFromJSONLD rt html url = Some m -> instagram_result_for url m.
Proof.
  unfold InstagramScraper.extractFromJSONLD, null_on_throw, bind_sum.
  destruct (page_match rt ReJsonLd html) as [e|[group1|]]; try discriminate.
  destruct (_ || _)%bool; [discriminate|].
  destruct (cleanText _) as [e|caption]; [discriminate|].
  destruct (extractHashtags _) as [e|hashtags]; [discriminate|].
  destruct (extractMentions _) as [e|mentions]; [discriminate|].
  intros H. inversion H. split; simpl; [reflexivity|left; reflexivity].
Qed.

Lemma script_media_fields (media : jsval) (url : string)
    (otherwise : thrown + option InstagramMetadata) (m : InstagramMetadata) :
  (otherwise = inr (Some m) -> instagram_result_for url m) ->
  InstagramScraper.script_media rt media url otherwise = inr (Some m) ->
  instagram_result_for url m.
Proof.
  intros Ho. unfold InstagramScraper.script_media, bind_sum.
  destruct (_ && _)%bool; [|exact Ho].
  destruct (InstagramScraper.parseGraphQLResponse rt media url) as [e|m0] eqn:Hp;
    [discriminate|].
  intros H. inversion H. subst. exact (parseGraphQLResponse_fields media url m Hp).
Qed.

Lemma extractFromScripts_fields (html : jsval) (url : string) (m : InstagramMetadata) :
  InstagramScraper.extractFromScripts rt html url = Some m -> instagram_result_for url m.
Proof.
  unfold InstagramScraper.extractFromScripts, null_on_throw.
  set (additional := bind_sum (page_match rt ReAdditionalData html) _).
  assert (Hadd : additional = inr (Some m) -> instagram_result_for url m).
  { unfold additional, bind_sum.
    destruct (page_match rt ReAdditionalData html) as [e|[group1|]]; try discriminate.
    apply script_media_fields. discriminate. }
  unfold bind_sum at 1.
  destruct (page_match rt ReSharedData html) as [e|[group1|]]; [discriminate| |].
  - destruct (InstagramScraper.script_media rt _ url additional) as [e|[m0|]] eqn:Hs;
      try discriminate.
    intros H. inversion H. subst. exact (script_media_fields _ url additional m Hadd Hs).
  - destruct additional as [e|[m0|]]; try discriminate.
    intros H. inversion H. subst. now apply Hadd.
Qed.

Lemma extractFromMetaTags_fields (html : jsval) (url : string) (m : InstagramMetadata) :
  InstagramScraper.extractFromMetaTags rt html url = Some m -> instagram_result_for url m.
Proof.
  unfold InstagramScraper.extractFromMetaTags, null_on_throw, bind_sum.
  destruct (cheerio_load rt html) as [e|dom]; [discriminate|].
  destruct (negb _); [discriminate|].
  destruct (cleanText _) as [e|caption]; [discriminate|].
  destruct (extractHashtags _) as [e|hashtags]; [discriminate|].
  destruct (extractMentions _) as [e|mentions]; [discriminate|].
  intros H. inversion H. split; simpl; [reflexivity|left; reflexivity].
Qed.

Lemma probe_page_fields (html : jsval) (url : string) (m : InstagramMetadata) :
  InstagramScraper.probe_page rt html url = Some m -> instagram_result_for url m.
Proof.
  unfold InstagramScraper.probe_page.
  destruct (InstagramScraper.extractFromJSONLD rt html url) as [m1|] eqn:H1.
  { intros H. inversion H. subst. exact (extractFromJSONLD_fields html url m H1). }
  destruct (InstagramScraper.extractFromScripts rt html url) as [m2|] eqn:H2.
  { intros H. inversion H. subst. exact (extractFromScripts_fields html url m H2). }
  apply extractFromMetaTags_fields.
Qed.

Lemma ig_try_all_fields (ig : InstagramScraper.t) (url : string) (tr : Trace)
    (m : InstagramMetadata) :
  outcome (InstagramScraper.try_all rt ig url tr) = inr m -> instagram_result_for url m.
Proof.
  unfold outcome, InstagramScraper.try_all, bind.
  unfold InstagramScraper.scrapeWithAPI, try_catch, bind. rewrite client_get_run.
  assert (Hhtml : forall tr1,
             fst (match InstagramScraper.scrapeWithHTML rt ig url tr1 with
                  | (inl e, tr') => (inl e, tr')
                  | (inr a, tr') =>
                      match a with
                      | Some m0 => ret m0
                      | None => throw InstagramScraper.extraction_failed
                      end tr'
                  end) = inr m -> instagram_result_for url m).
  { intros tr1. rewrite ig_scrapeWithHTML_run.
    destruct (net rt tr1 _) as [e|html]; [discriminate|].
    destruct (InstagramScraper.probe_page rt html url) as [m0|] eqn:Hp; [|discriminate].
    simpl. intros H. inversion H. subst. exact (probe_page_fields html url m Hp). }
  destruct (net rt tr _) as [e|data]; simpl; [apply Hhtml|].
  destruct (Js.truthy (Js.oidx0 (Js.oget data "items"))).
  - unfold bind, lift.
    destruct (InstagramScraper.parseAPIResponse rt _ url) as [e|m0] eqn:Hp; simpl;
      [apply Hhtml|].
    intros H. inversion H. subst. exact (parseAPIResponse_fields _ url m Hp).
  - destruct (Js.truthy (Js.oget (Js.oget data "graphql") "shortcode_media")).
    + unfold bind, lift.
      destruct (InstagramScraper.parseGraphQLResponse rt _ url) as [e|m0] eqn:Hp; simpl;
        [apply Hhtml|].
      intros H. inversion H. subst. exact (parseGraphQLResponse_fields _ url m Hp).
    + simpl. apply Hhtml.
Qed.

Lemma ig_scrape_fields (ig : InstagramScraper.t) (url : string) (tr : Trace)
    (m : InstagramMetadata) :
  outcome (InstagramScraper.scrape rt ig url tr) = inr m -> instagram_result_for url m.
Proof.
  unfold InstagramScraper.scrape.
  destruct (extractInstagramShortcode url) as [[|a id]|]; try discriminate.
  unfold retry. intros H.
  pose proof (retry_loop_outcome
                (InstagramScraper.try_all rt ig url)
                (eff_retries (InstagramScraper.config ig))
                (eff_retryDelay (InstagramScraper.config ig))
                (Z.to_nat (eff_retries (InstagramScraper.config ig)))
                0 ThrownUndefined tr) as Hout.
  rewrite H in Hout. destruct Hout as [tr1 H1].
  exact (ig_try_all_fields ig url tr1 m H1).
Qed.

(** X21: what a result says about itself.  Metadata returned by
    [getMetadata] carries the platform the classifier chose and, as its
    [url], the normalized URL (not the raw input); its type is [video] or
    [reel], never [story] or [post], and [video] on Facebook. *)
Theorem result_fields (self : SocialMediaScraper.t) (url : jsval) (tr : Trace)
    (m : VideoMetadata) :
  outcome (SocialMediaScraper.getMetadata rt self url tr) = inr m ->
  exists c,
    validateURL url = inr c /\
    metadata_platform m = platform c /\
    metadata_url m = normalizedUrl c /\
    (metadata_type m = video \/ (metadata_type m = reel /\ platform c = instagram)).
Proof.
  unfold SocialMediaScraper.getMetadata, outcome, bind, lift. intros H.
  destruct (validateURL url) as [e|c]; [discriminate H|].
  exists c. split; [reflexivity|].
  destruct (platform c).
  - destruct (InstagramScraper.scrape rt _ (normalizedUrl c) tr) as [[e|m0] tr1] eqn:Hs;
      [discriminate H|].
    simpl in H. inversion H. subst. simpl.
    destruct (ig_scrape_fields (SocialMediaScraper.instagramScraper self)
                (normalizedUrl c) tr m0) as [Hu Ht].
    { unfold outcome. now rewrite Hs. }
    split; [reflexivity|]. split; [exact Hu|].
    destruct Ht as [Ht|Ht]; [left; exact Ht|right; split; [exact Ht|reflexivity]].
  - destruct (FacebookScraper.scrape rt _ (normalizedUrl c) tr) as [[e|m0] tr1] eqn:Hs;
      [discriminate H|].
    simpl in H. inversion H. subst. simpl.
    destruct (fb_scrape_has_video rt (SocialMediaScraper.facebookScraper self)
                (normalizedUrl c) tr m0) as (_ & Ht & Hu).
    { unfold outcome. now rewrite Hs. }
    split; [reflexivity|]. split; [exact Hu|]. left. exact Ht.
Qed.

End ResultFields.

Lemma result_fields_witness :
  exists c,
    validateURL (JStr "https://www.instagram.com/reel/ABC123/?igshid=x") = inr c /\
    instagram = platform c /\
    "https://www.instagram.com/reel/ABC123/"%string = normalizedUrl c /\
    (video = video \/ (video = reel /\ platform c = instagram)).
Proof.
  apply (result_fields
           (rt_stub (HttpFail timeout_error) (HttpOk (JStr "<html></html>"))
                    (JStr "https://cdn.example/v.mp4"))
           (SocialMediaScraper.new empty_config)
           (JStr "https://www.instagram.com/reel/ABC123/?igshid=x") []
           (OfInstagram
              (mkInstagramMetadata video "https://www.instagram.com/reel/ABC123/"
                 (JStr "https://cdn.example/v.mp4") (JStr "") (JStr "unknown") ""
                 JUndefined JUndefined JUndefined JUndefined JUndefined JUndefined [] []
                 JUndefined))).
  reflexivity.
Defined.
